(** * Grievance management system: conversational intake engine

    A shallow embedding of the parts of the repository that the
    specification's testable properties talk about:

    - [src/core/llm_handler.py]   : [categorize_complaint]
    - [src/database/database.py]  : [update_complaint_status]
    - [src/core/rag_system.py]    : [find_relevant_context]
    - [src/frontend/app.py]       : the validators, the two field
      extractors, [smart_intent_detection], the registration state machine
      ([handle_smart_registration], [handle_step_by_step_collection],
      [process_complaint_registration]) and the conversation memory's
      [get_contextual_insights].

    Python [str] values are embedded as [string]; the character predicates
    ([isalpha], [isspace], [\d], [\w], ...) are Python's on the ASCII range,
    which is the range the patterns of the program are written for. *)

From Stdlib Require Import ZArith QArith Ascii String List Bool Lia Sorting.Sorted Sorting.Permutation.
From stdpp Require Import base option list gmap strings.

Local Open Scope string_scope.
Local Open Scope list_scope.

(** ** Python strings *)

Module PyStr.

Definition chars (s : string) : list ascii := list_ascii_of_string s.
Definition of_chars (l : list ascii) : string := string_of_list_ascii l.

Definition code (c : ascii) : nat := nat_of_ascii c.

Definition between (lo hi : nat) (c : ascii) : bool :=
  (lo <=? code c)%nat && (code c <=? hi)%nat.

Definition is_upper (c : ascii) : bool := between 65 90 c.
Definition is_lower (c : ascii) : bool := between 97 122 c.
Definition is_alpha (c : ascii) : bool := is_upper c || is_lower c.
Definition is_digit (c : ascii) : bool := between 48 57 c.
Definition is_alnum (c : ascii) : bool := is_alpha c || is_digit c.

(** [str.isspace] on one character: TAB, LF, VT, FF, CR, the four
    separators 0x1c-0x1f and the blank. *)
Definition is_space (c : ascii) : bool :=
  between 9 13 c || between 28 32 c.

Definition lower_char (c : ascii) : ascii :=
  if is_upper c then ascii_of_nat (code c + 32) else c.
Definition upper_char (c : ascii) : ascii :=
  if is_lower c then ascii_of_nat (code c - 32) else c.

Definition lower (s : string) : string := of_chars (map lower_char (chars s)).
Definition upper (s : string) : string := of_chars (map upper_char (chars s)).

Definition len (s : string) : nat := String.length s.

(** [s.isalpha()] and [s.isdigit()]: every character, and at least one. *)
Definition isalpha (s : string) : bool :=
  negb (len s =? 0)%nat && forallb is_alpha (chars s).
Definition isdigit (s : string) : bool :=
  negb (len s =? 0)%nat && forallb is_digit (chars s).

Fixpoint lstrip_chars (l : list ascii) : list ascii :=
  match l with
  | c :: l' => if is_space c then lstrip_chars l' else l
  | [] => []
  end.

Definition strip_chars (l : list ascii) : list ascii :=
  rev (lstrip_chars (rev (lstrip_chars l))).

Definition strip (s : string) : string := of_chars (strip_chars (chars s)).

(** Some character is not white space. *)
Definition has_text (l : list ascii) : bool :=
  existsb (fun c => negb (is_space c)) l.

(** [s.split()]: the maximal runs of non-space characters. *)
Fixpoint split_ws_aux (cur : list ascii) (l : list ascii) : list string :=
  match l with
  | [] => match cur with [] => [] | _ => [of_chars (rev cur)] end
  | c :: l' =>
      if is_space c
      then match cur with
           | [] => split_ws_aux [] l'
           | _ => of_chars (rev cur) :: split_ws_aux [] l'
           end
      else split_ws_aux (c :: cur) l'
  end.

Definition split (s : string) : list string := split_ws_aux [] (chars s).

(** [sep.join(words)] *)
Fixpoint join (sep : string) (ws : list string) : string :=
  match ws with
  | [] => ""
  | [w] => w
  | w :: ws' => w ++ sep ++ join sep ws'
  end.

(** [w.capitalize()] *)
Definition capitalize (w : string) : string :=
  match chars w with
  | [] => ""
  | c :: l => of_chars (upper_char c :: map lower_char l)
  end.

Fixpoint starts_with (p l : list ascii) : bool :=
  match p, l with
  | [], _ => true
  | a :: p', b :: l' => Ascii.eqb a b && starts_with p' l'
  | _ :: _, [] => false
  end.

(** The text after the first occurrence of [p] in [l], when there is one. *)
Fixpoint after_first (p l : list ascii) : option (list ascii) :=
  if starts_with p l then Some (drop (length p) l)
  else match l with
       | [] => None
       | _ :: l' => after_first p l'
       end.

(** [needle in hay] *)
Definition contains (needle hay : string) : bool :=
  match after_first (chars needle) (chars hay) with
  | Some _ => true
  | None => false
  end.

(** [hay.split(sep, 1)[1]], defined when [sep in hay]. *)
Definition split_once_tail (sep hay : string) : option string :=
  of_chars <$> after_first (chars sep) (chars hay).

(** [any(w in hay for w in ws)] *)
Definition any_in (ws : list string) (hay : string) : bool :=
  existsb (fun w => contains w hay) ws.

(** [x in xs] for a list or set of strings *)
Definition mem (x : string) (xs : list string) : bool :=
  existsb (String.eqb x) xs.

(** [s[:n]] *)
Definition prefix (n : nat) (s : string) : string := of_chars (take n (chars s)).

(** [s.replace(c, '')] for a one-character [c] *)
Definition remove_char (c : ascii) (s : string) : string :=
  of_chars (filter (fun x => Ascii.eqb x c = false) (chars s)).

End PyStr.

(** ** The fragment of Python's [re] the program uses

    A backtracking matcher in continuation-passing style: alternatives are
    tried left to right, quantifiers are greedy and give back one iteration
    at a time, and the first complete match found is the answer, as in
    CPython's engine. One capturing group suffices for every pattern of
    the program. *)

Module Re.
Import PyStr.

Inductive regex : Type :=
| Eps                                         (* empty pattern *)
| Cls (p : ascii -> bool)                     (* one character of a class *)
| Cat (r1 r2 : regex)                         (* r1 r2 *)
| Alt (r1 r2 : regex)                         (* r1|r2 *)
| Rep (r : regex) (lo : nat) (hi : option nat)  (* r{lo,hi}, greedy *)
| Grp (r : regex)                             (* ( r ), group 1 *)
| Bol                                         (* ^ *)
| Eol                                         (* $ *)
| Wb.                                         (* \b *)

(** Where the matcher stands: the character just before the position
    ([None] at the start of the text), the text still ahead, and what
    group 1 holds. *)
Record mstate : Type := MState {
  prev : option ascii;
  rest : list ascii;
  grp1 : option (list ascii)
}.

Definition is_word (c : ascii) : bool := is_alnum c || Ascii.eqb c "_"%char.

Definition word_before (st : mstate) : bool :=
  match prev st with Some c => is_word c | None => false end.
Definition word_after (st : mstate) : bool :=
  match rest st with c :: _ => is_word c | [] => false end.

(** [$] without MULTILINE: at the end, or before a final newline. *)
Definition at_eol (st : mstate) : bool :=
  match rest st with
  | [] => true
  | [c] => Ascii.eqb c "010"%char
  | _ => false
  end.

Definition consumed (before after : mstate) : list ascii :=
  take (length (rest before) - length (rest after)) (rest before).

(** The loop of a greedy quantifier [r{lo,hi}], given the matcher [body]
    of [r]: one more iteration is tried first, and an iteration must
    consume something; when none leads to a match, the loop stops here if
    [lo] iterations were done. [fuel] bounds the iterations by the length
    of the text. *)
Fixpoint rep_loop {R : Type}
    (body : mstate -> (mstate -> option R) -> option R)
    (k : mstate -> option R) (fuel lo : nat) (hi : option nat) (st : mstate)
    {struct fuel} : option R :=
  match fuel with
  | O => None
  | S fuel' =>
      let stop := if (lo =? 0)%nat then k st else None in
      match hi with
      | Some O => stop
      | _ =>
          match body st (fun st' =>
                  if (length (rest st') <? length (rest st))%nat
                  then rep_loop body k fuel' (Nat.pred lo) (Nat.pred <$> hi) st'
                  else None) with
          | Some x => Some x
          | None => stop
          end
      end
  end.

Fixpoint exec {R : Type} (r : regex) (st : mstate)
    (k : mstate -> option R) {struct r} : option R :=
  match r with
  | Eps => k st
  | Cls p =>
      match rest st with
      | c :: l => if p c then k (MState (Some c) l (grp1 st)) else None
      | [] => None
      end
  | Cat r1 r2 => exec r1 st (fun st1 => exec r2 st1 k)
  | Alt r1 r2 =>
      match exec r1 st k with
      | Some x => Some x
      | None => exec r2 st k
      end
  | Rep r0 lo hi =>
      rep_loop (fun st' k' => exec r0 st' k') k (S (length (rest st))) lo hi st
  | Grp r0 =>
      exec r0 st (fun st' =>
        k (MState (prev st') (rest st') (Some (consumed st st'))))
  | Bol => match prev st with None => k st | Some _ => None end
  | Eol => if at_eol st then k st else None
  | Wb => if xorb (word_before st) (word_after st) then k st else None
  end.

(** What the matcher searches: [steps r st st'] when [r] can take the
    matcher from [st] to [st']. *)
Inductive steps : regex -> mstate -> mstate -> Prop :=
| steps_eps st : steps Eps st st
| steps_cls p c l st :
    rest st = c :: l -> p c = true ->
    steps (Cls p) st (MState (Some c) l (grp1 st))
| steps_cat r1 r2 st st1 st2 :
    steps r1 st st1 -> steps r2 st1 st2 -> steps (Cat r1 r2) st st2
| steps_alt_l r1 r2 st st' : steps r1 st st' -> steps (Alt r1 r2) st st'
| steps_alt_r r1 r2 st st' : steps r2 st st' -> steps (Alt r1 r2) st st'
| steps_rep_stop r hi st : steps (Rep r 0 hi) st st
| steps_rep_more r lo hi st st1 st2 :
    hi <> Some O ->
    steps r st st1 ->
    (length (rest st1) < length (rest st))%nat ->
    steps (Rep r (Nat.pred lo) (Nat.pred <$> hi)) st1 st2 ->
    steps (Rep r lo hi) st st2
| steps_grp r st st' :
    steps r st st' ->
    steps (Grp r) st (MState (prev st') (rest st') (Some (consumed st st')))
| steps_bol st : prev st = None -> steps Bol st st
| steps_eol st : at_eol st = true -> steps Eol st st
| steps_wb st :
    xorb (word_before st) (word_after st) = true -> steps Wb st st.

(** A match: the whole matched text ([group()]), group 1 and the state
    after it. *)
Record rmatch : Type := RMatch {
  group0 : string;
  group1 : option string;
  after : mstate
}.

Definition match_here (r : regex) (p : option ascii) (l : list ascii)
    : option rmatch :=
  let st := MState p l None in
  exec r st (fun st' =>
    Some (RMatch (of_chars (consumed st st')) (of_chars <$> grp1 st') st')).

(** Leftmost match at or after the current position. *)
Fixpoint search_from (r : regex) (p : option ascii) (l : list ascii)
    : option rmatch :=
  match match_here r p l with
  | Some m => Some m
  | None =>
      match l with
      | [] => None
      | c :: l' => search_from r (Some c) l'
      end
  end.

(** [re.match(r, s)] and [re.search(r, s)] *)
Definition re_match (r : regex) (s : string) : option rmatch :=
  match_here r None (chars s).
Definition re_search (r : regex) (s : string) : option rmatch :=
  search_from r None (chars s).

(** [re.findall(r, s)] for a pattern with one group: group 1 of the
    successive non-overlapping matches, left to right. *)
Fixpoint findall_from (fuel : nat) (r : regex) (p : option ascii)
    (l : list ascii) : list string :=
  match fuel with
  | O => []
  | S fuel' =>
      match search_from r p l with
      | None => []
      | Some m =>
          let g := default "" (group1 m) in
          let st := after m in
          if (String.length (group0 m) =? 0)%nat
          then match rest st with
               | [] => [g]
               | c :: l' => g :: findall_from fuel' r (Some c) l'
               end
          else g :: findall_from fuel' r (prev st) (rest st)
      end
  end.

Definition re_findall (r : regex) (s : string) : list string :=
  findall_from (S (String.length s)) r None (chars s).

(** [re.IGNORECASE]: a character matches when either of its cases does. *)
Fixpoint icase (r : regex) : regex :=
  match r with
  | Cls p => Cls (fun c => p (lower_char c) || p (upper_char c))
  | Cat r1 r2 => Cat (icase r1) (icase r2)
  | Alt r1 r2 => Alt (icase r1) (icase r2)
  | Rep r0 lo hi => Rep (icase r0) lo hi
  | Grp r0 => Grp (icase r0)
  | _ => r
  end.

(** *** Pattern syntax *)

Definition chr (c : ascii) : regex := Cls (Ascii.eqb c).
Fixpoint lit_chars (l : list ascii) : regex :=
  match l with
  | [] => Eps
  | [c] => chr c
  | c :: l' => Cat (chr c) (lit_chars l')
  end.
Definition lit (s : string) : regex := lit_chars (chars s).

Fixpoint cat (rs : list regex) : regex :=
  match rs with
  | [] => Eps
  | [r] => r
  | r :: rs' => Cat r (cat rs')
  end.
Fixpoint alt (rs : list regex) : regex :=
  match rs with
  | [] => Eps
  | [r] => r
  | r :: rs' => Alt r (alt rs')
  end.

Definition one_of (s : string) (c : ascii) : bool :=
  existsb (Ascii.eqb c) (chars s).

Definition digit : regex := Cls is_digit.                 (* \d *)
Definition space : regex := Cls is_space.                 (* \s *)
Definition opt (r : regex) : regex := Rep r 0 (Some 1).   (* r? *)
Definition star (r : regex) : regex := Rep r 0 None.      (* r* *)
Definition plus (r : regex) : regex := Rep r 1 None.      (* r+ *)
Definition rep (r : regex) (lo hi : nat) : regex := Rep r lo (Some hi).
Definition exactly (r : regex) (n : nat) : regex := Rep r n (Some n).
Definition at_least (r : regex) (n : nat) : regex := Rep r n None.

(** [re.sub(r'[...]', '', s)] for a character class *)
Definition sub_class_empty (p : ascii -> bool) (s : string) : string :=
  of_chars (filter (fun c => p c = false) (chars s)).

End Re.

(** Python truthiness of an optional string ([None] and [''] are falsy),
    and the loop "try each candidate in order, stop at the first that
    succeeds". *)
Definition truthy (o : option string) : bool :=
  match o with
  | Some s => negb (PyStr.len s =? 0)%nat
  | None => false
  end.

(** [d.get(k) or other] *)
Definition get_or (o : option string) (other : string) : string :=
  if truthy o then default "" o else other.

Fixpoint first_some {A B : Type} (f : A -> option B) (l : list A) : option B :=
  match l with
  | [] => None
  | x :: l' =>
      match f x with
      | Some y => Some y
      | None => first_some f l'
      end
  end.

(** [l[start:]] for a Python list [l] and any integer [start]. *)
Definition slice_from {A : Type} (start : Z) (l : list A) : list A :=
  let n := Z.of_nat (length l) in
  let i := if (start <? 0)%Z then Z.max 0 (n + start) else Z.min start n in
  drop (Z.to_nat i) l.

(** ** models/models.py *)

Module Models.

(** Modelled from the spec: [models/models.py] is not among the sources.
    [current_step] ranges over the steps of the spec's ConversationContext
    (section 3), which are the step names the handlers assign and compare. *)
Inductive Step : Type :=
| initial
| collecting_name
| collecting_mobile
| collecting_details
| collecting_info
| processing.

Definition Step_eqb (a b : Step) : bool :=
  match a, b with
  | initial, initial | collecting_name, collecting_name
  | collecting_mobile, collecting_mobile
  | collecting_details, collecting_details
  | collecting_info, collecting_info | processing, processing => true
  | _, _ => false
  end.

(** Modelled from the spec: the class [UserContext] of [models/models.py];
    its fields are those of the spec's ConversationContext, and a new
    instance has every slot unset and stands at [initial]. *)
Record UserContext : Type := mkUserContext {
  name : option string;
  mobile : option string;
  complaint_details : option string;
  current_step : Step
}.

Definition UserContext_new : UserContext :=
  mkUserContext None None None initial.

Definition set_name (c : UserContext) (v : option string) : UserContext :=
  mkUserContext v (mobile c) (complaint_details c) (current_step c).
Definition set_mobile (c : UserContext) (v : option string) : UserContext :=
  mkUserContext (name c) v (complaint_details c) (current_step c).
Definition set_complaint_details (c : UserContext) (v : option string)
    : UserContext :=
  mkUserContext (name c) (mobile c) v (current_step c).
Definition set_current_step (c : UserContext) (v : Step) : UserContext :=
  mkUserContext (name c) (mobile c) (complaint_details c) v.

(** Modelled from the spec: the enum [ComplaintCategory] of
    [models/models.py], with the seven category labels as values. *)
Inductive ComplaintCategory : Type :=
| HARDWARE | SOFTWARE | NETWORK | ACCOUNT | BILLING | SERVICE | OTHER.

Definition category_value (c : ComplaintCategory) : string :=
  match c with
  | HARDWARE => "Hardware"
  | SOFTWARE => "Software"
  | NETWORK => "Network"
  | ACCOUNT => "Account"
  | BILLING => "Billing"
  | SERVICE => "Service"
  | OTHER => "Other"
  end.

(** Modelled from the spec: the enum [ComplaintStatus] of
    [models/models.py]; its values are [Config.COMPLAINT_STATUSES]. *)
Inductive ComplaintStatus : Type :=
| REGISTERED | IN_PROGRESS | UNDER_REVIEW | RESOLVED | CLOSED | REJECTED.

Definition status_value (s : ComplaintStatus) : string :=
  match s with
  | REGISTERED => "Registered"
  | IN_PROGRESS => "In Progress"
  | UNDER_REVIEW => "Under Review"
  | RESOLVED => "Resolved"
  | CLOSED => "Closed"
  | REJECTED => "Rejected"
  end.

End Models.

(** ** core/llm_handler.py *)

Module LLMHandler.
Import PyStr Models.

Definition hardware_words : list string :=
  ["laptop"; "computer"; "hardware"; "mouse"; "keyboard"; "screen"].
Definition software_words : list string :=
  ["software"; "application"; "app"; "program"; "bug"].
Definition network_words : list string :=
  ["internet"; "network"; "wifi"; "connection"; "slow"].
Definition account_words : list string :=
  ["account"; "login"; "password"; "access"].
Definition billing_words : list string :=
  ["bill"; "payment"; "charge"; "refund"].
Definition service_words : list string :=
  ["service"; "support"; "help"; "assistance"].

Definition categorize_complaint (complaint_details : string)
    : ComplaintCategory :=
  let details_lower := lower complaint_details in
  if any_in hardware_words details_lower then HARDWARE
  else if any_in software_words details_lower then SOFTWARE
  else if any_in network_words details_lower then NETWORK
  else if any_in account_words details_lower then ACCOUNT
  else if any_in billing_words details_lower then BILLING
  else if any_in service_words details_lower then SERVICE
  else OTHER.

(** The precedence stated as a table: the keyword groups in their fixed
    order (hardware, software, network, account, billing, service), each
    with its category. *)
Definition keyword_groups : list (list string * ComplaintCategory) :=
  [ (hardware_words, HARDWARE); (software_words, SOFTWARE);
    (network_words, NETWORK); (account_words, ACCOUNT);
    (billing_words, BILLING); (service_words, SERVICE) ].

Definition group_matches (text : string)
    (g : list string * ComplaintCategory) : bool :=
  any_in (fst g) (lower text).

(** The category of the earliest group that matches, [OTHER] when none
    does. *)
Definition earliest_matching_category (text : string) : ComplaintCategory :=
  match List.find (group_matches text) keyword_groups with
  | Some g => snd g
  | None => OTHER
  end.

Definition category_set : list string :=
  ["Hardware"; "Software"; "Network"; "Account"; "Billing"; "Service";
   "Other"].

End LLMHandler.

(** ** database/database.py *)

Module Database.
Import Models.

(** A row of the table [complaints]. The column [complaint_id] is UNIQUE
    and is the key of the map below; timestamps are opaque values. *)
Record complaint_row : Type := mkComplaint {
  c_name : string;
  c_mobile : string;
  c_complaint_details : string;
  c_category : string;
  c_status : string;
  c_created_at : Z;
  c_updated_at : Z
}.

(** A row of the table [status_history]; the rows are kept in insertion
    order, which is the order of their AUTOINCREMENT ids. *)
Record history_row : Type := mkHistory {
  h_complaint_id : string;
  h_old_status : option string;
  h_new_status : string;
  h_notes : option string;
  h_changed_at : Z
}.

Record db : Type := mkDb {
  complaints : gmap string complaint_row;
  status_history : list history_row
}.

Definition with_status (row : complaint_row) (status : string) (now : Z)
    : complaint_row :=
  mkComplaint (c_name row) (c_mobile row) (c_complaint_details row)
    (c_category row) status (c_created_at row) now.

(** [update_complaint_status]; [now] is CURRENT_TIMESTAMP. The result is
    the returned flag and the database after the call. *)
Definition update_complaint_status (d : db) (complaint_id : string)
    (new_status : ComplaintStatus) (notes : option string) (now : Z)
    : bool * db :=
  (* SELECT status FROM complaints WHERE complaint_id = ? *)
  match complaints d !! complaint_id with
  | None => (false, d)
  | Some row =>
      let old_status := c_status row in
      (* UPDATE complaints SET status = ?, updated_at = CURRENT_TIMESTAMP *)
      let complaints' :=
        <[complaint_id := with_status row (status_value new_status) now]>
          (complaints d) in
      (* INSERT INTO status_history (...) VALUES (?, ?, ?, ?) *)
      let history' :=
        status_history d ++
        [mkHistory complaint_id (Some old_status)
           (status_value new_status) notes now] in
      (true, mkDb complaints' history')
  end.

(** *** The other operations of [DatabaseManager] *)

(** [ComplaintStatus(value)]; [None] is the ValueError. *)
Definition status_of_value (value : string) : option ComplaintStatus :=
  List.find (fun s => String.eqb (status_value s) value)
    [REGISTERED; IN_PROGRESS; UNDER_REVIEW; RESOLVED; CLOSED; REJECTED].

(** Modelled from the spec: the classes [ComplaintRequest] and
    [ComplaintResponse] of [models/models.py], with the fields the
    database reads and fills. *)
Record complaint_request : Type := mkComplaintRequest {
  q_name : string;
  q_mobile : string;
  q_complaint_details : string;
  q_category : option ComplaintCategory
}.

Record complaint_response : Type := mkComplaintResponse {
  p_complaint_id : string;
  p_name : string;
  p_mobile : string;
  p_complaint_details : string;
  p_category : string;
  p_status : ComplaintStatus;
  p_created_at : Z;
  p_updated_at : Z
}.

(** What a lookup gives: the complaint, [None] for no row, or the
    ValueError of a status that is no [ComplaintStatus]. *)
Inductive fetched : Type :=
| Found (complaint : complaint_response)
| NotFound
| InvalidStatus.

Definition get_complaint_by_id (d : db) (complaint_id : string) : fetched :=
  match complaints d !! complaint_id with
  | Some row =>
      match status_of_value (c_status row) with
      | Some status =>
          Found (mkComplaintResponse complaint_id (c_name row) (c_mobile row)
                   (c_complaint_details row) (c_category row) status
                   (c_created_at row) (c_updated_at row))
      | None => InvalidStatus
      end
  | None => NotFound
  end.

(** [generate_complaint_id]; [hex] is [uuid.uuid4().hex]. *)
Definition generate_complaint_id (hex : string) : string :=
  "CMP" ++ PyStr.upper (PyStr.prefix 8 hex).

(** [register_complaint] with the identifier drawn for it; [None] is an
    exception, which leaves the database as it was: no category to take
    the value of, or an identifier that is already there (the column is
    UNIQUE). *)
Definition register_complaint (d : db) (complaint : complaint_request)
    (complaint_id : string) (now : Z) : option (fetched * db) :=
  match q_category complaint with
  | None => None
  | Some category =>
      match complaints d !! complaint_id with
      | Some _ => None
      | None =>
          let row :=
            mkComplaint (q_name complaint) (q_mobile complaint)
              (q_complaint_details complaint) (category_value category)
              (status_value REGISTERED) now now in
          let d' :=
            mkDb (<[complaint_id := row]> (complaints d))
              (status_history d ++
               [mkHistory complaint_id None (status_value REGISTERED)
                  (Some "Complaint registered") now]) in
          Some (get_complaint_by_id d' complaint_id, d')
      end
  end.

(** The rows of one complaint in [status_history], oldest first. *)
Definition history_of (d : db) (complaint_id : string) : list history_row :=
  filter (fun h => h_complaint_id h = complaint_id) (status_history d).

(** [delete_complaint]: the history rows go first, then the complaint;
    the flag is the row count of the second DELETE. *)
Definition delete_complaint (d : db) (complaint_id : string) : bool * db :=
  let history' :=
    filter (fun h => h_complaint_id h <> complaint_id) (status_history d) in
  (bool_decide (is_Some (complaints d !! complaint_id)),
   mkDb (delete complaint_id (complaints d)) history').

(** *** [get_complaints_by_mobile] *)

(** [[-.\s\(\)]], the characters that the search removes *)
Definition search_separator (c : ascii) : bool :=
  existsb (Ascii.eqb c) ["-"; "."; "("; ")"]%char || PyStr.is_space c.

(** [s[-n:]] in Python and [SUBSTR(s, -n)] in SQL, for [n > 0]: the last
    [n] characters, the whole of a shorter [s]. *)
Definition last_chars (n : nat) (s : string) : string :=
  PyStr.of_chars (drop (length (PyStr.chars s) - n) (PyStr.chars s)).

(** [text LIKE pattern]: [%] stands for any characters, [_] for one, and
    the letters of ASCII match in either case. *)
Fixpoint like (pattern : list ascii) : list ascii -> bool :=
  match pattern with
  | [] => fun text => match text with [] => true | _ :: _ => false end
  | p :: pattern' =>
      if Ascii.eqb p "%" then
        fix skip (text : list ascii) : bool :=
          like pattern' text
          || match text with [] => false | _ :: text' => skip text' end
      else if Ascii.eqb p "_" then
        fun text =>
          match text with [] => false | _ :: text' => like pattern' text' end
      else
        fun text =>
          match text with
          | [] => false
          | c :: text' =>
              Ascii.eqb (PyStr.lower_char p) (PyStr.lower_char c)
              && like pattern' text'
          end
  end.

(** The longest pattern that LIKE takes (SQLITE_MAX_LIKE_PATTERN_LENGTH);
    a longer one is an error. *)
Definition max_like_pattern_length : Z := 50000.

(** The [ComplaintResponse] of a fetched row; [None] is the ValueError of
    a status that is no [ComplaintStatus]. *)
Definition response_of_row (r : string * complaint_row)
    : option complaint_response :=
  match status_of_value (c_status (snd r)) with
  | Some status =>
      Some (mkComplaintResponse (fst r) (c_name (snd r)) (c_mobile (snd r))
              (c_complaint_details (snd r)) (c_category (snd r)) status
              (c_created_at (snd r)) (c_updated_at (snd r)))
  | None => None
  end.

(** The loop over the rows of one query: the lists after it, and whether
    it came to its end ([false]: a row raised). *)
Fixpoint append_rows (rows : list (string * complaint_row))
    (complaints : list complaint_response) (found_ids : list string)
    : list complaint_response * list string * bool :=
  match rows with
  | [] => (complaints, found_ids, true)
  | r :: rows' =>
      if PyStr.mem (fst r) found_ids
      then append_rows rows' complaints found_ids
      else match response_of_row r with
           | Some complaint =>
               append_rows rows' (complaints ++ [complaint])
                 (found_ids ++ [fst r])
           | None => (complaints, found_ids, false)
           end
  end.

Section MobileSearch.
(** [ORDER BY created_at DESC], as the engine orders the selected rows:
    the newest first, rows of one timestamp in an order of its choosing. *)
Variable newest_first :
  list (string * complaint_row) -> list (string * complaint_row).

(** [SELECT * FROM complaints WHERE ... ORDER BY created_at DESC] *)
Definition select_where (d : db) (condition : complaint_row -> bool)
    : list (string * complaint_row) :=
  newest_first
    (filter (fun r => condition (snd r) = true) (map_to_list (complaints d))).

Definition get_complaints_by_mobile (d : db) (mobile : string)
    : list complaint_response :=
  let clean_mobile := Re.sub_class_empty search_separator mobile in
  let tail :=
    if (10 <=? PyStr.len clean_mobile)%nat then last_chars 10 clean_mobile
    else clean_mobile in
  let pattern := PyStr.chars ("%" ++ clean_mobile ++ "%") in
  (* exact match *)
  let '(complaints, found_ids, completed) :=
    append_rows
      (select_where d (fun row => String.eqb (c_mobile row) clean_mobile))
      [] [] in
  if completed && negb (length complaints =? 0)%nat then complaints
  else
    (* last 10 digits match *)
    let '(complaints, found_ids, _) :=
      append_rows
        (select_where d (fun row =>
           String.eqb (last_chars 10 (c_mobile row)) tail))
        complaints found_ids in
    (* contains pattern *)
    if (max_like_pattern_length <? Z.of_nat (length pattern))%Z then complaints
    else
      let '(complaints, _, _) :=
        append_rows
          (select_where d (fun row =>
             like pattern (PyStr.chars (c_mobile row))))
          complaints found_ids in
      complaints.

End MobileSearch.

(** Every stored status is the value of a [ComplaintStatus]. *)
Definition statuses_valid (d : db) : bool :=
  forallb (fun r => bool_decide (is_Some (response_of_row r)))
    (map_to_list (complaints d)).

(** The operations that write, and a database after a sequence of them,
    from the empty one. *)
Inductive operation : Type :=
| Register (complaint : complaint_request) (complaint_id : string) (now : Z)
| UpdateStatus (complaint_id : string) (new_status : ComplaintStatus)
    (notes : option string) (now : Z)
| Delete (complaint_id : string).

Definition apply_operation (d : db) (op : operation) : db :=
  match op with
  | Register complaint complaint_id now =>
      match register_complaint d complaint complaint_id now with
      | Some (_, d') => d'
      | None => d
      end
  | UpdateStatus complaint_id new_status notes now =>
      snd (update_complaint_status d complaint_id new_status notes now)
  | Delete complaint_id => snd (delete_complaint d complaint_id)
  end.

Definition empty_db : db := mkDb ∅ [].

Definition run_operations (ops : list operation) : db :=
  fold_left apply_operation ops empty_db.

(** The status a history leads to, from [start]: the [new_status] of its
    last row; and a history whose rows follow one another, each starting
    from the status the one before led to. *)
Fixpoint final_status (start : option string) (rows : list history_row)
    : option string :=
  match rows with
  | [] => start
  | h :: rows' => final_status (Some (h_new_status h)) rows'
  end.

Fixpoint chained (start : option string) (rows : list history_row) : Prop :=
  match rows with
  | [] => True
  | h :: rows' =>
      h_old_status h = start /\ chained (Some (h_new_status h)) rows'
  end.

(** The two tables agree: a complaint has a status that is a
    [ComplaintStatus], and a history that begins with its registration,
    is chained and ends at that status; an identifier without a
    complaint has no history row. *)
Definition tables_agree (d : db) : Prop :=
  forall complaint_id,
    match complaints d !! complaint_id with
    | Some row =>
        is_Some (status_of_value (c_status row))
        /\ chained None (history_of d complaint_id)
        /\ final_status None (history_of d complaint_id)
           = Some (c_status row)
    | None => history_of d complaint_id = []
    end.

End Database.

(** ** core/rag_system.py *)

Module RAGSystem.

Record kb_entry : Type := mkEntry {
  id : string;
  category : string;
  scenario : string;
  response : string;
  follow_up_questions : list string;
  typical_resolution_time : string
}.

Definition knowledge_base : list kb_entry :=
  [ mkEntry "kb_001" "Hardware"
      "laptop not working, computer issues, hardware problems"
      "I understand you're experiencing hardware issues. This is quite common and we'll help resolve it quickly."
      ["What specific hardware component is causing issues?";
       "When did the problem start?"]
      "2-3 business days";
    mkEntry "kb_002" "Software"
      "software not working, application crashes, program errors"
      "Software issues can be frustrating. Let me help you get this resolved."
      ["Which software/application is having issues?";
       "What error message do you see?"]
      "1-2 business days";
    mkEntry "kb_003" "Network"
      "internet slow, network problems, connectivity issues, wifi not working"
      "Network connectivity issues can impact your productivity. We'll prioritize getting this fixed."
      ["Is this affecting all devices or just one?";
       "When did you first notice the issue?"]
      "4-6 hours";
    mkEntry "kb_004" "Account"
      "login problems, password issues, account access, authentication"
      "Account access issues need immediate attention for security reasons."
      ["What happens when you try to login?";
       "Have you recently changed your password?"]
      "2-4 hours";
    mkEntry "kb_005" "Billing"
      "billing issues, payment problems, invoice questions, charges"
      "I'll help you resolve this billing concern. Let me look into the details."
      ["Which specific charge are you questioning?";
       "Do you have the invoice number?"]
      "3-5 business days";
    mkEntry "kb_006" "Service"
      "poor service, support issues, customer service problems"
      "I apologize for any service issues you've experienced. We take this seriously."
      ["Can you describe the specific service issue?";
       "When did this occur?"]
      "1-2 business days" ].

(** An entry of the result: a copy of the knowledge-base entry with its
    [similarity_score]. Finite floats are rationals and compare as such. *)
Record scored_entry : Type := mkScored {
  entry : kb_entry;
  similarity_score : Q
}.

(** The minimum similarity threshold, the literal 0.3 of the source. *)
Definition similarity_threshold : Q := 3 # 10.

(** [a > b] on similarities *)
Definition gtb (a b : Q) : bool := negb (Qle_bool a b).

(** The loop over [top_indices]; [None] is an IndexError. *)
Fixpoint relevant_entries (similarities : list Q) (top_indices : list nat)
    : option (list scored_entry) :=
  match top_indices with
  | [] => Some []
  | idx :: tl =>
      match similarities !! idx with
      | None => None
      | Some s =>
          if gtb s similarity_threshold
          then match knowledge_base !! idx with
               | None => None
               | Some e =>
                   match relevant_entries similarities tl with
                   | Some r => Some (mkScored e s :: r)
                   | None => None
                   end
               end
          else relevant_entries similarities tl
      end
  end.

(** What [np.argsort] may return for [similarities]: a permutation of the
    indices along which the values ascend. The order among equal values
    is the sorting routine's business. *)
Fixpoint ascending (l : list Q) : bool :=
  match l with
  | a :: (b :: _) as tl => Qle_bool a b && ascending tl
  | _ => true
  end.

Fixpoint descending (l : list Q) : bool :=
  match l with
  | a :: (b :: _) as tl => Qle_bool b a && descending tl
  | _ => true
  end.

Fixpoint nodupb (l : list nat) : bool :=
  match l with
  | [] => true
  | x :: tl => negb (existsb (Nat.eqb x) tl) && nodupb tl
  end.

Definition values_along (similarities : list Q) (order : list nat) : list Q :=
  omap (fun i => similarities !! i) order.

Definition is_argsort (similarities : list Q) (order : list nat) : bool :=
  (length order =? length similarities)%nat
  && forallb (fun i => (i <? length similarities)%nat) order
  && nodupb order
  && ascending (values_along similarities order).

(** What [get_contextual_response] returns; the default answer has no
    key [similarity_score]. *)
Record contextual_response : Type := mkContextual {
  cr_response : string;
  cr_category : string;
  cr_estimated_resolution : string;
  cr_follow_up_questions : list string;
  cr_similarity_score : option Q
}.

Definition default_response : contextual_response :=
  mkContextual
    "Thank you for your complaint. We'll review it and get back to you soon."
    "Other" "3-5 business days"
    ["Could you provide more specific details about the issue?"] None.

(** An entry of what [get_similar_complaints] returns. *)
Record similar_complaint : Type := mkSimilar {
  sc_complaint_id : string;
  sc_complaint_details : string;
  sc_status : string;
  sc_category : string;
  sc_similarity_score : Q
}.

(** The threshold of [get_similar_complaints], the literal 0.4. *)
Definition complaint_threshold : Q := 4 # 10.

(** The entry appended for the fetched row [c] and its similarity. *)
Definition similar_entry (c : string * Database.complaint_row)
    (similarity : Q) : similar_complaint :=
  mkSimilar (fst c) (Database.c_complaint_details (snd c))
    (Database.c_status (snd c)) (Database.c_category (snd c)) similarity.

(** The loop over [enumerate(similarities)], from index [i]; [None] is
    the IndexError of [complaints[i]]. *)
Fixpoint similar_above (complaints : list (string * Database.complaint_row))
    (i : nat) (similarities : list Q) : option (list similar_complaint) :=
  match similarities with
  | [] => Some []
  | similarity :: tl =>
      if gtb similarity complaint_threshold
      then match complaints !! i with
           | None => None
           | Some c =>
               match similar_above complaints (S i) tl with
               | Some r => Some (similar_entry c similarity :: r)
               | None => None
               end
           end
      else similar_above complaints (S i) tl
  end.

(** [l.sort(key=lambda x: x['similarity_score'], reverse=True)]: the
    sort is stable, so an item goes after the items that are not
    smaller. *)
Fixpoint insert_by_score (x : similar_complaint)
    (sorted : list similar_complaint) : list similar_complaint :=
  match sorted with
  | [] => [x]
  | y :: tl =>
      if Qle_bool (sc_similarity_score x) (sc_similarity_score y)
      then y :: insert_by_score x tl
      else x :: sorted
  end.

Definition sort_by_score (l : list similar_complaint)
    : list similar_complaint :=
  fold_left (fun acc x => insert_by_score x acc) l [].

Section Retriever.
(** The collaborators: [similarity query] is
    [cosine_similarity(encode([query]), self.embeddings)[0]], one value
    per knowledge-base entry, and [argsort] is [np.argsort]. *)
Variable similarity : string -> list Q.
Variable argsort : list Q -> list nat.

Definition find_relevant_context (query : string) (top_k : Z)
    : option (list scored_entry) :=
  let similarities := similarity query in
  (* np.argsort(similarities)[-top_k:][::-1] *)
  let top_indices := rev (slice_from (- top_k) (argsort similarities)) in
  relevant_entries similarities top_indices.
(** [get_contextual_response]; [None] when [find_relevant_context]
    raises. *)
Definition get_contextual_response (complaint_details : string)
    : option contextual_response :=
  match find_relevant_context complaint_details 3 with
  | None => None
  | Some [] => Some default_response
  | Some (best_match :: _) =>
      Some (mkContextual (response (entry best_match))
              (category (entry best_match))
              (typical_resolution_time (entry best_match))
              (follow_up_questions (entry best_match))
              (Some (similarity_score best_match)))
  end.

(** [complaint_similarity query texts] is
    [cosine_similarity(encode([query]), encode(texts))[0]]. *)
Variable complaint_similarity : string -> list string -> list Q.

(** [get_similar_complaints], of the rows [complaints] that the SELECT
    fetches; an exception gives the empty list. *)
Definition get_similar_complaints (complaint_details : string)
    (complaints : list (string * Database.complaint_row))
    : list similar_complaint :=
  match complaints with
  | [] => []
  | _ =>
      let complaint_texts :=
        map (fun c => Database.c_complaint_details (snd c)) complaints in
      let similarities :=
        complaint_similarity complaint_details complaint_texts in
      match similar_above complaints 0 similarities with
      | Some similar_complaints => take 5 (sort_by_score similar_complaints)
      | None => []
      end
  end.

(** The entry of the dictionary [status_messages] for [status], or the
    default of the [.get]. *)
Definition status_message (complaint_id status estimated_resolution : string)
    : string :=
  (if String.eqb status "Registered" then
    "Your complaint " ++ complaint_id
    ++ " has been registered successfully. Expected resolution time: "
    ++ estimated_resolution ++ "."
  else if String.eqb status "In Progress" then
    "Good news! Your complaint " ++ complaint_id
    ++ " is now being actively worked on by our technical team."
  else if String.eqb status "Under Review" then
    "Your complaint " ++ complaint_id
    ++ " is under review by our specialists. We're analyzing the issue thoroughly."
  else if String.eqb status "Resolved" then
    "Great news! Your complaint " ++ complaint_id
    ++ " has been resolved. Please verify if the issue is fixed."
  else if String.eqb status "Closed" then
    "Your complaint " ++ complaint_id
    ++ " has been closed. Thank you for your patience."
  else if String.eqb status "Rejected" then
    "Unfortunately, your complaint " ++ complaint_id
    ++ " could not be processed. Please contact support for more details."
  else
    "Your complaint " ++ complaint_id ++ " status has been updated to: "
    ++ status)%string.

(** [generate_status_update_message]; an exception gives the last
    message. *)
Definition generate_status_update_message (complaint_id status : string)
    (d : Database.db) : string :=
  let on_error :=
    ("Your complaint " ++ complaint_id ++ " status is: " ++ status)%string in
  match Database.get_complaint_by_id d complaint_id with
  | Database.NotFound =>
      ("Complaint " ++ complaint_id ++ " not found.")%string
  | Database.InvalidStatus => on_error
  | Database.Found complaint =>
      match get_contextual_response
              (Database.p_complaint_details complaint) with
      | Some context =>
          status_message complaint_id status (cr_estimated_resolution context)
      | None => on_error
      end
  end.

End Retriever.

(** A sorting routine to run the retriever with: insertion of each index
    after the indices whose values are not larger. *)
Definition score_at (similarities : list Q) (i : nat) : Q :=
  default 0%Q (similarities !! i).

Fixpoint insert_index (similarities : list Q) (i : nat) (sorted : list nat)
    : list nat :=
  match sorted with
  | [] => [i]
  | j :: tl =>
      if Qle_bool (score_at similarities j) (score_at similarities i)
      then j :: insert_index similarities i tl
      else i :: sorted
  end.

Definition insertion_argsort (similarities : list Q) : list nat :=
  fold_left (fun acc i => insert_index similarities i acc)
    (seq 0 (length similarities)) [].

End RAGSystem.

(** ** api/api_server.py *)

Module ApiServer.
Import Models Database.

(** What an endpoint answers: the value it returns, or the HTTPException
    it raises. The detail of a 500 is given up to the text of the
    exception that it ends with. *)
Inductive reply (A : Type) : Type :=
| Ok (body : A)
| HTTPException (status_code : nat) (detail : string).
Arguments Ok {A} body.
Arguments HTTPException {A} status_code detail.

(** An endpoint that answers with an error leaves the database [d] as it
    was. *)
Definition kept_on_error {A : Type} (d : db) (r : reply A * db) : Prop :=
  match fst r with
  | Ok _ => True
  | HTTPException _ _ => snd r = d
  end.

(** The dictionary of [simulate_status_update], with its [.get] default. *)
Definition status_progression (current_status : ComplaintStatus)
    : ComplaintStatus :=
  match current_status with
  | REGISTERED => IN_PROGRESS
  | IN_PROGRESS => UNDER_REVIEW
  | UNDER_REVIEW => RESOLVED
  | _ => current_status
  end.

(** The two answers of [simulate_status_update]. *)
Inductive simulated : Type :=
| StatusChanged (complaint_id old_status new_status message : string)
| StatusKept (complaint_id status message : string).

(** [status_data.get("status")]: no value or null, a string, or a value
    of another type, of which only the truth value matters. *)
Inductive status_field : Type :=
| Absent
| Text (value : string)
| NonText (truth : bool).

Record status_updated : Type := mkStatusUpdated {
  u_message : string;
  u_complaint_id : string;
  u_new_status : string
}.

Record complaint_deleted : Type := mkComplaintDeleted {
  e_message : string;
  e_complaint_id : string
}.

Section Endpoints.
(** The collaborators of [rag_system], as in [RAGSystem]. *)
Variable similarity : string -> list Q.
Variable argsort : list Q -> list nat.

(** POST /register-complaint; [hex] is the [uuid4().hex] that the
    database draws, and a returned [None] is the function's null. *)
Definition register_complaint (d : db) (complaint : complaint_request)
    (hex : string) (now : Z) : reply (option complaint_response) * db :=
  let failed := HTTPException 500 "Error registering complaint: " in
  match RAGSystem.get_contextual_response similarity argsort
          (q_complaint_details complaint) with
  | None => (failed, d)
  | Some context =>
      let complaint :=
        match q_category complaint with
        | None =>
            mkComplaintRequest (q_name complaint) (q_mobile complaint)
              (q_complaint_details complaint)
              (Some (LLMHandler.categorize_complaint
                       (q_complaint_details complaint)))
        | Some _ => complaint
        end in
      match Database.register_complaint d complaint
              (generate_complaint_id hex) now with
      | Some (Found complaint_response, d') =>
          (Ok (Some complaint_response), d')
      | Some (NotFound, d') => (Ok None, d')
      | Some (InvalidStatus, d') => (failed, d')
      | None => (failed, d)
      end
  end.

(** GET /complaint-status/{complaint_id} *)
Definition get_complaint_status (d : db) (complaint_id : string)
    : reply complaint_response :=
  match get_complaint_by_id d complaint_id with
  | Found complaint => Ok complaint
  | NotFound => HTTPException 404 "Complaint not found"
  | InvalidStatus => HTTPException 500 "Error fetching complaint: "
  end.

(** PUT /update-complaint-status/{complaint_id} *)
Definition update_complaint_status (d : db) (complaint_id : string)
    (status : ComplaintStatus) (notes : option string) (now : Z)
    : reply string * db :=
  let (success, d') :=
    Database.update_complaint_status d complaint_id status notes now in
  if success then (Ok "Status updated successfully", d')
  else (HTTPException 404 "Complaint not found", d').

(** POST /simulate-status-update/{complaint_id} *)
Definition simulate_status_update (d : db) (complaint_id : string) (now : Z)
    : reply simulated * db :=
  match get_complaint_by_id d complaint_id with
  | NotFound => (HTTPException 404 "Complaint not found", d)
  | InvalidStatus => (HTTPException 500 "Error simulating update: ", d)
  | Found complaint =>
      let current_status := p_status complaint in
      let new_status := status_progression current_status in
      if negb (String.eqb (status_value new_status)
                 (status_value current_status))
      then
        let d' :=
          snd (Database.update_complaint_status d complaint_id new_status
                 (Some "Status updated automatically for demo") now) in
        let message :=
          RAGSystem.generate_status_update_message similarity argsort
            complaint_id (status_value new_status) d' in
        (Ok (StatusChanged complaint_id (status_value current_status)
               (status_value new_status) message), d')
      else
        (Ok (StatusKept complaint_id (status_value current_status)
               "No status change needed"), d)
  end.

(** PUT /admin/complaint/{complaint_id}/status *)
Definition update_complaint_status_admin (d : db) (complaint_id : string)
    (new_status : status_field) (now : Z) : reply status_updated * db :=
  let required := HTTPException 400 "Status is required" in
  let invalid := HTTPException 400 "Invalid status value" in
  match new_status with
  | Absent => (required, d)
  | NonText truth => (if truth then invalid else required, d)
  | Text value =>
      if (PyStr.len value =? 0)%nat then (required, d)
      else
        match status_of_value value with
        | None => (invalid, d)
        | Some status_enum =>
            match get_complaint_by_id d complaint_id with
            | NotFound => (HTTPException 404 "Complaint not found", d)
            | InvalidStatus =>
                (HTTPException 500 "Failed to update status: ", d)
            | Found complaint =>
                let d' :=
                  snd (Database.update_complaint_status d complaint_id
                         status_enum (Some "Updated by admin") now) in
                (Ok (mkStatusUpdated "Status updated successfully"
                       complaint_id value), d')
            end
        end
  end.

(** DELETE /admin/complaint/{complaint_id} *)
Definition delete_complaint_admin (d : db) (complaint_id : string)
    : reply complaint_deleted * db :=
  match get_complaint_by_id d complaint_id with
  | NotFound => (HTTPException 404 "Complaint not found", d)
  | InvalidStatus => (HTTPException 500 "Failed to delete complaint: ", d)
  | Found complaint =>
      let (success, d') := Database.delete_complaint d complaint_id in
      if success
      then (Ok (mkComplaintDeleted "Complaint deleted successfully"
                  complaint_id), d')
      else (HTTPException 500 "Failed to delete complaint", d')
  end.

(** The database after [simulate_status_update] has been called at each
    of the times [nows]. *)
Definition simulate_repeatedly (d : db) (complaint_id : string)
    (nows : list Z) : db :=
  fold_left (fun d now => snd (simulate_status_update d complaint_id now))
    nows d.

End Endpoints.

End ApiServer.

(** ** frontend/app.py *)

Module App.
Import PyStr Re Models.

(** *** Validators *)

(** [^\+?[1-9]\d{9,14}$] *)
Definition mobile_pattern : regex :=
  cat [Bol; opt (chr "+"); Cls (between 49 57); rep digit 9 14; Eol].

Definition validate_mobile (mobile : string) : bool :=
  bool_decide (is_Some (re_match mobile_pattern (strip mobile))).

Definition validate_name (name : string) : bool :=
  let name := strip name in
  (* basic length check *)
  if (len name <? 2)%nat || (50 <? len name)%nat then false
  (* must contain at least one letter *)
  else if negb (existsb is_alpha (chars name)) then false
  (* reject only obvious non-names *)
  else if mem (lower name) ["help"; "what"; "yes"; "no"; "ok"] then false
  else true.

(** The shape [validate_mobile] asks for, read off its pattern: an
    optional [+], a digit from 1 to 9, then 9 to 14 digits. *)
Definition mobile_shape (text : list ascii) : bool :=
  let digits :=
    match text with
    | c :: rest => if Ascii.eqb c "+" then rest else text
    | [] => []
    end in
  match digits with
  | d :: ds =>
      between 49 57 d && forallb is_digit ds
      && (9 <=? length ds)%nat && (length ds <=? 14)%nat
  | [] => false
  end.

(** *** Extracted information: the dictionary the extractors fill *)

Record extracted : Type := mkExtracted {
  x_mobile : option string;
  x_complaint_id : option string;
  x_name : option string;
  x_email : option string;
  x_urgency : option string
}.

(** Character classes of the patterns *)
Definition sep_class (c : ascii) : bool := one_of "-." c || is_space c.
  (* [-.\s] *)
Definition clean_class (c : ascii) : bool := one_of "-.()" c || is_space c.
  (* [-.\s()] *)
Definition letter_space (c : ascii) : bool := is_alpha c || is_space c.
  (* [a-zA-Z\s] *)
Definition upper_digit (c : ascii) : bool := is_upper c || is_digit c.
  (* [A-Z0-9] *)
Definition lower_digit (c : ascii) : bool := is_lower c || is_digit c.
  (* [a-z0-9] *)

(** *** [extract_user_details] *)

Definition details_mobile_patterns : list regex :=
  [ (* \+\d{1,3}[-.\s]?\d{10,14} *)
    cat [chr "+"; rep digit 1 3; opt (Cls sep_class); rep digit 10 14];
    (* \b\d{10,15}\b *)
    cat [Wb; rep digit 10 15; Wb];
    (* \(\d{3}\)\s?\d{3}[-.\s]?\d{4} *)
    cat [chr "("; exactly digit 3; chr ")"; opt space; exactly digit 3;
         opt (Cls sep_class); exactly digit 4] ].

Definition details_name_patterns : list regex :=
  [ (* (?:my name is|i am|i\'m|name is|call me)\s+([a-zA-Z\s]{2,30}) *)
    cat [alt [lit "my name is"; lit "i am"; lit "i'm"; lit "name is";
              lit "call me"];
         plus space; Grp (rep (Cls letter_space) 2 30)];
    (* ^([A-Z][a-z]+(?:\s+[A-Z][a-z]+)+) *)
    cat [Bol;
         Grp (cat [Cls is_upper; plus (Cls is_lower);
                   plus (cat [plus space; Cls is_upper;
                              plus (Cls is_lower)])])] ].

(** CMP[A-Z0-9]{8} *)
Definition details_id_pattern : regex :=
  cat [lit "CMP"; exactly (Cls upper_digit) 8].

Definition extract_user_details (message : string) : extracted :=
  (* mobile number, various formats *)
  let mobile :=
    first_some (fun pattern =>
      match re_search pattern message with
      | Some m =>
          let mobile := sub_class_empty clean_class (group0 m) in
          if (10 <=? len mobile)%nat then Some mobile else None
      | None => None
      end) details_mobile_patterns in
  (* name: "my name is", "I am", ... *)
  let name :=
    first_some (fun pattern =>
      match re_search (icase pattern) message with
      | Some m =>
          let name := strip (default "" (group1 m)) in
          if (2 <=? len name)%nat && isalpha (remove_char " " name)
          then Some name else None
      | None => None
      end) details_name_patterns in
  (* complaint id *)
  let complaint_id := group0 <$> re_search details_id_pattern (upper message) in
  mkExtracted mobile complaint_id name None None.

(** *** [smart_intent_detection] *)

Record intent_result : Type := mkIntent {
  intent : string;
  extracted_info : extracted;
  confidence : Q
}.

Definition mobile_status_words : list string :=
  ["status"; "check"; "my complaints"].

Definition registration_keywords : list string :=
  ["complaint"; "complain"; "issue"; "problem"; "register"; "file"; "report";
   "submit"; "lodge"; "raise"; "create"; "new complaint"; "have a problem";
   "facing issue"; "not working"; "broken"; "error"; "bug"; "fault"].

Definition status_keywords : list string :=
  ["status"; "check"; "update"; "progress"; "what's"; "how's"; "where is";
   "track"; "follow up"; "any update"; "current status"].

Definition help_words : list string :=
  ["help"; "how"; "what"; "guide"; "instructions"].

Definition greeting_words : list string :=
  ["hello"; "hi"; "hey"; "good morning"; "good afternoon"].

Definition smart_intent_detection (message : string) (context : UserContext)
    : intent_result :=
  let message_lower := lower message in
  let extracted_details := extract_user_details message in
  (* in the middle of a registration: continue that flow *)
  if negb (Step_eqb (current_step context) initial) then
    mkIntent "continue_registration" extracted_details (9 # 10)
  (* complaint id in the message: high priority for a status check *)
  else if truthy (x_complaint_id extracted_details) then
    mkIntent "check_status_by_id" extracted_details (95 # 100)
  (* mobile number with status keywords *)
  else if truthy (x_mobile extracted_details)
          && any_in mobile_status_words message_lower then
    mkIntent "check_status_by_mobile" extracted_details (9 # 10)
  else if any_in registration_keywords message_lower then
    mkIntent "register_complaint" extracted_details (85 # 100)
  else if any_in status_keywords message_lower then
    mkIntent "check_status" extracted_details (8 # 10)
  else if any_in help_words message_lower then
    mkIntent "help" extracted_details (7 # 10)
  else if any_in greeting_words message_lower then
    mkIntent "greeting" extracted_details (7 # 10)
  else
    mkIntent "general" extracted_details (5 # 10).

(** The decision order as one ordered table of (predicate, intent,
    confidence), evaluated top to bottom; the first rule whose predicate
    holds decides. *)
Record rule : Type := mkRule {
  applies : string -> UserContext -> bool;
  rule_intent : string;
  rule_confidence : Q
}.

Definition first_match (rules : list rule) (default_intent : string)
    (default_confidence : Q) (message : string) (context : UserContext)
    : string * Q :=
  match List.find (fun r => applies r message context) rules with
  | Some r => (rule_intent r, rule_confidence r)
  | None => (default_intent, default_confidence)
  end.

Definition mid_registration (context : UserContext) : bool :=
  negb (Step_eqb (current_step context) initial).

Definition id_extracted (message : string) : bool :=
  truthy (x_complaint_id (extract_user_details message)).
Definition phone_extracted (message : string) : bool :=
  truthy (x_mobile (extract_user_details message)).

(** The table with one notion of "status keyword" for the phone rule and
    the status rule alike. *)
Definition stated_rules : list rule :=
  [ mkRule (fun _ c => mid_registration c) "continue_registration" (9 # 10);
    mkRule (fun m _ => id_extracted m) "check_status_by_id" (95 # 100);
    mkRule (fun m _ => phone_extracted m && any_in status_keywords (lower m))
      "check_status_by_mobile" (9 # 10);
    mkRule (fun m _ => any_in registration_keywords (lower m))
      "register_complaint" (85 # 100);
    mkRule (fun m _ => any_in status_keywords (lower m))
      "check_status" (8 # 10) ].

(** The table with the phone rule's own words: status, check, my
    complaints. *)
Definition decision_rules : list rule :=
  [ mkRule (fun _ c => mid_registration c) "continue_registration" (9 # 10);
    mkRule (fun m _ => id_extracted m) "check_status_by_id" (95 # 100);
    mkRule (fun m _ =>
              phone_extracted m && any_in mobile_status_words (lower m))
      "check_status_by_mobile" (9 # 10);
    mkRule (fun m _ => any_in registration_keywords (lower m))
      "register_complaint" (85 # 100);
    mkRule (fun m _ => any_in status_keywords (lower m))
      "check_status" (8 # 10);
    mkRule (fun m _ => any_in help_words (lower m)) "help" (7 # 10);
    mkRule (fun m _ => any_in greeting_words (lower m)) "greeting" (7 # 10) ].

(** The classifier follows a table at a message and context when the
    first rule that applies there, if any, gives its intent and
    confidence. *)
Definition follows (rules : list rule) (message : string)
    (context : UserContext) : Prop :=
  match List.find (fun r => applies r message context) rules with
  | Some r =>
      intent (smart_intent_detection message context) = rule_intent r
      /\ confidence (smart_intent_detection message context)
         = rule_confidence r
  | None => True
  end.

(** *** [IntentBasedResponseSystem.extract_information] *)

(** (\+\d{1,4}[-.\s]?\d{10,14})   international with country code *)
Definition international_pattern : regex :=
  Grp (cat [chr "+"; rep digit 1 4; opt (Cls sep_class); rep digit 10 14]).

(** (\+\d{1,4}\s?\d{10,14})   international compact *)
Definition international_compact_pattern : regex :=
  Grp (cat [chr "+"; rep digit 1 4; opt space; rep digit 10 14]).

(** (\d{3}[-.\s]?\d{3}[-.\s]?\d{4})   US format: 123-456-7890 *)
Definition us_format_pattern : regex :=
  Grp (cat [exactly digit 3; opt (Cls sep_class); exactly digit 3;
            opt (Cls sep_class); exactly digit 4]).

(** (\d{10,15})   simple digits, 10 to 15 characters *)
Definition simple_digits_pattern : regex := Grp (rep digit 10 15).

(** (\(\d{3}\)\s?\d{3}[-.\s]?\d{4})   (123) 456-7890 *)
Definition parenthesized_pattern : regex :=
  Grp (cat [chr "("; exactly digit 3; chr ")"; opt space; exactly digit 3;
            opt (Cls sep_class); exactly digit 4]).

Definition mobile_patterns : list regex :=
  [ international_pattern; international_compact_pattern; us_format_pattern;
    simple_digits_pattern; parenthesized_pattern ].

(** One candidate of [re.findall]: cleaned, then kept when it is 10 to 15
    characters long and all digits. *)
Definition accept_mobile (mobile_match : string) : option string :=
  let mobile := strip mobile_match in
  let mobile_clean := sub_class_empty clean_class mobile in
  if (10 <=? len mobile_clean)%nat && (len mobile_clean <=? 15)%nat
     && isdigit mobile_clean
  then Some mobile_clean else None.

Definition extract_mobile (user_message : string) : option string :=
  first_some (fun pattern =>
    first_some accept_mobile (re_findall pattern user_message))
    mobile_patterns.

Definition complaint_id_patterns : list regex :=
  [ (* \b(CMP[A-Z0-9]{8,10})\b *)
    cat [Wb; Grp (cat [lit "CMP"; rep (Cls upper_digit) 8 10]); Wb];
    (* \b(cmp[a-z0-9]{8,10})\b *)
    cat [Wb; Grp (cat [lit "cmp"; rep (Cls lower_digit) 8 10]); Wb];
    (* complaint\s+(?:id|number)?\s*:?\s*([A-Z0-9]{10,12}) *)
    cat [lit "complaint"; plus space; opt (alt [lit "id"; lit "number"]);
         star space; opt (chr ":"); star space;
         Grp (rep (Cls upper_digit) 10 12)] ].

Definition extract_complaint_id (user_message : string) : option string :=
  first_some (fun pattern =>
    match re_search (icase pattern) user_message with
    | Some m => Some (upper (default "" (group1 m)))
    | None => None
    end) complaint_id_patterns.

(** [[a-zA-Z][a-zA-Z\s]{1,40}] *)
Definition name_tail : regex :=
  cat [Cls is_alpha; rep (Cls letter_space) 1 40].

Definition intro_phrases : regex :=
  alt [lit "i'm"; lit "i am"; lit "my name is"; lit "name is"; lit "call me"].

Definition name_patterns : list regex :=
  [ (* (?:i'm|i am|my name is|name is|call me)\s+([a-zA-Z][a-zA-Z\s]{1,40}) *)
    cat [intro_phrases; plus space; Grp name_tail];
    (* ^([A-Z][a-z]+(?:\s+[A-Z][a-z]+){1,3})$ *)
    cat [Bol;
         Grp (cat [Cls is_upper; plus (Cls is_lower);
                   rep (cat [plus space; Cls is_upper; plus (Cls is_lower)])
                     1 3]);
         Eol];
    (* name:\s*([a-zA-Z][a-zA-Z\s]{1,40}) *)
    cat [lit "name:"; star space; Grp name_tail];
    (* hi,?\s+(?:i'm|i am)\s+([a-zA-Z][a-zA-Z\s]{1,40}) *)
    cat [lit "hi"; opt (chr ","); plus space; alt [lit "i'm"; lit "i am"];
         plus space; Grp name_tail] ].

Definition non_name_phrases : list string :=
  ["yes"; "no"; "ok"; "okay"; "sure"; "hello"; "hi"; "help"; "what"; "how"].

Definition non_names : list string :=
  ["help"; "what"; "how"; "when"; "where"; "why"; "yes"; "no"; "ok"; "okay"].

(** [^[a-zA-Z\s]{2,40}$] *)
Definition whole_name_pattern : regex :=
  cat [Bol; rep (Cls letter_space) 2 40; Eol].

Definition capitalize_words (words : list string) : string :=
  join " " (map capitalize words).

(** The check whether the entire message could be a name. *)
Definition whole_message_name (user_message : string) : option string :=
  let original_message := strip user_message in
  if (length (split original_message) <=? 4)%nat
     && bool_decide (is_Some (re_match whole_name_pattern original_message))
  then
    let words := split original_message in
    if forallb (fun word => (2 <=? len word)%nat) words
       && forallb isalpha words
    then
      if negb (mem (lower original_message) non_name_phrases)
      then Some (capitalize_words words)
      else None
    else None
  else None.

(** The pattern-based extraction of a name. *)
Definition pattern_name (user_message : string) : option string :=
  first_some (fun pattern =>
    match re_search (icase pattern) user_message with
    | Some m =>
        let name := strip (default "" (group1 m)) in
        let name_words := split name in
        if (1 <=? length name_words)%nat && (length name_words <=? 4)%nat
           && forallb (fun word => (2 <=? len word)%nat
                                   && (len word <=? 20)%nat && isalpha word)
                name_words
           && negb (existsb (fun word => mem (lower word) non_names)
                      name_words)
        then Some (capitalize_words name_words)
        else None
    | None => None
    end) name_patterns.

(** [[A-Za-z0-9._%+-]+@[A-Za-z0-9.-]+\.[A-Z|a-z]{2,}] *)
Definition email_core : regex :=
  cat [plus (Cls (fun c => is_alnum c || one_of "._%+-" c)); chr "@";
       plus (Cls (fun c => is_alnum c || one_of ".-" c)); chr ".";
       at_least (Cls (fun c => is_alpha c || one_of "|" c)) 2].

Definition email_patterns : list regex :=
  [ cat [Wb; Grp email_core; Wb];
    cat [lit "email:"; star space; Grp email_core] ].

Definition extract_email (user_message : string) : option string :=
  first_some (fun pattern =>
    match re_search pattern user_message with
    | Some m => Some (lower (default "" (group1 m)))
    | None => None
    end) email_patterns.

Definition extract_urgency (message_lower : string) : option string :=
  if contains "urgent" message_lower || contains "emergency" message_lower
  then Some "high"
  else if contains "asap" message_lower
          || contains "immediately" message_lower
  then Some "high"
  else None.

Definition extract_information (user_message : string) : extracted :=
  let message_lower := lower user_message in
  let mobile := extract_mobile user_message in
  let complaint_id := extract_complaint_id user_message in
  (* the whole message as a name, then the patterns, which overwrite it *)
  let name :=
    match pattern_name user_message with
    | Some n => Some n
    | None => whole_message_name user_message
    end in
  mkExtracted mobile complaint_id name (extract_email user_message)
    (extract_urgency message_lower).

(** *** [extract_basic_info], the simpler extractor beside it *)

Definition basic_mobile_patterns : list regex :=
  [ (* (\+?\d{10,15}) *)
    Grp (cat [opt (chr "+"); rep digit 10 15]);
    (* (\d{3}[-.\s]?\d{3}[-.\s]?\d{4}) *)
    Grp (cat [exactly digit 3; opt (Cls sep_class); exactly digit 3;
              opt (Cls sep_class); exactly digit 4]) ].

Definition basic_accept_mobile (mobile_match : string) : option string :=
  let mobile := sub_class_empty sep_class mobile_match in
  if (10 <=? len mobile)%nat && (len mobile <=? 15)%nat && isdigit mobile
  then Some mobile else None.

Definition basic_name (user_message : string) : option string :=
  if (length (split user_message) <=? 3)%nat
     && bool_decide
          (is_Some (re_match whole_name_pattern (strip user_message)))
  then
    let words := split (strip user_message) in
    if forallb (fun word => (2 <=? len word)%nat && isalpha word) words
    then
      if negb (mem (strip (lower user_message))
                 ["yes"; "no"; "ok"; "okay"; "help"; "hi"; "hello"; "what";
                  "how"])
      then Some (capitalize_words words)
      else None
    else None
  else None.

Definition extract_basic_info (user_message : string) : extracted :=
  let mobile :=
    first_some (fun pattern =>
      first_some basic_accept_mobile (re_findall pattern user_message))
      basic_mobile_patterns in
  let complaint_id :=
    match re_search
            (icase (cat [Wb; Grp (cat [lit "CMP"; rep (Cls upper_digit) 8 10]);
                         Wb])) user_message with
    | Some m => Some (upper (default "" (group1 m)))
    | None => None
    end in
  mkExtracted mobile complaint_id (basic_name user_message) None None.

(** *** The session and its objects

    [st.session_state.user_context] holds a reference to a [UserContext]
    object, and the handlers receive that object as [context] and mutate
    it in place. Objects live in a heap; [UserContext()] allocates. *)

Record complaint_request : Type := mkRequest {
  r_name : option string;
  r_mobile : option string;
  r_complaint_details : option string;
  r_category : string
}.

(** What the API answers with status 200. *)
Record complaint_data : Type := mkData {
  d_complaint_id : string;
  d_status : string;
  d_category : string;
  d_created_at : string
}.

(** The dictionary [register_complaint_api] returns: success with the
    data, or failure with an error text (a status other than 200, or an
    exception of the connection). *)
Inductive api_result : Type :=
| ApiSuccess (data : complaint_data)
| ApiFailure (error : string).

Record session : Type := mkSession {
  heap : gmap nat UserContext;          (* the UserContext objects *)
  user_context : nat;                   (* st.session_state.user_context *)
  llm_handler : bool;                   (* is there an LLM handler? *)
  api_calls : list complaint_request    (* requests sent so far *)
}.

(** State passing with failure; [None] is a reference to no object, which
    a Python program cannot hold. *)
Definition M (A : Type) : Type := session -> option (A * session).

#[export] Instance M_ret : MRet M := fun A x s => Some (x, s).
#[export] Instance M_bind : MBind M := fun A B f m s =>
  match m s with
  | Some (x, s') => f x s'
  | None => None
  end.

Definition load (r : nat) : M UserContext :=
  fun s => match heap s !! r with Some c => Some (c, s) | None => None end.

Definition store (r : nat) (c : UserContext) : M unit :=
  fun s => Some (tt, mkSession (<[r := c]> (heap s)) (user_context s)
                       (llm_handler s) (api_calls s)).

(** [st.session_state.user_context = UserContext()] *)
Definition reset_user_context : M unit :=
  fun s =>
    let r := fresh (dom (heap s)) in
    Some (tt, mkSession (<[r := UserContext_new]> (heap s)) r
                (llm_handler s) (api_calls s)).

Definition get_llm_handler : M bool := fun s => Some (llm_handler s, s).

(** The replies, by their template and the values it interpolates. *)
Inductive response : Type :=
| SmartRegistration (detected_info : list (string * string))
    (missing_info : list string)
| ThankYouAskMobile (name : string)
| ThankYouAskDetails (name : string)
| InvalidNameFormat
| MobileRecorded (mobile : string)
| InvalidMobileFormat
| InsufficientDetails
| ProvideRequestedInformation
| ComplaintRegistered (complaint_id : string) (name mobile : option string)
    (status category registered : string) (details : option string)
| RegistrationFailed (error : string).

Definition complaint_indicators : list string :=
  ["issue with"; "problem with"; "not working"; "broken"; "error"; "bug";
   "complaint about"; "issue is"; "problem is"; "facing"; "having trouble"].

Definition complaint_words : list string :=
  ["laptop"; "computer"; "screen"; "keyboard"; "mouse"; "software";
   "application"; "internet"; "network"; "wifi"; "slow"; "crash"; "freeze";
   "hang"; "login"; "password"; "account"; "access"; "bill"; "charge";
   "payment"].

(** The loop over the indicators: some indicator occurs in the message
    and more than 10 characters follow its first occurrence. *)
Definition indicator_found (message_lower : string) : bool :=
  existsb (fun indicator =>
    match split_once_tail indicator message_lower with
    | Some tail => (10 <? len (strip tail))%nat
    | None => false
    end) complaint_indicators.

(** The two ways [handle_smart_registration] finds complaint details in
    a message: an indicator followed by more than 10 characters, or a
    message of more than 20 characters with a complaint word. *)
Definition details_detected (user_message : string) : bool :=
  indicator_found (lower user_message)
  || ((20 <? len (strip user_message))%nat
      && any_in complaint_words (lower user_message)).

Section Registration.
(** The registration endpoint: its answer to a request, given the
    requests it has served before. *)
Variable register_complaint_api :
  list complaint_request -> complaint_request -> api_result.

Definition call_api (req : complaint_request) : M api_result :=
  fun s =>
    Some (register_complaint_api (api_calls s) req,
          mkSession (heap s) (user_context s) (llm_handler s)
            (api_calls s ++ [req])).

Definition process_complaint_registration (context : nat) : M response :=
  c ← load context;
  let c := set_current_step c processing in
  store context c;;
  (* the default category when no LLM handler is available, or when
     categorizing raises (the details are None) *)
  handler ← get_llm_handler;
  let category_value :=
    if (handler : bool) then
      match complaint_details c with
      | Some details => category_value (LLMHandler.categorize_complaint details)
      | None => "Other"
      end
    else "Other" in
  result ← call_api (mkRequest (name c) (mobile c) (complaint_details c)
                        category_value);
  match result with
  | ApiSuccess data =>
      (* reset context for next interaction *)
      reset_user_context;;
      mret (ComplaintRegistered (d_complaint_id data) (name c) (mobile c)
              (d_status data) (d_category data)
              (prefix 10 (d_created_at data)) (complaint_details c))
  | ApiFailure error =>
      (* reset context on error too *)
      reset_user_context;;
      mret (RegistrationFailed error)
  end.

Definition handle_step_by_step_collection (user_message : string)
    (context : nat) (extracted_info : extracted) : M response :=
  c ← load context;
  match current_step c with
  | collecting_name =>
      let name := get_or (x_name extracted_info) (strip user_message) in
      if validate_name name then
        let c := set_name c (Some name) in
        (* check what is still missing *)
        if negb (truthy (mobile c)) then
          store context (set_current_step c collecting_mobile);;
          mret (ThankYouAskMobile name)
        else if negb (truthy (complaint_details c)) then
          store context (set_current_step c collecting_details);;
          mret (ThankYouAskDetails name)
        else
          store context c;;
          process_complaint_registration context
      else mret InvalidNameFormat
  | collecting_mobile =>
      let mobile := get_or (x_mobile extracted_info) (strip user_message) in
      if validate_mobile mobile then
        let c := set_mobile c (Some mobile) in
        if negb (truthy (complaint_details c)) then
          store context (set_current_step c collecting_details);;
          mret (MobileRecorded mobile)
        else
          store context c;;
          process_complaint_registration context
      else mret InvalidMobileFormat
  | collecting_details =>
      if (len (strip user_message) <? 10)%nat then mret InsufficientDetails
      else
        store context (set_complaint_details c (Some (strip user_message)));;
        process_complaint_registration context
  | _ => mret ProvideRequestedInformation
  end.

(** The first part of [handle_smart_registration]: the context after
    the extracted fields are merged in and the message is searched for
    complaint details. *)
Definition merge_extracted (user_message : string) (c : UserContext)
    (extracted_info : extracted) : UserContext :=
  let c :=
    if truthy (x_name extracted_info) && negb (truthy (name c))
    then set_name c (x_name extracted_info) else c in
  let c :=
    if truthy (x_mobile extracted_info) && negb (truthy (mobile c))
    then set_mobile c (x_mobile extracted_info) else c in
  if negb (truthy (complaint_details c))
     && (Step_eqb (current_step c) initial
         || Step_eqb (current_step c) collecting_details)
  then
    let message_lower := lower user_message in
    let c :=
      if indicator_found message_lower
      then set_complaint_details c (Some (strip user_message)) else c in
    (* long enough and with technical terms or complaint-like content *)
    if negb (truthy (complaint_details c))
       && (20 <? len (strip user_message))%nat
       && any_in complaint_words message_lower
    then set_complaint_details c (Some (strip user_message)) else c
  else c.

Definition missing_info_of (c : UserContext) : list string :=
  (if negb (truthy (name c)) then ["name"] else [])
  ++ (if negb (truthy (mobile c)) then ["mobile number"] else [])
  ++ (if negb (truthy (complaint_details c))
      then ["complaint details"] else []).

Definition detected_info_of (c : UserContext) : list (string * string) :=
  (if truthy (name c) then [("Name", default "" (name c))] else [])
  ++ (if truthy (mobile c) then [("Mobile", default "" (mobile c))] else [])
  ++ (if truthy (complaint_details c)
      then [("Issue", prefix 100 (default "" (complaint_details c)))]
      else []).

Definition handle_smart_registration (user_message : string)
    (context : nat) (extracted_info : extracted) : M response :=
  c ← load context;
  let c := merge_extracted user_message c extracted_info in
  store context c;;
  (* smart flow based on what information we have *)
  let missing_info := missing_info_of c in
  match missing_info with
  | [] => process_complaint_registration context
  | first_missing :: _ =>
      if Step_eqb (current_step c) initial then
        (* show what was detected and ask for the first missing item *)
        let c := set_current_step c collecting_info in
        let detected_info := detected_info_of c in
        (* the current step is the first missing item *)
        let step :=
          if mem "name" missing_info then collecting_name
          else if mem "mobile number" missing_info then collecting_mobile
          else collecting_details in
        store context (set_current_step c step);;
        mret (SmartRegistration detected_info missing_info)
      else handle_step_by_step_collection user_message context
             extracted_info
  end.
End Registration.

(** What a submission from the context object [context], holding [c],
    amounts to: the category and the request sent, the reply to the
    endpoint's answer, and the session afterwards. *)
Definition category_for (s : session) (c : UserContext) : string :=
  if llm_handler s then
    match complaint_details c with
    | Some details => category_value (LLMHandler.categorize_complaint details)
    | None => "Other"
    end
  else "Other".

Definition request_for (s : session) (c : UserContext) : complaint_request :=
  mkRequest (name c) (mobile c) (complaint_details c) (category_for s c).

Definition reply_for (c : UserContext) (result : api_result) : response :=
  match result with
  | ApiSuccess data =>
      ComplaintRegistered (d_complaint_id data) (name c) (mobile c)
        (d_status data) (d_category data) (prefix 10 (d_created_at data))
        (complaint_details c)
  | ApiFailure error => RegistrationFailed error
  end.

Definition session_after (s : session) (context : nat) (c : UserContext)
    : session :=
  let heap1 := <[context := set_current_step c processing]> (heap s) in
  let r := fresh (dom heap1) in
  mkSession (<[r := UserContext_new]> heap1) r (llm_handler s)
    (api_calls s ++ [request_for s c]).

(** The replies to a submission, as opposed to the prompts. *)
Definition submission_reply (resp : response) : bool :=
  match resp with
  | ComplaintRegistered _ _ _ _ _ _ _ | RegistrationFailed _ => true
  | _ => false
  end.

(** An endpoint to run the state machine with: it registers every
    request. *)
Definition accepting_api (served : list complaint_request)
    (req : complaint_request) : api_result :=
  ApiSuccess (mkData "CMP00000001" "Registered" (r_category req)
                "2025-01-01T10:00:00").

(** A session that has just begun: one new context, no request sent. *)
Definition new_session : session :=
  mkSession {[ 0%nat := UserContext_new ]} 0 true [].

(** *** Conversations through the state machine *)

(** The position of a step in the order initial, collecting_name,
    collecting_mobile, collecting_details, collecting_info, processing. *)
Definition step_rank (step : Step) : nat :=
  match step with
  | initial => 0
  | collecting_name => 1
  | collecting_mobile => 2
  | collecting_details => 3
  | collecting_info => 4
  | processing => 5
  end.

(** A request with a name, a mobile and details, none of them empty. *)
Definition complete_request (req : complaint_request) : bool :=
  truthy (r_name req) && truthy (r_mobile req)
  && truthy (r_complaint_details req).

(** The slots the current step counts on: a name when the mobile is
    asked for, a name and a mobile when the details are. *)
Definition slots_ready (c : UserContext) : bool :=
  match current_step c with
  | collecting_mobile => truthy (name c)
  | collecting_details => truthy (name c) && truthy (mobile c)
  | _ => true
  end.

Section Conversation.
Variable register_complaint_api :
  list complaint_request -> complaint_request -> api_result.

(** A conversation: each message, with what was extracted from it, is
    handled on the context the session holds at that moment. *)
Fixpoint run_conversation (turns : list (string * extracted)) (s : session)
    : option (list response * session) :=
  match turns with
  | [] => Some ([], s)
  | (user_message, extracted_info) :: turns' =>
      match handle_smart_registration register_complaint_api user_message
              (user_context s) extracted_info s with
      | Some (resp, s') =>
          match run_conversation turns' s' with
          | Some (resps, s'') => Some (resp :: resps, s'')
          | None => None
          end
      | None => None
      end
  end.
End Conversation.

(** *** [ConversationMemory]

    The part of [st.session_state.conversation_memory] that
    [get_contextual_insights] reads. *)

Record turn : Type := mkTurn {
  t_user_message : string;
  t_bot_response : string;
  t_timestamp : string;
  t_intent : string;
  t_extracted_info : extracted
}.

Record memory : Type := mkMemory {
  profile_name : option string;            (* user_profile.name *)
  profile_mobile : option string;          (* user_profile.mobile *)
  current_intent : option string;          (* conversation_flow *)
  previous_intents : list string;
  context_stack : list turn;
  follow_up_needed : bool;
  sentiment_history : list string;         (* session_data *)
  complaint_categories : list string       (* smart_context *)
}.

Record insights : Type := mkInsights {
  i_user_profile : option string * option string;
  i_current_intent : option string;
  i_recent_intents : list string;
  i_conversation_length : nat;
  dominant_sentiment : string;
  i_technical_focus : list string;
  i_needs_follow_up : bool
}.

(** [l.count(x)] *)
Definition count (x : string) (l : list string) : nat :=
  length (filter (fun y => String.eqb y x = true) l).

(** The scan of [max]: [best] is replaced only by an item with a strictly
    larger key, so the first item with the largest key is returned. *)
Fixpoint max_by (key : string -> nat) (best : string) (l : list string)
    : string :=
  match l with
  | [] => best
  | x :: tl =>
      if (key best <? key x)%nat then max_by key x tl else max_by key best tl
  end.

(** [max(l, key=key)]; [None] is the ValueError for an empty [l]. *)
Definition py_max (key : string -> nat) (l : list string) : option string :=
  match l with
  | [] => None
  | x :: tl => Some (max_by key x tl)
  end.

(** [order] lists the members of [set(l)]: each once, and no others. *)
Fixpoint distinct (l : list string) : bool :=
  match l with
  | [] => true
  | x :: tl => negb (mem x tl) && distinct tl
  end.

Definition is_set_of (l order : list string) : bool :=
  distinct order
  && forallb (fun x => mem x l) order
  && forallb (fun x => mem x order) l.

Section Memory.
(** The order in which the interpreter iterates [set(l)]; it is fixed by
    the contents of [l] and the string hashes of the running process. *)
Variable set_iteration : list string -> list string.

(** [max(set(history), key=history.count) if history else "neutral"] *)
Definition dominant_of (history : list string) : option string :=
  match history with
  | [] => Some "neutral"
  | _ => py_max (fun y => count y history) (set_iteration history)
  end.

(** [get_contextual_insights]: the insights and the memory after the
    call; [None] when an exception is raised. *)
Definition get_contextual_insights (m : memory)
    : option (insights * memory) :=
  match dominant_of (sentiment_history m) with
  | Some dominant =>
      Some (mkInsights (profile_name m, profile_mobile m)
              (current_intent m)
              (slice_from (-3) (previous_intents m))
              (length (context_stack m))
              dominant
              (complaint_categories m)
              (follow_up_needed m),
            m)
  | None => None
  end.
End Memory.

(** An iteration order to run the memory with: first occurrences. *)
Fixpoint first_occurrences (l : list string) : list string :=
  match l with
  | [] => []
  | x :: tl => x :: filter (fun y => String.eqb y x = false) (first_occurrences tl)
  end.

(** *** [update_memory] and its analysers

    The dictionaries are scanned in the order they are written. *)

Definition intent_patterns : list (string * list string) :=
  [ ("register_complaint",
     ["register"; "complaint"; "file"; "submit"; "issue"; "problem";
      "broken"]);
    ("check_status",
     ["status"; "check"; "update"; "progress"; "what happened"; "any news"]);
    ("modify_complaint", ["change"; "update"; "modify"; "edit"; "correct"]);
    ("cancel_complaint", ["cancel"; "withdraw"; "remove"; "delete"]);
    ("get_help", ["help"; "how"; "what"; "guide"; "explain"; "instructions"]);
    ("express_frustration",
     ["angry"; "frustrated"; "terrible"; "awful"; "disappointed"]);
    ("express_satisfaction",
     ["thank"; "good"; "great"; "excellent"; "satisfied"]);
    ("request_escalation",
     ["manager"; "supervisor"; "escalate"; "higher"; "urgent"]);
    ("ask_timeline", ["when"; "how long"; "timeline"; "eta"; "expected"]);
    ("provide_feedback", ["feedback"; "suggestion"; "improve"; "better"]) ].

Definition analyze_intent (message : string) : string :=
  let message_lower := lower message in
  match List.find (fun p => any_in (snd p) message_lower) intent_patterns with
  | Some (intent, _) => intent
  | None => "general_inquiry"
  end.

Definition positive_words : list string :=
  ["thank"; "good"; "great"; "excellent"; "satisfied"; "happy"; "pleased"].
Definition negative_words : list string :=
  ["angry"; "frustrated"; "terrible"; "awful"; "disappointed"; "upset";
   "bad"].
Definition urgent_words : list string :=
  ["urgent"; "emergency"; "asap"; "immediately"; "critical"; "serious"].

Definition analyze_sentiment (message : string) : string :=
  let message_lower := lower message in
  if any_in urgent_words message_lower then "urgent"
  else if any_in negative_words message_lower then "negative"
  else if any_in positive_words message_lower then "positive"
  else "neutral".

Definition tech_categories : list (string * list string) :=
  [ ("hardware",
     ["laptop"; "computer"; "screen"; "keyboard"; "mouse"; "printer";
      "monitor"]);
    ("software",
     ["application"; "program"; "software"; "app"; "system"; "windows";
      "browser"]);
    ("network",
     ["internet"; "wifi"; "connection"; "network"; "email"; "website";
      "server"]);
    ("billing",
     ["bill"; "charge"; "payment"; "invoice"; "account"; "subscription";
      "refund"]);
    ("service",
     ["support"; "service"; "help"; "assistance"; "response"; "agent"]) ].

(** [update_smart_context], on [complaint_categories]. *)
Definition update_smart_context (message : string)
    (complaint_categories : list string) : list string :=
  let message_lower := lower message in
  fold_left (fun categories p =>
    if any_in (snd p) message_lower
    then if mem (fst p) categories then categories
         else categories ++ [fst p]
    else categories) tech_categories complaint_categories.

(** The memory that [__init__] stores. *)
Definition initial_memory : memory :=
  mkMemory None None None [] [] false [] [].

(** [update_memory], on the part of the memory modelled here; [now] is
    [datetime.now().isoformat()]. *)
Definition update_memory (m : memory) (user_message bot_response : string)
    (extracted_info : extracted) (now : string) : memory :=
  let name :=
    if truthy (x_name extracted_info) && negb (truthy (profile_name m))
    then x_name extracted_info else profile_name m in
  let mobile :=
    if truthy (x_mobile extracted_info) && negb (truthy (profile_mobile m))
    then x_mobile extracted_info else profile_mobile m in
  let intent := analyze_intent user_message in
  let stack :=
    context_stack m
    ++ [mkTurn user_message bot_response now intent extracted_info] in
  (* if len(context_stack) > 5: context_stack.pop(0) *)
  let stack := if (5 <? length stack)%nat then drop 1 stack else stack in
  let sentiment := analyze_sentiment user_message in
  mkMemory name mobile (Some intent) (previous_intents m ++ [intent]) stack
    (follow_up_needed m) (sentiment_history m ++ [sentiment])
    (update_smart_context user_message (complaint_categories m)).

(** One interaction, as [update_memory] receives it, and the memory
    after a sequence of them. *)
Record interaction : Type := mkInteraction {
  a_user_message : string;
  a_bot_response : string;
  a_extracted_info : extracted;
  a_now : string
}.

Definition remember (m : memory) (a : interaction) : memory :=
  update_memory m (a_user_message a) (a_bot_response a) (a_extracted_info a)
    (a_now a).

Definition memory_after (interactions : list interaction) : memory :=
  fold_left remember interactions initial_memory.

Definition turn_of (a : interaction) : turn :=
  mkTurn (a_user_message a) (a_bot_response a) (a_now a)
    (analyze_intent (a_user_message a)) (a_extracted_info a).

(** The first of [complaint_id_patterns], which is also the pattern of
    [extract_basic_info]: [\b(CMP[A-Z0-9]{8,10})\b]. *)
Definition standard_id_pattern : regex :=
  cat [Wb; Grp (cat [lit "CMP"; rep (Cls upper_digit) 8 10]); Wb].

End App.

(** * Properties *)

Import PyStr Re Models.

(** ** Categorization *)

Section Categorization.
Import LLMHandler.

Lemma category_value_in_set (c : ComplaintCategory) :
  In (category_value c) category_set.
Proof. destruct c; simpl; tauto. Qed.

(** C10. [categorize_complaint] is total over strings, its result is one
    of the seven categories, and it is the category of the earliest
    keyword group (hardware, software, network, account, billing,
    service) that matches the text, [OTHER] when no group matches. *)
Theorem categorize_complaint_total_and_ordered (complaint_details : string) :
  In (category_value (categorize_complaint complaint_details)) category_set
  /\ categorize_complaint complaint_details
     = earliest_matching_category complaint_details.
Proof.
  split; [apply category_value_in_set|].
  unfold categorize_complaint, earliest_matching_category, keyword_groups.
  unfold group_matches. cbn [List.find fst snd].
  repeat match goal with
         | |- context [any_in ?w ?t] => destruct (any_in w t); try reflexivity
         end.
Qed.

(** Text that matches several groups gets the earliest one: a laptop
    with a billing problem is hardware. *)
Example categorize_earliest_group :
  categorize_complaint "My LAPTOP bill shows a wrong charge" = HARDWARE
  /\ categorize_complaint "wrong charge on my bill" = BILLING
  /\ categorize_complaint "the printer jams often" = OTHER.
Proof. vm_compute. auto. Qed.

End Categorization.

(** ** Status updates *)

Section StatusUpdate.
Import Database.

(** C9. [update_complaint_status] returns False and leaves the complaints
    and the status history as they are when no complaint has the id; when
    one has, it returns True, that complaint gets the new status (and no
    other complaint changes), and exactly one record is appended to the
    history, from the prior status to the new one. *)
Theorem update_complaint_status_atomic (d : db) (complaint_id : string)
    (new_status : ComplaintStatus) (notes : option string) (now : Z) :
  match complaints d !! complaint_id with
  | None =>
      update_complaint_status d complaint_id new_status notes now = (false, d)
  | Some row =>
      exists d',
        update_complaint_status d complaint_id new_status notes now
        = (true, d')
        /\ c_status <$> (complaints d' !! complaint_id)
           = Some (status_value new_status)
        /\ delete complaint_id (complaints d')
           = delete complaint_id (complaints d)
        /\ status_history d'
           = status_history d
             ++ [mkHistory complaint_id (Some (c_status row))
                   (status_value new_status) notes now]
  end.
Proof.
  unfold update_complaint_status.
  destruct (complaints d !! complaint_id) as [row|] eqn:Hrow; [|reflexivity].
  eexists; split; [reflexivity|]. cbn [complaints status_history].
  split; [by rewrite lookup_insert_eq|].
  split; [by rewrite delete_insert_eq|reflexivity].
Qed.

End StatusUpdate.

(** ** Intent classification *)

Section IntentClassifier.
Import App.

(** The classifier decides by the ordered table [decision_rules], with
    [general] at confidence 0.5 when no rule applies. *)
Lemma smart_intent_detection_first_match (message : string)
    (context : UserContext) :
  (intent (smart_intent_detection message context),
   confidence (smart_intent_detection message context))
  = first_match decision_rules "general" (5 # 10) message context.
Proof.
  unfold smart_intent_detection, first_match, decision_rules.
  cbn [List.find applies].
  unfold mid_registration, id_extracted, phone_extracted.
  repeat match goal with
         | |- context [if ?b then mkIntent _ _ _ else _] =>
             destruct b; [reflexivity|]
         end.
  reflexivity.
Qed.

(** C4, as stated: with one notion of status keyword, a message with a
    phone number and the status keyword "track" should be classified
    [check_status_by_mobile] at 0.9; the classifier answers
    [check_status] at 0.8, because its phone rule looks for "status",
    "check" or "my complaints" only. *)
Lemma status_keyword_with_phone_not_by_mobile :
  phone_extracted "track 9876543210" = true
  /\ any_in status_keywords (lower "track 9876543210") = true
  /\ intent (smart_intent_detection "track 9876543210" UserContext_new)
     = "check_status"
  /\ ~ follows stated_rules "track 9876543210" UserContext_new.
Proof.
  split; [vm_compute; reflexivity|].
  split; [vm_compute; reflexivity|].
  split; [vm_compute; reflexivity|].
  intros [H _]. vm_compute in H. discriminate H.
Qed.

(** C4, amended. Classification is first-match-wins over the rules in
    this order: a current step other than [initial] gives
    [continue_registration] at 0.9; otherwise an extracted complaint
    identifier gives [check_status_by_id] at 0.95; otherwise an extracted
    phone number together with one of "status", "check", "my complaints"
    gives [check_status_by_mobile] at 0.9; otherwise a registration
    keyword gives [register_complaint] at 0.85; otherwise a status
    keyword gives [check_status] at 0.8. *)
Theorem smart_intent_detection_decision_order (message : string)
    (context : UserContext) :
  let r := smart_intent_detection message context in
  let m := lower message in
  (intent r, confidence r)
  = if mid_registration context then ("continue_registration", 9 # 10)
    else if id_extracted message then ("check_status_by_id", 95 # 100)
    else if phone_extracted message && any_in mobile_status_words m
         then ("check_status_by_mobile", 9 # 10)
    else if any_in registration_keywords m then ("register_complaint", 85 # 100)
    else if any_in status_keywords m then ("check_status", 8 # 10)
    else first_match (drop 5 decision_rules) "general" (5 # 10)
           message context.
Proof.
  cbv zeta. rewrite smart_intent_detection_first_match.
  unfold first_match, decision_rules. cbn [List.find applies drop].
  repeat match goal with
         | |- context [if ?b then Some _ else _] => destruct b; [reflexivity|]
         end.
  reflexivity.
Qed.

End IntentClassifier.

(** ** Name extraction *)

Section NameExtraction.
Import App.

(** C7. When the trimmed, lower-cased message is a member of the name
    denylist (yes, no, ok, okay, sure, hello, hi, help, what, how), the
    whole-message check of [extract_information] yields no name. *)
Theorem denylisted_message_is_no_name (user_message : string) :
  mem (lower (strip user_message)) non_name_phrases = true ->
  whole_message_name user_message = None.
Proof.
  intros Hdeny. unfold whole_message_name.
  rewrite Hdeny. cbn [negb].
  repeat match goal with
         | |- context [if ?b then _ else _] => destruct b; try reflexivity
         end.
Qed.

Lemma denylisted_message_is_no_name_witness :
  mem (lower (strip "  Help ")) non_name_phrases = true
  /\ whole_message_name "  Help " = None.
Proof.
  split; [vm_compute; reflexivity|].
  apply (denylisted_message_is_no_name "  Help "). vm_compute. reflexivity.
Defined.

(** The ten denylisted words get no name from either tier. *)
Example denylist_words_extract_no_name :
  forallb (fun w => bool_decide (x_name (extract_information w) = None))
    non_name_phrases = true.
Proof. vm_compute. reflexivity. Qed.

End NameExtraction.


(** ** Facts about strings *)

Section StringFacts.

Lemma len_of_chars (l : list ascii) : len (of_chars l) = length l.
Proof.
  unfold len, of_chars. induction l as [|c l IH]; simpl; congruence.
Qed.

Lemma chars_of_chars (l : list ascii) : chars (of_chars l) = l.
Proof. apply list_ascii_of_string_of_list_ascii. Qed.

Lemma lstrip_chars_text (l : list ascii) :
  has_text l = true ->
  lstrip_chars l <> [] /\ has_text (lstrip_chars l) = true.
Proof.
  induction l as [|c l IH]; simpl; [discriminate|].
  destruct (is_space c) eqn:Hc; simpl.
  - exact IH.
  - intros _. split; [discriminate|]. simpl. by rewrite Hc.
Qed.

Lemma lstrip_chars_no_text (l : list ascii) :
  has_text l = false -> lstrip_chars l = [].
Proof.
  induction l as [|c l IH]; simpl; [reflexivity|].
  destruct (is_space c); simpl; [exact IH|discriminate].
Qed.

Lemma has_text_rev (l : list ascii) : has_text (rev l) = has_text l.
Proof.
  unfold has_text. induction l as [|c l IH]; simpl; [reflexivity|].
  rewrite existsb_app, IH. simpl. rewrite orb_false_r. apply orb_comm.
Qed.

Lemma strip_chars_text (l : list ascii) :
  has_text l = true -> strip_chars l <> [].
Proof.
  intros H. unfold strip_chars.
  destruct (lstrip_chars_text l H) as [_ H1].
  rewrite <- has_text_rev in H1.
  destruct (lstrip_chars_text _ H1) as [H2 _].
  intros E. apply H2. apply (f_equal (@rev ascii)) in E.
  rewrite rev_involutive in E. exact E.
Qed.

Lemma strip_chars_has_text (l : list ascii) :
  strip_chars l <> [] -> has_text l = true.
Proof.
  intros H. destruct (has_text l) eqn:E; [reflexivity|].
  exfalso. apply H. unfold strip_chars.
  by rewrite (lstrip_chars_no_text l E).
Qed.

Lemma has_text_drop (n : nat) (l : list ascii) :
  has_text (drop n l) = true -> has_text l = true.
Proof.
  revert l. induction n as [|n IH]; intros [|c l]; simpl; try done.
  intros H. rewrite (IH l H). apply orb_true_r.
Qed.

Lemma after_first_text (p l t : list ascii) :
  after_first p l = Some t -> has_text t = true -> has_text l = true.
Proof.
  induction l as [|c l IH]; simpl.
  - destruct (starts_with p []); [|discriminate].
    intros [= <-]. apply has_text_drop.
  - destruct (starts_with p (c :: l)).
    + intros [= <-]. apply has_text_drop.
    + intros H Ht. simpl. rewrite (IH H Ht). apply orb_true_r.
Qed.

Lemma is_space_lower_char (c : ascii) : is_space (lower_char c) = is_space c.
Proof. destruct c as [[] [] [] [] [] [] [] []]; reflexivity. Qed.

Lemma has_text_lower (l : list ascii) :
  has_text (map lower_char l) = has_text l.
Proof.
  unfold has_text. induction l as [|c l IH]; simpl; [reflexivity|].
  by rewrite is_space_lower_char, IH.
Qed.

End StringFacts.

(** ** The registration state machine *)

Section StateMachine.
Import App.

Variable api : list complaint_request -> complaint_request -> api_result.

(** Running the monad *)
Lemma run_bind {A B : Type} (m : M A) (f : A -> M B) (s : session) :
  (m ≫= f) s = match m s with Some (x, s') => f x s' | None => None end.
Proof. reflexivity. Qed.

Lemma run_load (r : nat) (c : UserContext) (s : session) :
  heap s !! r = Some c -> load r s = Some (c, s).
Proof. intros H. unfold load. by rewrite H. Qed.

Lemma process_complaint_registration_run (s : session) (context : nat)
    (c : UserContext) :
  heap s !! context = Some c ->
  process_complaint_registration api context s
  = Some (reply_for c (api (api_calls s) (request_for s c)),
          session_after s context c).
Proof.
  intros Hc. unfold process_complaint_registration.
  rewrite run_bind, (run_load _ _ _ Hc).
  unfold mbind, M_bind, mret, M_ret, store, get_llm_handler, call_api.
  unfold session_after, request_for, category_for, reply_for,
    reset_user_context.
  destruct c as [n m d st].
  cbn [heap user_context llm_handler api_calls name mobile complaint_details
       set_current_step].
  match goal with |- context [api ?l ?r] => destruct (api l r) end;
    reflexivity.
Qed.

(** C2. Every submission attempt, whether the endpoint registers the
    complaint or fails, leaves the session with a new [UserContext]
    instance, not the one submitted from, standing at [initial] with
    name, mobile and complaint details unset; the instance submitted
    from stays at [processing], and one request was sent. *)
Theorem submission_resets_context (s : session) (context : nat)
    (c : UserContext) :
  heap s !! context = Some c ->
  exists resp s',
    process_complaint_registration api context s = Some (resp, s')
    /\ resp = reply_for c (api (api_calls s) (request_for s c))
    /\ user_context s' <> context
    /\ heap s !! user_context s' = None
    /\ heap s' !! user_context s' = Some (mkUserContext None None None initial)
    /\ heap s' !! context = Some (set_current_step c processing)
    /\ api_calls s' = api_calls s ++ [request_for s c].
Proof.
  intros Hc. eexists _, _.
  split; [apply (process_complaint_registration_run _ _ _ Hc)|].
  split; [reflexivity|].
  unfold session_after. cbn [heap user_context api_calls].
  set (heap1 := <[context := set_current_step c processing]> (heap s)).
  assert (Hfresh : fresh (dom heap1) ∉ dom heap1) by apply is_fresh.
  assert (Hne : fresh (dom heap1) <> context).
  { intros E. apply Hfresh. rewrite E. unfold heap1.
    rewrite dom_insert_L. set_solver. }
  split; [exact Hne|].
  split.
  { apply not_elem_of_dom. intros Hin. apply Hfresh. unfold heap1.
    rewrite dom_insert_L. set_solver. }
  split; [by rewrite lookup_insert_eq|].
  split; [|reflexivity].
  rewrite lookup_insert_ne by exact Hne. unfold heap1.
  by rewrite lookup_insert_eq.
Qed.

(** The step-by-step handler on its own: in each slot-collecting state,
    when the validator rejects the candidate input,
    [handle_step_by_step_collection] answers with the validation prompt
    of that slot and leaves the session as it was. The state machine
    reaches it only through [handle_smart_registration], after the
    merge of the extracted fields. *)
Theorem rejected_input_keeps_state (user_message : string)
    (extracted_info : extracted) (s : session) (context : nat)
    (c : UserContext) (resp : response) :
  heap s !! context = Some c ->
  (current_step c = collecting_name
   /\ validate_name (get_or (x_name extracted_info) (strip user_message))
      = false
   /\ resp = InvalidNameFormat)
  \/ (current_step c = collecting_mobile
      /\ validate_mobile
           (get_or (x_mobile extracted_info) (strip user_message)) = false
      /\ resp = InvalidMobileFormat)
  \/ (current_step c = collecting_details
      /\ (len (strip user_message) < 10)%nat
      /\ resp = InsufficientDetails) ->
  handle_step_by_step_collection api user_message context extracted_info s
  = Some (resp, s).
Proof.
  intros Hc Hrej. unfold handle_step_by_step_collection.
  rewrite run_bind, (run_load _ _ _ Hc).
  destruct Hrej as [(Hstep & Hval & ->) | [(Hstep & Hval & ->)
                                          | (Hstep & Hlen & ->)]];
    rewrite Hstep.
  - by rewrite Hval.
  - by rewrite Hval.
  - apply Nat.ltb_lt in Hlen. by rewrite Hlen.
Qed.

(** The merge of extracted fields never moves the current step and never
    overwrites a slot that is set. *)
Lemma merge_extracted_keeps_set_slots (user_message : string)
    (c : UserContext) (extracted_info : extracted) :
  let c' := merge_extracted user_message c extracted_info in
  current_step c' = current_step c
  /\ (truthy (name c) = true -> name c' = name c)
  /\ (truthy (mobile c) = true -> mobile c' = mobile c)
  /\ (truthy (complaint_details c) = true ->
      complaint_details c' = complaint_details c).
Proof.
  destruct c as [n m d st].
  unfold merge_extracted, set_name, set_mobile, set_complaint_details.
  cbn [name mobile complaint_details current_step].
  destruct (truthy (x_name extracted_info)), (truthy n) eqn:Hn;
    cbn [negb andb name mobile complaint_details current_step];
    destruct (truthy (x_mobile extracted_info)), (truthy m) eqn:Hm;
    cbn [negb andb name mobile complaint_details current_step];
    destruct (truthy d) eqn:Hd;
    cbn [negb andb name mobile complaint_details current_step];
    try (repeat split; try reflexivity; intros; discriminate);
    destruct (Step_eqb st initial || Step_eqb st collecting_details);
    cbn [negb andb name mobile complaint_details current_step];
    try (repeat split; try reflexivity; intros; discriminate);
    destruct (indicator_found (lower user_message));
    cbn [negb andb name mobile complaint_details current_step];
    repeat match goal with
           | |- context [if ?b then _ else _] => destruct b
           end;
    cbn [name mobile complaint_details current_step];
    repeat split; try reflexivity; intros; discriminate.
Qed.



(** When nothing is missing after the merge, the state machine submits,
    whatever the current step. *)
Lemma handle_smart_registration_complete (user_message : string)
    (extracted_info : extracted) (s : session) (context : nat)
    (c : UserContext) :
  heap s !! context = Some c ->
  let c' := merge_extracted user_message c extracted_info in
  let s1 := mkSession (<[context := c']> (heap s)) (user_context s)
              (llm_handler s) (api_calls s) in
  missing_info_of c' = [] ->
  handle_smart_registration api user_message context extracted_info s
  = Some (reply_for c' (api (api_calls s) (request_for s c')),
          session_after s1 context c').
Proof.
  intros Hc c' s1 Hmissing. unfold handle_smart_registration.
  rewrite run_bind, (run_load _ _ _ Hc). fold c'.
  unfold mbind at 1, M_bind at 1, store at 1. cbn beta iota. fold s1.
  rewrite Hmissing.
  apply (process_complaint_registration_run s1 context c').
  unfold s1. cbn [heap]. by rewrite lookup_insert_eq.
Qed.

Lemma details_detected_text (user_message : string) :
  details_detected user_message = true ->
  truthy (Some (strip user_message)) = true.
Proof.
  unfold details_detected, truthy. intros H.
  apply negb_true_iff, Nat.eqb_neq.
  unfold strip. rewrite len_of_chars.
  apply orb_true_iff in H as [H|H].
  - intros E. apply length_zero_iff_nil in E. revert E.
    apply strip_chars_text.
    unfold indicator_found in H. apply existsb_exists in H as (ind & _ & H).
    unfold split_once_tail in H.
    destruct (after_first (chars ind) (chars (lower user_message)))
      as [t|] eqn:Ht; [|discriminate].
    cbn [fmap option_fmap option_map] in H.
    apply Nat.ltb_lt in H. unfold strip in H.
    rewrite len_of_chars, chars_of_chars in H.
    assert (Htext : has_text t = true).
    { apply strip_chars_has_text. intros E. rewrite E in H. simpl in H. lia. }
    pose proof (after_first_text _ _ _ Ht Htext) as Hl.
    unfold lower in Hl. rewrite chars_of_chars, has_text_lower in Hl.
    exact Hl.
  - apply andb_true_iff in H as [H _]. apply Nat.ltb_lt in H.
    unfold strip in H. rewrite len_of_chars in H. lia.
Qed.


(** C1, amended. From a new context, a single message from which a name
    and a phone number were extracted and in which the complaint details
    are detected (a complaint indicator followed by more than 10
    characters, or more than 20 characters with a complaint word) is
    submitted at once: the context goes to [processing] with the three
    slots filled, one request is sent, and the reply is that of the
    submission, not a prompt for a slot. *)
Theorem skip_ahead_when_details_detected (user_message : string)
    (extracted_info : extracted) (s : session) (context : nat) :
  heap s !! context = Some UserContext_new ->
  truthy (x_name extracted_info) = true ->
  truthy (x_mobile extracted_info) = true ->
  details_detected user_message = true ->
  let c := mkUserContext (x_name extracted_info) (x_mobile extracted_info)
             (Some (strip user_message)) initial in
  exists resp s',
    handle_smart_registration api user_message context extracted_info s
    = Some (resp, s')
    /\ resp = reply_for c (api (api_calls s) (request_for s c))
    /\ submission_reply resp = true
    /\ heap s' !! context = Some (set_current_step c processing)
    /\ api_calls s' = api_calls s ++ [request_for s c].
Proof.
  intros Hc Hname Hmobile Hdet c.
  pose proof (details_detected_text _ Hdet) as Htext.
  assert (Hmerge : merge_extracted user_message UserContext_new extracted_info
                   = c).
  { unfold merge_extracted, UserContext_new, set_name, set_mobile,
      set_complaint_details.
    cbn [name mobile complaint_details current_step truthy negb andb].
    rewrite Hname, Hmobile.
    cbn [name mobile complaint_details current_step truthy negb andb orb
         Step_eqb].
    unfold details_detected in Hdet.
    destruct (indicator_found (lower user_message)).
    - cbn [complaint_details name mobile current_step].
      rewrite Htext. reflexivity.
    - cbn [orb] in Hdet.
      cbn [complaint_details name mobile current_step truthy negb andb].
      rewrite Hdet. reflexivity. }
  pose proof (handle_smart_registration_complete user_message extracted_info
                s context _ Hc) as Hrun.
  cbv zeta in Hrun. rewrite Hmerge in Hrun.
  assert (Hmissing : missing_info_of c = []).
  { unfold missing_info_of, c. cbn [name mobile complaint_details].
    by rewrite Hname, Hmobile, Htext. }
  specialize (Hrun Hmissing).
  eexists _, _. split; [exact Hrun|].
  split; [reflexivity|].
  split; [by destruct (api _ _)|].
  unfold session_after. cbn [heap api_calls llm_handler].
  split; [|reflexivity].
  set (heap1 := <[context := set_current_step c processing]> _).
  assert (Hfresh : fresh (dom heap1) ∉ dom heap1) by apply is_fresh.
  rewrite lookup_insert_ne.
  - unfold heap1. by rewrite lookup_insert_eq.
  - intros E. apply Hfresh. rewrite E. unfold heap1.
    rewrite dom_insert_L. set_solver.
Qed.

End StateMachine.

Section StateMachineRuns.
Import App.

Lemma submission_resets_context_witness :
  exists resp s',
    process_complaint_registration accepting_api 0 new_session
    = Some (resp, s')
    /\ resp = reply_for UserContext_new
                (accepting_api [] (request_for new_session UserContext_new))
    /\ user_context s' <> 0%nat
    /\ heap new_session !! user_context s' = None
    /\ heap s' !! user_context s' = Some (mkUserContext None None None initial)
    /\ heap s' !! 0%nat = Some (set_current_step UserContext_new processing)
    /\ api_calls s' = [request_for new_session UserContext_new].
Proof.
  apply (submission_resets_context accepting_api new_session 0
           UserContext_new).
  vm_compute. reflexivity.
Defined.



Lemma rejected_input_keeps_state_witness :
  let s := mkSession {[ 0%nat := mkUserContext None None None collecting_name ]}
             0 true [] in
  validate_name "help" = false
  /\ handle_step_by_step_collection accepting_api "help" 0
       (extract_information "help") s
     = Some (InvalidNameFormat, s).
Proof.
  split; [vm_compute; reflexivity|].
  apply (rejected_input_keeps_state accepting_api "help"
           (extract_information "help") _ 0
           (mkUserContext None None None collecting_name)).
  - vm_compute. reflexivity.
  - left. split; [reflexivity|]. split; [vm_compute; reflexivity|reflexivity].
Defined.

(** C1, as stated: this message holds a valid name, a valid phone number
    and a description of 22 characters, and the state machine answers
    with a prompt for the complaint details, at [collecting_details],
    with nothing submitted. *)
Lemma skip_ahead_needs_detected_details :
  let msg :=
    "My name is John Smith, number is 9876543210, the printer jams often" in
  let info := extract_information msg in
  (x_name info = Some "John Smith" /\ validate_name "John Smith" = true)
  /\ (x_mobile info = Some "9876543210"
      /\ validate_mobile "9876543210" = true)
  /\ (contains "the printer jams often" msg = true
      /\ (10 <=? len "the printer jams often")%nat = true)
  /\ handle_smart_registration accepting_api msg 0 info new_session
     = Some (SmartRegistration
               [("Name", "John Smith"); ("Mobile", "9876543210")]
               ["complaint details"],
             mkSession
               {[ 0%nat := mkUserContext (Some "John Smith")
                             (Some "9876543210") None collecting_details ]}
               0 true []).
Proof. vm_compute. repeat split; reflexivity. Qed.

Lemma skip_ahead_when_details_detected_witness :
  let msg :=
    "I have an issue with my laptop, my name is John Smith, number is 9876543210"
  in
  let info := extract_information msg in
  let c := mkUserContext (x_name info) (x_mobile info) (Some (strip msg))
             initial in
  exists resp s',
    handle_smart_registration accepting_api msg 0 info new_session
    = Some (resp, s')
    /\ resp = reply_for c (accepting_api [] (request_for new_session c))
    /\ submission_reply resp = true
    /\ heap s' !! 0%nat = Some (set_current_step c processing)
    /\ api_calls s' = [request_for new_session c].
Proof.
  apply (skip_ahead_when_details_detected accepting_api
           "I have an issue with my laptop, my name is John Smith, number is 9876543210"
           (extract_information
              "I have an issue with my laptop, my name is John Smith, number is 9876543210")
           new_session 0); vm_compute; reflexivity.
Defined.

(** End-to-end scenario 4: at [collecting_name] the input "help" is
    rejected and the state remains [collecting_name]. *)
Example scenario_help_is_rejected :
  let s := mkSession {[ 0%nat := mkUserContext None None None collecting_name ]}
             0 true [] in
  handle_smart_registration accepting_api "help" 0
    (extract_information "help") s
  = Some (InvalidNameFormat, s).
Proof. vm_compute. reflexivity. Qed.

End StateMachineRuns.

(** ** Semantic retrieval *)

Section Retrieval.
Import RAGSystem.

Variable similarities : list Q.

(** The order of two indices by their similarity, larger first. *)
Let later (i j : nat) : Prop :=
  (score_at similarities j <= score_at similarities i)%Q.
Let earlier (i j : nat) : Prop :=
  (score_at similarities i <= score_at similarities j)%Q.

Lemma lookup_score_at (i : nat) :
  (i < length similarities)%nat ->
  similarities !! i = Some (score_at similarities i).
Proof.
  intros H. unfold score_at.
  destruct (similarities !! i) eqn:E; [reflexivity|].
  apply lookup_ge_None in E. lia.
Qed.

Lemma values_along_valid (order : list nat) :
  Forall (fun i => (i < length similarities)%nat) order ->
  values_along similarities order = map (score_at similarities) order.
Proof.
  unfold values_along. induction 1 as [|i tl Hi _ IH]; [reflexivity|].
  cbn [omap list_omap map]. by rewrite (lookup_score_at i Hi), IH.
Qed.

Lemma ascending_sorted (l : list Q) :
  ascending l = true -> Sorted Qle l.
Proof.
  induction l as [|a [|b tl] IH]; intros H.
  - constructor.
  - repeat constructor.
  - cbn [ascending] in H. apply andb_true_iff in H as [Hab Htl].
    constructor; [apply IH, Htl|].
    constructor. by apply Qle_bool_iff.
Qed.

Lemma sorted_descending (l : list Q) :
  StronglySorted (fun a b => (b <= a)%Q) l -> descending l = true.
Proof.
  induction l as [|a [|b tl] IH]; intros H; [reflexivity..|].
  cbn [descending]. apply StronglySorted_inv in H as [Htl Ha].
  apply andb_true_iff. split; [|apply IH, Htl].
  apply Qle_bool_iff. by apply Forall_inv in Ha.
Qed.

Lemma argsort_earlier (order : list nat) :
  Forall (fun i => (i < length similarities)%nat) order ->
  ascending (values_along similarities order) = true ->
  StronglySorted earlier order.
Proof.
  intros Hvalid Hasc. rewrite (values_along_valid _ Hvalid) in Hasc.
  apply ascending_sorted in Hasc.
  apply Sorted_StronglySorted in Hasc;
    [|intros x y z; apply Qle_trans].
  clear Hvalid. induction order as [|i tl IH]; [constructor|].
  cbn [map] in Hasc. apply StronglySorted_inv in Hasc as [Htl Hi].
  constructor; [apply IH, Htl|].
  apply List.Forall_forall. intros j Hj. unfold earlier.
  rewrite List.Forall_forall in Hi. apply Hi. by apply in_map.
Qed.

Lemma strongly_sorted_drop {A : Type} (R : A -> A -> Prop) (n : nat)
    (l : list A) :
  StronglySorted R l -> StronglySorted R (drop n l).
Proof.
  revert l. induction n as [|n IH]; intros [|x l] H; cbn [drop];
    try exact H.
  apply IH. by apply StronglySorted_inv in H as [H _].
Qed.

Lemma strongly_sorted_snoc {A : Type} (R : A -> A -> Prop) (l : list A)
    (x : A) :
  StronglySorted R l -> Forall (fun y => R y x) l ->
  StronglySorted R (l ++ [x]).
Proof.
  induction l as [|a l IH]; intros Hl Hx; cbn [app].
  - repeat constructor.
  - apply StronglySorted_inv in Hl as [Hl Ha].
    apply Forall_cons_1 in Hx as [Hax Hx].
    constructor; [by apply IH|].
    apply Forall_app. split; [exact Ha|by constructor].
Qed.

Lemma strongly_sorted_rev {A : Type} (R : A -> A -> Prop) (l : list A) :
  StronglySorted R l -> StronglySorted (fun x y => R y x) (rev l).
Proof.
  induction 1 as [|a l _ IH Ha]; cbn [rev]; [constructor|].
  apply strongly_sorted_snoc; [exact IH|].
  apply List.Forall_forall. intros y Hy. apply in_rev in Hy.
  rewrite List.Forall_forall in Ha. by apply Ha.
Qed.

(** The loop returns, for valid indices in descending order of
    similarity, entries in descending order, no more than there are
    indices, each above the threshold. *)
Lemma relevant_entries_ordered (top_indices : list nat) :
  (length similarities <= length knowledge_base)%nat ->
  Forall (fun i => (i < length similarities)%nat) top_indices ->
  StronglySorted later top_indices ->
  exists r,
    relevant_entries similarities top_indices = Some r
    /\ (length r <= length top_indices)%nat
    /\ forallb (fun e => gtb (similarity_score e) similarity_threshold) r
       = true
    /\ Forall (fun e => exists i, In i top_indices
                 /\ similarity_score e = score_at similarities i) r
    /\ StronglySorted (fun a b => (b <= a)%Q) (map similarity_score r).
Proof.
  intros Hkb Hvalid Hsorted.
  induction top_indices as [|idx tl IH].
  - exists []. repeat split; constructor.
  - apply Forall_cons_1 in Hvalid as [Hidx Hvalid].
    apply StronglySorted_inv in Hsorted as [Hsorted Hhead].
    destruct (IH Hvalid Hsorted) as (r & Hr & Hlen & Hthr & Hfrom & Hdesc).
    cbn [relevant_entries]. rewrite (lookup_score_at idx Hidx).
    destruct (gtb (score_at similarities idx) similarity_threshold) eqn:Hgt.
    + destruct (knowledge_base !! idx) as [e|] eqn:He.
      2:{ apply lookup_ge_None in He. lia. }
      rewrite Hr. eexists. split; [reflexivity|].
      cbn [length forallb similarity_score map].
      split; [lia|]. split; [by rewrite Hgt, Hthr|].
      split.
      * constructor; [exists idx; split; [by left|reflexivity]|].
        eapply Forall_impl; [exact Hfrom|].
        intros e' (i & Hi & Hs). exists i. split; [by right|exact Hs].
      * constructor; [exact Hdesc|].
        apply List.Forall_forall. intros q Hq. apply in_map_iff in Hq
          as (e' & <- & He').
        rewrite List.Forall_forall in Hfrom. destruct (Hfrom e' He')
          as (i & Hi & ->).
        rewrite List.Forall_forall in Hhead. apply (Hhead i Hi).
    + exists r. split; [exact Hr|]. cbn [length].
      split; [lia|]. split; [exact Hthr|]. split; [|exact Hdesc].
      eapply Forall_impl; [exact Hfrom|].
      intros e' (i & Hi & Hs). exists i. split; [by right|exact Hs].
Qed.

Lemma slice_from_suffix_length {A : Type} (k : Z) (l : list A) :
  (1 <= k)%Z -> (Z.of_nat (length (slice_from (- k) l)) <= k)%Z.
Proof.
  intros Hk. unfold slice_from.
  destruct (- k <? 0)%Z eqn:E; [|apply Z.ltb_ge in E; lia].
  rewrite length_drop. lia.
Qed.

End Retrieval.

Section Sorting.
Import RAGSystem.

Variable similarities : list Q.

Let earlier (i j : nat) : Prop :=
  (score_at similarities i <= score_at similarities j)%Q.

Lemma insert_index_perm (i : nat) (sorted : list nat) :
  Permutation (insert_index similarities i sorted) (i :: sorted).
Proof.
  induction sorted as [|j tl IH]; cbn [insert_index]; [reflexivity|].
  destruct (Qle_bool _ _); [|reflexivity].
  rewrite IH. apply perm_swap.
Qed.

Lemma insert_index_sorted (i : nat) (sorted : list nat) :
  StronglySorted earlier sorted ->
  StronglySorted earlier (insert_index similarities i sorted).
Proof.
  induction 1 as [|j tl Htl IH Hj]; cbn [insert_index].
  - repeat constructor.
  - destruct (Qle_bool (score_at similarities j) (score_at similarities i))
      eqn:E.
    + constructor; [exact IH|].
      rewrite (insert_index_perm i tl). constructor; [|exact Hj].
      by apply Qle_bool_iff.
    + assert (Hij : earlier i j).
      { unfold earlier. apply Qlt_le_weak, Qnot_le_lt. intros H.
        apply Qle_bool_iff in H. congruence. }
      constructor; [by constructor|].
      constructor; [exact Hij|].
      eapply Forall_impl; [exact Hj|].
      intros k Hk. unfold earlier in *. eapply Qle_trans; eassumption.
Qed.

Lemma fold_insert_index (pending acc : list nat) :
  StronglySorted earlier acc ->
  let r := fold_left (fun acc i => insert_index similarities i acc) pending acc
  in StronglySorted earlier r /\ Permutation r (pending ++ acc).
Proof.
  revert acc. induction pending as [|i pending IH]; intros acc Hacc; cbn [fold_left].
  - split; [exact Hacc|reflexivity].
  - destruct (IH _ (insert_index_sorted i acc Hacc)) as [Hs Hp].
    split; [exact Hs|].
    rewrite Hp, insert_index_perm. cbn [app].
    symmetry. apply Permutation_middle.
Qed.

Lemma sorted_ascending (l : list Q) :
  StronglySorted Qle l -> ascending l = true.
Proof.
  induction l as [|a [|b tl] IH]; intros H; [reflexivity..|].
  cbn [ascending]. apply StronglySorted_inv in H as [Htl Ha].
  apply andb_true_iff. split; [|apply IH, Htl].
  apply Qle_bool_iff. by apply Forall_inv in Ha.
Qed.

Lemma nodupb_NoDup (l : list nat) : List.NoDup l -> nodupb l = true.
Proof.
  induction 1 as [|x tl Hx _ IH]; [reflexivity|].
  cbn [nodupb]. rewrite IH, andb_true_r. apply negb_true_iff.
  destruct (existsb (Nat.eqb x) tl) eqn:E; [|reflexivity].
  apply existsb_exists in E as (y & Hy & Hxy).
  apply Nat.eqb_eq in Hxy. by subst.
Qed.

(** The insertion sort is an argsort: what [find_relevant_context] asks
    of [np.argsort] can be had for every list of similarities. *)
Lemma insertion_argsort_is_argsort :
  is_argsort similarities (insertion_argsort similarities) = true.
Proof.
  unfold is_argsort, insertion_argsort.
  destruct (fold_insert_index (seq 0 (length similarities)) []
              ltac:(constructor)) as [Hs Hp].
  rewrite app_nil_r in Hp.
  set (order := fold_left _ _ _) in *.
  assert (Hvalid : Forall (fun i => (i < length similarities)%nat) order).
  { apply List.Forall_forall. intros i Hi.
    apply (Permutation_in _ Hp), in_seq in Hi. lia. }
  repeat (apply andb_true_iff; split).
  - apply Nat.eqb_eq. rewrite (Permutation_length Hp). apply length_seq.
  - apply forallb_forall. intros i Hi. apply Nat.ltb_lt.
    rewrite List.Forall_forall in Hvalid. by apply Hvalid.
  - apply nodupb_NoDup. apply (Permutation_NoDup (Permutation_sym Hp)).
    apply seq_NoDup.
  - rewrite (values_along_valid _ _ Hvalid). apply sorted_ascending.
    clear Hp Hvalid. induction Hs as [|i tl _ IH Hi]; cbn [map];
      [constructor|].
    constructor; [exact IH|].
    apply List.Forall_forall. intros q Hq.
    apply in_map_iff in Hq as (j & <- & Hj).
    rewrite List.Forall_forall in Hi. by apply Hi.
Qed.

End Sorting.

Section RetrievalClaims.
Import RAGSystem.

(** C6, as stated: with [top_k = 0] the slice [[-0:]] is the whole list
    of indices, and every entry above the threshold is returned; with
    [top_k = -1] the slice [[1:]] drops one index only, and no sequence
    has at most -1 entries. *)
Lemma top_k_zero_returns_all :
  let similarity := fun _ : string => [0.9; 0.8; 0.7; 0.6; 0.5; 0.4]%Q in
  is_argsort (similarity "wifi") (insertion_argsort (similarity "wifi"))
  = true
  /\ (exists r,
        find_relevant_context similarity insertion_argsort "wifi" 0 = Some r
        /\ length r = 6%nat /\ ~ (Z.of_nat (length r) <= 0)%Z)
  /\ (exists r,
        find_relevant_context similarity insertion_argsort "wifi" (-1)
        = Some r
        /\ length r = 5%nat /\ ~ (Z.of_nat (length r) <= -1)%Z).
Proof.
  split; [vm_compute; reflexivity|].
  split; (eexists; split; [vm_compute; reflexivity|]);
    cbn [length]; (split; [reflexivity|lia]).
Qed.

(** C6, amended. For every query and every [top_k >= 1],
    [find_relevant_context] returns a sequence in non-increasing order of
    similarity, of at most [top_k] entries, each with a similarity above
    0.3. *)
Theorem find_relevant_context_ordered (similarity : string -> list Q)
    (argsort : list Q -> list nat) (query : string) (top_k : Z) :
  length (similarity query) = length knowledge_base ->
  is_argsort (similarity query) (argsort (similarity query)) = true ->
  (1 <= top_k)%Z ->
  exists r,
    find_relevant_context similarity argsort query top_k = Some r
    /\ descending (map similarity_score r) = true
    /\ (Z.of_nat (length r) <= top_k)%Z
    /\ forallb (fun e => gtb (similarity_score e) similarity_threshold) r
       = true.
Proof.
  intros Hlen Hsort Hk. unfold find_relevant_context.
  set (sims := similarity query) in *. set (order := argsort sims) in *.
  unfold is_argsort in Hsort.
  apply andb_true_iff in Hsort as [Hsort Hasc].
  apply andb_true_iff in Hsort as [Hsort _].
  apply andb_true_iff in Hsort as [_ Hvalid].
  assert (Hvalid' : Forall (fun i => (i < length sims)%nat) order).
  { apply List.Forall_forall. intros i Hi.
    rewrite forallb_forall in Hvalid. by apply Nat.ltb_lt, Hvalid. }
  pose proof (argsort_earlier sims order Hvalid' Hasc) as Hearlier.
  set (top := rev (slice_from (- top_k) order)).
  assert (Htop_valid : Forall (fun i => (i < length sims)%nat) top).
  { apply List.Forall_forall. intros i Hi. apply in_rev in Hi.
    rewrite List.Forall_forall in Hvalid'. apply Hvalid'.
    unfold slice_from in Hi. apply list_elem_of_In in Hi.
    apply list_elem_of_In. eapply subseteq_drop, Hi. }
  assert (Htop_sorted :
            StronglySorted
              (fun i j => (score_at sims j <= score_at sims i)%Q) top).
  { unfold top. apply (strongly_sorted_rev
      (fun i j => (score_at sims i <= score_at sims j)%Q)).
    unfold slice_from. by apply strongly_sorted_drop. }
  destruct (relevant_entries_ordered sims top ltac:(lia) Htop_valid
              Htop_sorted) as (r & Hr & Hn & Hthr & _ & Hdesc).
  exists r. split; [exact Hr|].
  split; [by apply sorted_descending|].
  split; [|exact Hthr].
  pose proof (slice_from_suffix_length top_k order Hk) as Hs.
  unfold top in Hn. rewrite length_rev in Hn. lia.
Qed.

Lemma find_relevant_context_ordered_witness :
  let similarity := fun _ : string => [0.1; 0.5; 0.9; 0.2; 0.31; 0.3]%Q in
  exists r,
    find_relevant_context similarity insertion_argsort "wifi is slow" 3
    = Some r
    /\ descending (map similarity_score r) = true
    /\ (Z.of_nat (length r) <= 3)%Z
    /\ forallb (fun e => gtb (similarity_score e) similarity_threshold) r
       = true.
Proof.
  apply (find_relevant_context_ordered
           (fun _ => [0.1; 0.5; 0.9; 0.2; 0.31; 0.3]%Q) insertion_argsort
           "wifi is slow" 3).
  - vm_compute. reflexivity.
  - vm_compute. reflexivity.
  - lia.
Defined.

End RetrievalClaims.

(** ** Conversation memory *)

Section SentimentMemory.
Import App.

Variable set_iteration : list string -> list string.

Lemma mem_In (x : string) (l : list string) : mem x l = true <-> In x l.
Proof.
  unfold mem. rewrite existsb_exists. split.
  - intros (y & Hy & E). apply String.eqb_eq in E. by subst.
  - intros H. exists x. split; [exact H|apply String.eqb_refl].
Qed.

(** The scan returns one of the items, and none has a larger key. *)
Lemma max_by_In (key : string -> nat) (best : string) (l : list string) :
  In (max_by key best l) (best :: l).
Proof.
  revert best. induction l as [|x tl IH]; intros best; cbn [max_by].
  - by left.
  - destruct (key best <? key x)%nat.
    + right. apply IH.
    + destruct (IH best) as [H|H]; [by left|right; by right].
Qed.

Lemma max_by_upper (key : string -> nat) (best : string) (l : list string) :
  (key best <= key (max_by key best l))%nat
  /\ forall x, In x l -> (key x <= key (max_by key best l))%nat.
Proof.
  revert best. induction l as [|x tl IH]; intros best; cbn [max_by].
  - split; [lia|]. intros x [].
  - destruct (key best <? key x)%nat eqn:E.
    + apply Nat.ltb_lt in E. destruct (IH x) as [Hx Htl].
      split; [lia|]. intros y [<-|Hy]; [exact Hx|by apply Htl].
    + apply Nat.ltb_ge in E. destruct (IH best) as [Hb Htl].
      split; [exact Hb|]. intros y [<-|Hy]; [lia|by apply Htl].
Qed.

Lemma set_of_nonempty (x : string) (l order : list string) :
  is_set_of (x :: l) order = true -> order <> [].
Proof.
  unfold is_set_of. intros H E. subst order.
  apply andb_true_iff in H as [_ H]. cbn in H. discriminate H.
Qed.

(** The dominant sentiment of a non-empty history is a mode of it: a
    label of the history that no label outnumbers. *)
Lemma dominant_is_mode (history : list string) :
  history <> [] ->
  is_set_of history (set_iteration history) = true ->
  exists d,
    dominant_of set_iteration history = Some d
    /\ In d history
    /\ forall x, In x history -> (count x history <= count d history)%nat.
Proof.
  intros Hne Hset. destruct history as [|h t]; [done|].
  unfold dominant_of.
  pose proof (set_of_nonempty _ _ _ Hset) as Horder.
  destruct (set_iteration (h :: t)) as [|x tl] eqn:E; [done|].
  cbn [py_max]. eexists. split; [reflexivity|].
  unfold is_set_of in Hset.
  apply andb_true_iff in Hset as [Hset Hall].
  apply andb_true_iff in Hset as [_ Hsub].
  rewrite forallb_forall in Hsub, Hall.
  split.
  - apply mem_In, Hsub, max_by_In.
  - intros y Hy. apply Hall, mem_In in Hy.
    destruct (max_by_upper (fun y => count y (h :: t)) x tl) as [Hx Htl].
    destruct Hy as [<-|Hy]; [exact Hx|by apply Htl].
Qed.

(** C8. The dominant-sentiment computation is stable: the call reads the
    memory and leaves it as it is, and on memories with the same sentiment
    history, ties in the counts included, it returns the same dominant
    sentiment. *)
Theorem dominant_sentiment_stable (m1 m2 : memory) :
  is_set_of (sentiment_history m1) (set_iteration (sentiment_history m1))
  = true ->
  sentiment_history m2 = sentiment_history m1 ->
  exists i1 i2,
    get_contextual_insights set_iteration m1 = Some (i1, m1)
    /\ get_contextual_insights set_iteration m2 = Some (i2, m2)
    /\ dominant_sentiment i1 = dominant_sentiment i2.
Proof.
  intros Hset Hsame. unfold get_contextual_insights. rewrite Hsame.
  assert (Hd : exists d,
             dominant_of set_iteration (sentiment_history m1) = Some d).
  { destruct (sentiment_history m1) as [|h t] eqn:E.
    - by exists "neutral".
    - destruct (dominant_is_mode (h :: t) ltac:(done) Hset) as (d & Hd & _).
      by exists d. }
  destruct Hd as [d Hd]. rewrite Hd.
  eexists _, _. split; [reflexivity|]. split; reflexivity.
Qed.

End SentimentMemory.

Section SentimentRuns.
Import App.

Lemma dominant_sentiment_stable_witness :
  let m := mkMemory None None None [] [] false
             ["negative"; "positive"; "positive"; "negative"] [] in
  exists i1 i2,
    get_contextual_insights first_occurrences m = Some (i1, m)
    /\ get_contextual_insights first_occurrences m = Some (i2, m)
    /\ dominant_sentiment i1 = dominant_sentiment i2.
Proof.
  apply (dominant_sentiment_stable first_occurrences
           (mkMemory None None None [] [] false
              ["negative"; "positive"; "positive"; "negative"] [])
           (mkMemory None None None [] [] false
              ["negative"; "positive"; "positive"; "negative"] [])).
  - vm_compute. reflexivity.
  - reflexivity.
Defined.

(** Under a tie the label met first in the iteration of the set wins. *)
Example dominant_sentiment_tie :
  dominant_of first_occurrences
    ["negative"; "positive"; "positive"; "negative"] = Some "negative"
  /\ dominant_of (fun l => rev (first_occurrences l))
       ["negative"; "positive"; "positive"; "negative"] = Some "positive"
  /\ dominant_of first_occurrences [] = Some "neutral".
Proof. vm_compute. auto. Qed.

End SentimentRuns.

(** ** Phone candidates *)

Section PhoneExtraction.
Import App.



End PhoneExtraction.

(** ** The matcher and the matching relation *)

Section Matcher.
Import Re.

Lemma rep_loop_sound {R : Type} (r0 : regex)
    (body : mstate -> (mstate -> option R) -> option R)
    (k : mstate -> option R) :
  (forall st k' x, body st k' = Some x ->
     exists st', steps r0 st st' /\ k' st' = Some x) ->
  forall fuel lo hi st x,
    rep_loop body k fuel lo hi st = Some x ->
    exists st', steps (Rep r0 lo hi) st st' /\ k st' = Some x.
Proof.
  intros Hbody. induction fuel as [|fuel IH]; intros lo hi st x H;
    cbn [rep_loop] in H; [discriminate|].
  assert (Hstop : (if (lo =? 0)%nat then k st else None) = Some x ->
                  exists st', steps (Rep r0 lo hi) st st' /\ k st' = Some x).
  { destruct (lo =? 0)%nat eqn:E; [|discriminate].
    apply Nat.eqb_eq in E. subst lo. intros Hk. exists st.
    split; [constructor|exact Hk]. }
  assert (Hmore : hi <> Some O ->
            match body st (fun st' =>
                    if (length (rest st') <? length (rest st))%nat
                    then rep_loop body k fuel (Nat.pred lo)
                           (Nat.pred <$> hi) st'
                    else None) with
            | Some x => Some x
            | None => if (lo =? 0)%nat then k st else None
            end = Some x ->
            exists st', steps (Rep r0 lo hi) st st' /\ k st' = Some x).
  { intros Hhi Hm.
    destruct (body st _) as [y|] eqn:Hb; [|by apply Hstop].
    injection Hm as ->.
    apply Hbody in Hb as (st1 & Hst1 & Hk).
    destruct (length (rest st1) <? length (rest st))%nat eqn:Hlen;
      [|discriminate].
    apply Nat.ltb_lt in Hlen.
    apply IH in Hk as (st2 & Hst2 & Hk).
    exists st2. split; [|exact Hk].
    by apply (steps_rep_more r0 lo hi st st1 st2). }
  destruct hi as [[|h]|]; [by apply Hstop|by apply Hmore..].
Qed.

(** Soundness: a result of the matcher comes from a state the pattern
    leads to. *)
Lemma exec_sound {R : Type} (r : regex) :
  forall (st : mstate) (k : mstate -> option R) (x : R),
    exec r st k = Some x ->
    exists st', steps r st st' /\ k st' = Some x.
Proof.
  induction r as [|p|r1 IH1 r2 IH2|r1 IH1 r2 IH2|r0 IH lo hi|r0 IH| | |];
    intros st k x H; cbn [exec] in H.
  - exists st. split; [constructor|exact H].
  - destruct (rest st) as [|c l] eqn:E; [discriminate|].
    destruct (p c) eqn:Hp; [|discriminate].
    eexists. split; [by apply (steps_cls p c l)|exact H].
  - apply IH1 in H as (st1 & H1 & H). apply IH2 in H as (st2 & H2 & H).
    exists st2. split; [by apply (steps_cat r1 r2 st st1)|exact H].
  - destruct (exec r1 st k) as [y|] eqn:E.
    + injection H as ->. apply IH1 in E as (st' & H1 & Hk).
      exists st'. split; [by apply steps_alt_l|exact Hk].
    + apply IH2 in H as (st' & H2 & Hk).
      exists st'. split; [by apply steps_alt_r|exact Hk].
  - eapply rep_loop_sound; [|exact H]. intros st0 k' y. apply IH.
  - apply IH in H as (st' & H1 & Hk).
    eexists. split; [apply steps_grp, H1|exact Hk].
  - destruct (prev st) eqn:E; [discriminate|].
    exists st. split; [by constructor|exact H].
  - destruct (at_eol st) eqn:E; [|discriminate].
    exists st. split; [by constructor|exact H].
  - destruct (xorb _ _) eqn:E; [|discriminate].
    exists st. split; [by constructor|exact H].
Qed.

End Matcher.

Section MatcherComplete.
Import Re.

Lemma rep_loop_complete {R : Type} (r0 : regex)
    (body : mstate -> (mstate -> option R) -> option R)
    (k : mstate -> option R) :
  (forall st st' k', steps r0 st st' -> is_Some (k' st') ->
     is_Some (body st k')) ->
  forall fuel lo hi st st',
    (length (rest st) < fuel)%nat ->
    steps (Rep r0 lo hi) st st' -> is_Some (k st') ->
    is_Some (rep_loop body k fuel lo hi st).
Proof.
  intros Hbody. induction fuel as [|fuel IH]; intros lo hi st st' Hfuel H Hk;
    [lia|].
  cbn [rep_loop].
  inversion H as [| | | | |r hi' st0|r lo' hi' st0 st1 st2 Hhi H1 Hlen H2| | | |];
    subst.
  - cbn [Nat.eqb]. destruct hi as [[|h]|]; [exact Hk|..];
      destruct (body st' _); try exact Hk; by eexists.
  - assert (Hb : is_Some
        (body st (fun st' =>
           if (length (rest st') <? length (rest st))%nat
           then rep_loop body k fuel (Nat.pred lo) (Nat.pred <$> hi) st'
           else None))).
    { apply (Hbody st st1); [exact H1|].
      apply Nat.ltb_lt in Hlen as Hlt. rewrite Hlt.
      apply (IH _ _ st1 st'); [lia|exact H2|exact Hk]. }
    destruct Hb as [y Hb]. rewrite Hb.
    destruct hi as [[|h]|]; [done|by eexists..].
Qed.

(** Completeness: when the pattern leads to a state the continuation
    accepts, the matcher finds a match. *)
Lemma exec_complete {R : Type} (r : regex) :
  forall (st st' : mstate) (k : mstate -> option R),
    steps r st st' -> is_Some (k st') -> is_Some (exec r st k).
Proof.
  induction r as [|p|r1 IH1 r2 IH2|r1 IH1 r2 IH2|r0 IH lo hi|r0 IH| | |];
    intros st st' k H Hk; cbn [exec].
  - by inversion H; subst.
  - inversion H as [|p' c l st0 Hrest Hp| | | | | | | | |]; subst.
    by rewrite Hrest, Hp.
  - inversion H as [| |r1' r2' st0 st1 st2 H1 H2| | | | | | | |]; subst.
    apply (IH1 st st1); [exact H1|]. by apply (IH2 st1 st').
  - inversion H as [| | |r1' r2' st0 st0' H1|r1' r2' st0 st0' H2| | | | | |];
      subst.
    + destruct (IH1 st st' k H1 Hk) as [y ->]. by eexists.
    + destruct (exec r1 st k); [by eexists|]. by apply (IH2 st st').
  - apply (rep_loop_complete r0) with (st' := st'); [|lia|exact H|exact Hk].
    intros st0 st0' k'. apply IH.
  - inversion H as [| | | | | | |r' st0 st0' H1| | |]; subst.
    by apply (IH st st0').
  - inversion H as [| | | | | | | |st0 Hp| |]; subst. by rewrite Hp.
  - inversion H as [| | | | | | | | |st0 He|]; subst. by rewrite He.
  - inversion H as [| | | | | | | | | |st0 Hw]; subst. by rewrite Hw.
Qed.

End MatcherComplete.

Section Searching.
Import Re.

(** A match at a position, by the relation. *)
Lemma match_here_sound (r : regex) (p : option ascii) (l : list ascii)
    (m : rmatch) :
  match_here r p l = Some m ->
  exists st',
    steps r (MState p l None) st'
    /\ m = RMatch (of_chars (consumed (MState p l None) st'))
             (of_chars <$> grp1 st') st'.
Proof.
  unfold match_here. intros H. apply exec_sound in H as (st' & Hs & Hk).
  exists st'. split; [exact Hs|]. by injection Hk as <-.
Qed.

Lemma match_here_complete (r : regex) (p : option ascii) (l : list ascii)
    (st' : mstate) :
  steps r (MState p l None) st' -> is_Some (match_here r p l).
Proof.
  intros H. unfold match_here. eapply exec_complete; [exact H|by eexists].
Qed.







Lemma first_some_In {A B : Type} (f : A -> option B) (l : list A) (y : B) :
  first_some f l = Some y -> exists x, In x l /\ f x = Some y.
Proof.
  induction l as [|x l IH]; cbn [first_some]; [discriminate|].
  destruct (f x) as [z|] eqn:E.
  - intros [= <-]. exists x. split; [by left|exact E].
  - intros H. destruct (IH H) as (x' & Hx' & Hf).
    exists x'. split; [by right|exact Hf].
Qed.

End Searching.

Section MatchShape.
Import Re.



(** A quantified character class takes a run of characters of the
    class, as many as the bounds allow, and leaves the group alone. *)
Lemma steps_rep_cls (cls : ascii -> bool) (lo : nat) (hi : option nat)
    (st st' : mstate) :
  steps (Rep (Cls cls) lo hi) st st' ->
  exists run,
    rest st = run ++ rest st'
    /\ forallb cls run = true
    /\ (lo <= length run)%nat
    /\ (forall h, hi = Some h -> (length run <= h)%nat)
    /\ grp1 st' = grp1 st.
Proof.
  intros H. remember (Rep (Cls cls) lo hi) as r eqn:Er.
  revert lo hi Er.
  induction H as [| | | | |r hi0 st
                  |r lo0 hi0 st st1 st2 Hhi H1 _ Hlen H2 IH2| | | |];
    intros lo hi Er; try discriminate; injection Er as E1 E2 E3; subst.
  - exists []. repeat split; try reflexivity; cbn; lia.
  - inversion H1 as [|p c l st0 Hrest Hp| | | | | | | | |]; subst.
    destruct (IH2 _ _ eq_refl) as (run & Hrun & Hall & Hlo & Hup & Hg).
    cbn [rest grp1] in *.
    exists (c :: run). split; [by rewrite Hrest, Hrun|].
    split; [cbn [forallb]; by rewrite Hp, Hall|].
    split; [cbn [length]; lia|].
    split; [|exact Hg].
    intros h ->. cbn [length]. destruct h as [|h]; [done|].
    specialize (Hup h eq_refl). lia.
Qed.

Lemma steps_rep_cls_run (cls : ascii -> bool) (run : list ascii)
    (lo : nat) (hi : option nat) (p : option ascii) (l : list ascii)
    (g : option (list ascii)) :
  forallb cls run = true ->
  (lo <= length run)%nat ->
  (forall h, hi = Some h -> (length run <= h)%nat) ->
  exists p',
    steps (Rep (Cls cls) lo hi) (MState p (run ++ l) g) (MState p' l g).
Proof.
  revert lo hi p. induction run as [|c run IH]; intros lo hi p Hall Hlo Hup.
  - cbn [length] in Hlo. assert (lo = 0%nat) as -> by lia.
    exists p. constructor.
  - cbn [forallb] in Hall. apply andb_true_iff in Hall as [Hc Hall].
    destruct (IH (Nat.pred lo) (Nat.pred <$> hi) (Some c) Hall) as [p' Hs].
    { cbn [length] in Hlo. lia. }
    { intros h Hh. destruct hi as [h0|]; [|discriminate].
      injection Hh as <-. specialize (Hup h0 eq_refl).
      cbn [length] in Hup. lia. }
    exists p'.
    apply (steps_rep_more (Cls cls) lo hi _ (MState (Some c) (run ++ l) g)).
    + intros ->. specialize (Hup 0%nat eq_refl). cbn [length] in Hup. lia.
    + by apply (steps_cls cls c (run ++ l) (MState p (c :: run ++ l) g)).
    + cbn [rest length app]. lia.
    + exact Hs.
Qed.

End MatchShape.

Section PhoneCandidates.
Import Re App.



Lemma forallb_last {A : Type} (P : A -> bool) (l : list A) (z : A) :
  forallb P l = true -> last l = Some z -> P z = true.
Proof.
  intros Hall Hlast. apply last_Some in Hlast as [init ->].
  rewrite forallb_app in Hall. apply andb_true_iff in Hall as [_ Hz].
  cbn in Hz. by rewrite andb_true_r in Hz.
Qed.

Lemma lstrip_chars_id (l : list ascii) (a : ascii) :
  head l = Some a -> is_space a = false -> lstrip_chars l = l.
Proof.
  destruct l as [|c l]; [discriminate|]. intros [= ->] Ha.
  cbn [lstrip_chars]. by rewrite Ha.
Qed.

(** Text that begins and ends with something else than white space is
    its own [strip()]. *)
Lemma strip_chars_id (l : list ascii) (a z : ascii) :
  head l = Some a -> is_space a = false ->
  last l = Some z -> is_space z = false ->
  strip_chars l = l.
Proof.
  intros Ha Hsa Hz Hsz. unfold strip_chars.
  rewrite (lstrip_chars_id l a Ha Hsa).
  apply last_Some in Hz as [init ->].
  rewrite rev_app_distr. cbn [rev app].
  rewrite (lstrip_chars_id (z :: rev init) z eq_refl Hsz).
  cbn [rev]. by rewrite rev_involutive.
Qed.




End PhoneCandidates.

Section PhonePatterns.
Import Re App.

Lemma steps_cat_cls (cls : ascii -> bool) (r : regex) (st st' : mstate) :
  steps (Cat (Cls cls) r) st st' ->
  exists c l,
    rest st = c :: l /\ cls c = true
    /\ steps r (MState (Some c) l (grp1 st)) st'.
Proof.
  intros H. inversion H as [| |r1 r2 st0 st1 st2 H1 H2| | | | | | | |]; subst.
  inversion H1 as [|p c l st0 Hrest Hp| | | | | | | | |]; subst.
  by exists c, l.
Qed.

Lemma steps_cat_rep_cls (cls : ascii -> bool) (lo hi : nat) (r : regex)
    (st st' : mstate) :
  steps (Cat (Rep (Cls cls) lo (Some hi)) r) st st' ->
  exists run st1,
    rest st = run ++ rest st1
    /\ forallb cls run = true
    /\ (lo <= length run <= hi)%nat
    /\ steps r st1 st'.
Proof.
  intros H. inversion H as [| |r1 r2 st0 st1 st2 H1 H2| | | | | | | |]; subst.
  apply steps_rep_cls in H1 as (run & Hrun & Hall & Hlo & Hhi & _).
  exists run, st1. repeat split; try done. by apply Hhi.
Qed.




End PhonePatterns.

Section PhonePatternsMore.
Import Re App.




End PhonePatternsMore.

Section ExtractedMobile.
Import Re App.




End ExtractedMobile.

Section PhoneClaims.
Import App.

(** C3. The extracted mobile is not the digit-only form of a valid phone
    string of more than ten digits or with a country code: the country
    code of "+91-9876543210" is dropped, and the twelve digits of
    "919876543210" are cut to the first ten, where the simpler extractor
    [extract_basic_info] keeps all twelve. *)
Theorem extract_mobile_keeps_ten_digits :
  x_mobile (extract_information "+91-9876543210") = Some "9876543210"
  /\ x_mobile (extract_information "919876543210") = Some "9198765432"
  /\ validate_mobile "+919876543210" = true
  /\ validate_mobile "919876543210" = true
  /\ x_mobile (extract_basic_info "919876543210") = Some "919876543210".
Proof. vm_compute. auto 6. Qed.

End PhoneClaims.

(** ** The complaints database *)

Section DatabaseOperations.
Import Database.

Lemma status_of_value_status (s : ComplaintStatus) :
  status_of_value (status_value s) = Some s.
Proof. by destruct s. Qed.

Lemma history_of_app (d : db) (rows : list history_row)
    (complaint_id : string) :
  history_of (mkDb (complaints d) (status_history d ++ rows)) complaint_id
  = history_of d complaint_id
    ++ filter (fun h => h_complaint_id h = complaint_id) rows.
Proof. unfold history_of. cbn [status_history]. apply filter_app. Qed.

Lemma history_of_snoc (cs : gmap string complaint_row)
    (rows : list history_row) (h : history_row) (complaint_id : string) :
  history_of (mkDb cs (rows ++ [h])) complaint_id
  = history_of (mkDb cs rows) complaint_id
    ++ (if decide (h_complaint_id h = complaint_id) then [h] else []).
Proof.
  unfold history_of. cbn [status_history]. rewrite filter_app. reflexivity.
Qed.

Lemma history_of_complaints (cs cs' : gmap string complaint_row)
    (rows : list history_row) (complaint_id : string) :
  history_of (mkDb cs rows) complaint_id
  = history_of (mkDb cs' rows) complaint_id.
Proof. reflexivity. Qed.

Lemma history_of_deleted (rows : list history_row)
    (cs : gmap string complaint_row) (deleted complaint_id : string) :
  history_of
    (mkDb cs (filter (fun h => h_complaint_id h <> deleted) rows))
    complaint_id
  = if decide (complaint_id = deleted) then []
    else history_of (mkDb cs rows) complaint_id.
Proof.
  unfold history_of. cbn [status_history].
  induction rows as [|h rows IH]; [by destruct (decide _)|].
  rewrite (filter_cons (fun h => h_complaint_id h <> deleted)).
  rewrite (filter_cons (fun h => h_complaint_id h = complaint_id) h rows).
  destruct (decide (complaint_id = deleted)) as [->|Hn].
  - destruct (decide (h_complaint_id h <> deleted)) as [Hne|He];
      [|exact IH].
    rewrite filter_cons, decide_False by done. exact IH.
  - destruct (decide (h_complaint_id h <> deleted)) as [Hne|He].
    + rewrite filter_cons, IH. reflexivity.
    + rewrite IH. rewrite decide_False; [reflexivity|].
      intros E. apply He. congruence.
Qed.

Lemma final_status_snoc (start : option string) (rows : list history_row)
    (h : history_row) :
  final_status start (rows ++ [h]) = Some (h_new_status h).
Proof.
  revert start. induction rows as [|h0 rows IH]; intros start; [reflexivity|].
  apply IH.
Qed.

Lemma chained_snoc (start : option string) (rows : list history_row)
    (h : history_row) :
  chained start rows -> h_old_status h = final_status start rows ->
  chained start (rows ++ [h]).
Proof.
  revert start. induction rows as [|h0 rows IH]; intros start; cbn.
  - intros _ ->. done.
  - intros [H0 Hc] Hh. split; [exact H0|]. by apply IH.
Qed.


(** Registration and lookup. A request with a category and an unused
    identifier is stored and returned as it was given, at status
    Registered, with one history row for the registration; no other
    complaint and no other history changes. Without a category, or with
    an identifier already in use, the call raises and stores nothing. *)
Theorem register_complaint_round_trip (d : db) (complaint : complaint_request)
    (complaint_id : string) (now : Z) :
  match q_category complaint, complaints d !! complaint_id with
  | Some category, None =>
      let stored :=
        mkComplaintResponse complaint_id (q_name complaint)
          (q_mobile complaint) (q_complaint_details complaint)
          (category_value category) REGISTERED now now in
      exists d',
        register_complaint d complaint complaint_id now
        = Some (Found stored, d')
        /\ get_complaint_by_id d' complaint_id = Found stored
        /\ history_of d' complaint_id
           = history_of d complaint_id
             ++ [mkHistory complaint_id None "Registered"
                   (Some "Complaint registered") now]
        /\ delete complaint_id (complaints d')
           = delete complaint_id (complaints d)
        /\ filter (fun h => h_complaint_id h <> complaint_id)
             (status_history d')
           = filter (fun h => h_complaint_id h <> complaint_id)
               (status_history d)
  | _, _ => register_complaint d complaint complaint_id now = None
  end.
Proof.
  unfold register_complaint.
  destruct (q_category complaint) as [category|]; [|reflexivity].
  destruct (complaints d !! complaint_id) as [row|] eqn:Hrow; [reflexivity|].
  cbv zeta.
  assert (Hget : forall h,
            get_complaint_by_id
              (mkDb (<[complaint_id :=
                         mkComplaint (q_name complaint) (q_mobile complaint)
                           (q_complaint_details complaint)
                           (category_value category)
                           (status_value REGISTERED) now now]>
                       (complaints d)) h) complaint_id
            = Found (mkComplaintResponse complaint_id (q_name complaint)
                       (q_mobile complaint) (q_complaint_details complaint)
                       (category_value category) REGISTERED now now)).
  { intros h. unfold get_complaint_by_id. cbn [complaints].
    by rewrite lookup_insert_eq. }
  eexists. split; [by rewrite Hget|].
  split; [apply Hget|].
  split; [|split].
  - rewrite history_of_snoc. cbn [h_complaint_id].
    by rewrite decide_True.
  - cbn [complaints]. by rewrite delete_insert_eq.
  - cbn [status_history]. rewrite filter_app, filter_cons_False, filter_nil.
    + by rewrite app_nil_r.
    + cbn [h_complaint_id]. intros H. by apply H.
Qed.

(** A status update and the lookup after it: the complaint is returned
    with the new status and the time of the update, its other fields as
    they were, and the history of the complaint has one more row. *)
Theorem update_then_lookup (d : db) (complaint_id : string)
    (new_status : ComplaintStatus) (notes : option string) (now : Z)
    (row : complaint_row) :
  complaints d !! complaint_id = Some row ->
  let d' := snd (update_complaint_status d complaint_id new_status notes now)
  in
  get_complaint_by_id d' complaint_id
  = Found (mkComplaintResponse complaint_id (c_name row) (c_mobile row)
             (c_complaint_details row) (c_category row) new_status
             (c_created_at row) now)
  /\ history_of d' complaint_id
     = history_of d complaint_id
       ++ [mkHistory complaint_id (Some (c_status row))
             (status_value new_status) notes now].
Proof.
  intros Hrow. unfold update_complaint_status. rewrite Hrow. cbn [snd].
  split.
  - unfold get_complaint_by_id. cbn [complaints].
    rewrite lookup_insert_eq. cbn [with_status c_status].
    by rewrite status_of_value_status.
  - rewrite history_of_snoc. cbn [h_complaint_id]. by rewrite decide_True.
Qed.

(** Deletion. The flag tells whether the complaint was there; afterwards
    the lookup finds nothing and the complaint has no history row, the
    other complaints and their histories are as before, and a second
    deletion answers False and changes nothing. *)
Theorem delete_complaint_removes (d : db) (complaint_id : string) :
  let d' := snd (delete_complaint d complaint_id) in
  (fst (delete_complaint d complaint_id) = false
   <-> get_complaint_by_id d complaint_id = NotFound)
  /\ get_complaint_by_id d' complaint_id = NotFound
  /\ history_of d' complaint_id = []
  /\ (forall other, other <> complaint_id ->
        complaints d' !! other = complaints d !! other
        /\ history_of d' other = history_of d other)
  /\ delete_complaint d' complaint_id = (false, d').
Proof.
  cbv zeta. unfold delete_complaint. cbn [fst snd].
  split; [|split; [|split; [|split]]].
  - unfold get_complaint_by_id.
    destruct (complaints d !! complaint_id) as [row|]; [|done].
    rewrite bool_decide_true by (by eexists).
    by destruct (status_of_value (c_status row)).
  - unfold get_complaint_by_id. cbn [complaints].
    by rewrite lookup_delete_eq.
  - rewrite history_of_deleted. by rewrite decide_True.
  - intros other Hne. split.
    + cbn [complaints]. by rewrite lookup_delete_ne.
    + rewrite history_of_deleted. by rewrite decide_False.
  - cbn [complaints status_history]. rewrite lookup_delete_eq.
    f_equal. f_equal.
    + apply delete_id. apply lookup_delete_eq.
    + rewrite list_filter_filter. apply list_filter_iff. tauto.
Qed.

End DatabaseOperations.

Section DatabaseInvariant.
Import Database.

Lemma tables_agree_register (d : db) (complaint : complaint_request)
    (complaint_id : string) (now : Z) :
  tables_agree d ->
  tables_agree (apply_operation d (Register complaint complaint_id now)).
Proof.
  intros Hd. cbn [apply_operation]. unfold register_complaint.
  destruct (q_category complaint) as [category|]; [|exact Hd].
  destruct (complaints d !! complaint_id) as [row|] eqn:Hrow; [exact Hd|].
  cbv zeta. intros other. rewrite history_of_snoc.
  cbn [complaints h_complaint_id].
  destruct (decide (complaint_id = other)) as [<-|Hne].
  - rewrite lookup_insert_eq. cbn [c_status].
    pose proof (Hd complaint_id) as Hid. rewrite Hrow in Hid.
    rewrite (history_of_complaints _ (complaints d)).
    replace (history_of (mkDb (complaints d) (status_history d))
               complaint_id) with (@nil history_row)
      by (destruct d; symmetry; exact Hid).
    cbn [app chained final_status h_old_status h_new_status].
    rewrite (status_of_value_status REGISTERED). split; [by eexists|done].
  - rewrite lookup_insert_ne by done. rewrite app_nil_r.
    rewrite (history_of_complaints _ (complaints d)).
    pose proof (Hd other) as Ho. by destruct d.
Qed.

Lemma tables_agree_update (d : db) (complaint_id : string)
    (new_status : ComplaintStatus) (notes : option string) (now : Z) :
  tables_agree d ->
  tables_agree
    (apply_operation d (UpdateStatus complaint_id new_status notes now)).
Proof.
  intros Hd. cbn [apply_operation]. unfold update_complaint_status.
  destruct (complaints d !! complaint_id) as [row|] eqn:Hrow; [|exact Hd].
  cbn [snd]. intros other. rewrite history_of_snoc.
  cbn [complaints h_complaint_id].
  rewrite (history_of_complaints _ (complaints d)).
  replace (mkDb (complaints d) (status_history d)) with d by (by destruct d).
  destruct (decide (complaint_id = other)) as [<-|Hne].
  - rewrite lookup_insert_eq. cbn [with_status c_status].
    pose proof (Hd complaint_id) as Hid. rewrite Hrow in Hid.
    destruct Hid as (_ & Hchain & Hfinal).
    rewrite status_of_value_status, final_status_snoc.
    split; [by eexists|]. split; [|reflexivity].
    apply chained_snoc; [exact Hchain|]. by rewrite Hfinal.
  - rewrite lookup_insert_ne by done. rewrite app_nil_r. apply Hd.
Qed.

Lemma tables_agree_delete (d : db) (complaint_id : string) :
  tables_agree d -> tables_agree (apply_operation d (Delete complaint_id)).
Proof.
  intros Hd. cbn [apply_operation]. unfold delete_complaint. cbn [snd].
  intros other. rewrite history_of_deleted. cbn [complaints].
  destruct (decide (other = complaint_id)) as [->|Hne].
  - by rewrite lookup_delete_eq.
  - rewrite lookup_delete_ne by done.
    rewrite (history_of_complaints _ (complaints d)).
    replace (mkDb (complaints d) (status_history d)) with d
      by (by destruct d).
    apply Hd.
Qed.

Lemma tables_agree_apply (d : db) (op : operation) :
  tables_agree d -> tables_agree (apply_operation d op).
Proof.
  destruct op; [apply tables_agree_register|apply tables_agree_update
               |apply tables_agree_delete].
Qed.

Lemma tables_agree_fold (ops : list operation) (d : db) :
  tables_agree d -> tables_agree (fold_left apply_operation ops d).
Proof.
  revert d. induction ops as [|op ops IH]; intros d Hd; [exact Hd|].
  cbn [fold_left]. by apply IH, tables_agree_apply.
Qed.

(** Whatever registrations, status updates and deletions a database has
    seen since it was empty, its two tables agree: every complaint has a
    valid status, so that its lookup never raises, and a history that
    starts with the registration, is chained from status to status and
    ends at the current status; and there is no history row without its
    complaint. *)
Theorem reachable_tables_agree (ops : list operation) :
  tables_agree (run_operations ops)
  /\ forall complaint_id,
       get_complaint_by_id (run_operations ops) complaint_id
       <> InvalidStatus.
Proof.
  assert (H : tables_agree (run_operations ops)).
  { apply tables_agree_fold. intros complaint_id. reflexivity. }
  split; [exact H|]. intros complaint_id. unfold get_complaint_by_id.
  pose proof (H complaint_id) as Hid.
  destruct (complaints (run_operations ops) !! complaint_id) as [row|];
    [|done].
  destruct Hid as ([status ->] & _). done.
Qed.

End DatabaseInvariant.

Section DatabaseRuns.
Import Database.

Lemma update_then_lookup_witness :
  let d := run_operations
             [Register (mkComplaintRequest "John Smith" "9876543210"
                          "My laptop screen is broken" (Some HARDWARE))
                "CMP9B41CA0F" 100] in
  let d' := snd (update_complaint_status d "CMP9B41CA0F" IN_PROGRESS
                   (Some "Updated by admin") 200) in
  get_complaint_by_id d' "CMP9B41CA0F"
  = Found (mkComplaintResponse "CMP9B41CA0F" "John Smith" "9876543210"
             "My laptop screen is broken" "Hardware" IN_PROGRESS 100 200)
  /\ history_of d' "CMP9B41CA0F"
     = history_of d "CMP9B41CA0F"
       ++ [mkHistory "CMP9B41CA0F" (Some "Registered") "In Progress"
             (Some "Updated by admin") 200].
Proof.
  apply (update_then_lookup
           (run_operations
              [Register (mkComplaintRequest "John Smith" "9876543210"
                           "My laptop screen is broken" (Some HARDWARE))
                 "CMP9B41CA0F" 100])
           "CMP9B41CA0F" IN_PROGRESS (Some "Updated by admin") 200
           (mkComplaint "John Smith" "9876543210"
              "My laptop screen is broken" "Hardware" "Registered" 100 100)).
  vm_compute. reflexivity.
Defined.

End DatabaseRuns.

(** ** Conversations through the state machine *)

Section Conversations.
Import App.

Variable api : list complaint_request -> complaint_request -> api_result.

Lemma truthy_nonempty (s : string) : s <> "" -> truthy (Some s) = true.
Proof. destruct s; [done|reflexivity]. Qed.

Lemma validate_name_nonempty (n : string) :
  validate_name n = true -> truthy (Some n) = true.
Proof.
  intros H. apply truthy_nonempty. intros ->. vm_compute in H. discriminate.
Qed.

Lemma validate_mobile_nonempty (m : string) :
  validate_mobile m = true -> truthy (Some m) = true.
Proof.
  intros H. apply truthy_nonempty. intros ->. vm_compute in H. discriminate.
Qed.

Lemma long_text_nonempty (s : string) :
  (len s <? 10)%nat = false -> truthy (Some s) = true.
Proof.
  intros H. apply truthy_nonempty. intros ->. vm_compute in H. discriminate.
Qed.

Lemma run_store {A : Type} (r : nat) (c : UserContext) (f : unit -> M A)
    (s : session) :
  (store r c ≫= f) s
  = f tt (mkSession (<[r := c]> (heap s)) (user_context s) (llm_handler s)
            (api_calls s)).
Proof. reflexivity. Qed.

(** What one call leaves behind: the context object it was given has not
    gone back a step; and, when that object is the one the session holds
    and has the slots its step counts on ([ready]), a request was sent
    only if it was complete, and the context the session holds afterwards
    has the slots its step counts on. *)
Let outcome (ready : Prop) (s : session) (context : nat) (c : UserContext)
    (s' : session) : Prop :=
  (exists c', heap s' !! context = Some c'
              /\ (step_rank (current_step c) <= step_rank (current_step c'))%nat)
  /\ (ready ->
      (api_calls s' = api_calls s
       \/ exists req, api_calls s' = api_calls s ++ [req]
                      /\ complete_request req = true)
      /\ (exists c', heap s' !! user_context s' = Some c'
                     /\ slots_ready c' = true)).

Lemma process_outcome (ready : Prop) (s0 s : session) (context : nat)
    (c0 c : UserContext) :
  heap s !! context = Some c ->
  api_calls s = api_calls s0 ->
  (ready -> truthy (name c) = true) ->
  (ready -> truthy (mobile c) = true) ->
  (ready -> truthy (complaint_details c) = true) ->
  exists resp s',
    process_complaint_registration api context s = Some (resp, s')
    /\ outcome ready s0 context c0 s'.
Proof.
  intros Hc Hcalls Hn Hm Hd.
  rewrite (process_complaint_registration_run api s context c Hc).
  eexists _, _. split; [reflexivity|].
  unfold outcome, session_after. cbn [heap user_context api_calls].
  set (heap1 := <[context := set_current_step c processing]> (heap s)).
  assert (Hfresh : fresh (dom heap1) <> context).
  { intros E. apply (is_fresh (dom heap1)). rewrite E. unfold heap1.
    rewrite dom_insert_L. set_solver. }
  split; [|intros Hready; split].
  - exists (set_current_step c processing). split.
    + rewrite lookup_insert_ne by exact Hfresh. unfold heap1.
      by rewrite lookup_insert_eq.
    + cbn. destruct (current_step c0); cbn; lia.
  - right. exists (request_for s c). split; [by rewrite Hcalls|].
    unfold complete_request, request_for. cbn [r_name r_mobile
      r_complaint_details]. by rewrite Hn, Hm, Hd.
  - exists UserContext_new. split; [by rewrite lookup_insert_eq|reflexivity].
Qed.

Lemma kept_outcome (ready : Prop) (s : session) (context : nat)
    (c c' : UserContext) :
  (ready -> context = user_context s) ->
  (step_rank (current_step c) <= step_rank (current_step c'))%nat ->
  (ready -> slots_ready c' = true) ->
  outcome ready s context c
    (mkSession (<[context := c']> (heap s)) (user_context s) (llm_handler s)
       (api_calls s)).
Proof.
  intros Hctx Hrank Hready. unfold outcome. cbn [heap user_context api_calls].
  split; [exists c'; by rewrite lookup_insert_eq|].
  intros Hr. split; [by left|]. exists c'.
  rewrite <- (Hctx Hr), lookup_insert_eq. split; [reflexivity|by apply Hready].
Qed.

Lemma step_by_step_outcome (ready : Prop) (user_message : string)
    (extracted_info : extracted) (s0 s : session) (context : nat)
    (c0 c : UserContext) :
  (ready -> context = user_context s0) ->
  heap s = <[context := c]> (heap s0) ->
  user_context s = user_context s0 -> api_calls s = api_calls s0 ->
  llm_handler s = llm_handler s0 ->
  (step_rank (current_step c0) <= step_rank (current_step c))%nat ->
  (ready -> slots_ready c = true) ->
  exists resp s',
    handle_step_by_step_collection api user_message context extracted_info s
    = Some (resp, s')
    /\ outcome ready s0 context c0 s'.
Proof.
  intros Hctx Hheap Huc Hcalls Hllm Hrank Hready.
  assert (Hc : heap s !! context = Some c)
    by (by rewrite Hheap, lookup_insert_eq).
  assert (Hkeep : outcome ready s0 context c0 s).
  { destruct s as [h u l a]. cbn in *. subst h u l a.
    by apply kept_outcome. }
  assert (Hstore : forall c',
            (step_rank (current_step c0) <= step_rank (current_step c'))%nat ->
            (ready -> slots_ready c' = true) ->
            outcome ready s0 context c0
              (mkSession (<[context := c']> (heap s)) (user_context s)
                 (llm_handler s) (api_calls s))).
  { intros c' Hr Hs. rewrite Hheap, insert_insert_eq, Huc, Hllm, Hcalls.
    by apply kept_outcome. }
  assert (Hproc : forall c',
            (ready -> truthy (name c') = true) ->
            (ready -> truthy (mobile c') = true) ->
            (ready -> truthy (complaint_details c') = true) ->
            exists resp s',
              (store context c' ≫= fun _ =>
                 process_complaint_registration api context) s
              = Some (resp, s')
              /\ outcome ready s0 context c0 s').
  { intros c' Hn Hm Hd. rewrite run_store.
    apply (process_outcome ready s0 _ context c0 c'); try done.
    cbn [heap]. by rewrite lookup_insert_eq. }
  unfold handle_step_by_step_collection.
  rewrite run_bind, (run_load _ _ _ Hc).
  unfold slots_ready in Hready.
  destruct (current_step c) eqn:Hstep;
    try (eexists _, _; split; [reflexivity|exact Hkeep]).
  - (* collecting_name *)
    destruct (validate_name _) eqn:Hval;
      [|eexists _, _; split; [reflexivity|exact Hkeep]].
    apply validate_name_nonempty in Hval.
    set (n := get_or (x_name extracted_info) (strip user_message)) in *.
    destruct (truthy (mobile (set_name c (Some n)))) eqn:Hm; cbn [negb].
    + destruct (truthy (complaint_details (set_name c (Some n)))) eqn:Hd;
        cbn [negb].
      * by apply Hproc.
      * rewrite run_store. eexists _, _. split; [reflexivity|].
        apply Hstore; [cbn; cbn in Hrank; lia|]. intros _.
        unfold slots_ready, set_current_step, set_name in *.
        cbn [current_step name mobile complaint_details] in *.
        by rewrite Hval, Hm.
    + rewrite run_store. eexists _, _. split; [reflexivity|].
      apply Hstore; [cbn; cbn in Hrank; lia|]. intros _.
      unfold slots_ready, set_current_step, set_name in *.
      cbn [current_step name mobile complaint_details] in *. exact Hval.
  - (* collecting_mobile *)
    destruct (validate_mobile _) eqn:Hval;
      [|eexists _, _; split; [reflexivity|exact Hkeep]].
    apply validate_mobile_nonempty in Hval.
    set (m := get_or (x_mobile extracted_info) (strip user_message)) in *.
    destruct (truthy (complaint_details (set_mobile c (Some m)))) eqn:Hd;
      cbn [negb].
    + apply Hproc; [exact Hready|by intros _|by intros _].
    + rewrite run_store. eexists _, _. split; [reflexivity|].
      apply Hstore; [cbn; cbn in Hrank; lia|]. intros Hr.
      unfold slots_ready, set_current_step, set_mobile in *.
      cbn [current_step name mobile complaint_details] in *.
      by rewrite (Hready Hr), Hval.
  - (* collecting_details *)
    destruct (len (strip user_message) <? 10)%nat eqn:Hlen;
      [eexists _, _; split; [reflexivity|exact Hkeep]|].
    apply Hproc.
    + intros Hr. specialize (Hready Hr).
      by apply andb_true_iff in Hready as [Hn _].
    + intros Hr. specialize (Hready Hr).
      by apply andb_true_iff in Hready as [_ Hm].
    + intros _. by apply long_text_nonempty.
Qed.


Lemma missing_info_none (c : UserContext) :
  missing_info_of c = [] ->
  truthy (name c) = true /\ truthy (mobile c) = true
  /\ truthy (complaint_details c) = true.
Proof.
  unfold missing_info_of.
  destruct (truthy (name c)), (truthy (mobile c)),
    (truthy (complaint_details c)); cbn; intros H; try discriminate H; auto.
Qed.

Lemma smart_registration_outcome (ready : Prop) (user_message : string)
    (extracted_info : extracted) (s : session) (context : nat)
    (c : UserContext) :
  heap s !! context = Some c ->
  (ready -> context = user_context s) ->
  (ready -> slots_ready c = true) ->
  exists resp s',
    handle_smart_registration api user_message context extracted_info s
    = Some (resp, s')
    /\ outcome ready s context c s'.
Proof.
  intros Hc Hctx Hready.
  destruct (merge_extracted_keeps_set_slots user_message c extracted_info)
    as (Hstep & Hname & Hmobile & _).
  set (c' := merge_extracted user_message c extracted_info) in *.
  assert (Hready' : ready -> slots_ready c' = true).
  { intros Hr. specialize (Hready Hr). unfold slots_ready in *.
    rewrite Hstep. destruct (current_step c); try done.
    - by rewrite (Hname Hready), Hready.
    - apply andb_true_iff in Hready as [Hn Hm].
      by rewrite (Hname Hn), (Hmobile Hm), Hn, Hm. }
  unfold handle_smart_registration.
  rewrite run_bind, (run_load _ _ _ Hc). fold c'. rewrite run_store.
  set (s1 := mkSession (<[context := c']> (heap s)) (user_context s)
               (llm_handler s) (api_calls s)).
  destruct (missing_info_of c') as [|first_missing rest_missing] eqn:Hmiss.
  - destruct (missing_info_none c' Hmiss) as (Hn & Hm & Hd).
    apply (process_outcome ready s s1 context c c'); try done.
    unfold s1. cbn [heap]. by rewrite lookup_insert_eq.
  - destruct (Step_eqb (current_step c') initial) eqn:Hinit.
    + rewrite run_store. eexists _, _. split; [reflexivity|].
      unfold s1. cbn [heap user_context llm_handler api_calls].
      rewrite insert_insert_eq.
      apply kept_outcome; [exact Hctx| |].
      * rewrite <- Hstep. destruct (current_step c'); try discriminate Hinit.
        cbn. lia.
      * intros _. rewrite <- Hmiss. unfold missing_info_of, slots_ready.
        destruct (truthy (name c')) eqn:Hn, (truthy (mobile c')) eqn:Hm,
          (truthy (complaint_details c')); cbn; by rewrite ?Hn, ?Hm.
    + apply (step_by_step_outcome ready user_message extracted_info s s1
               context c c'); try done.
      by rewrite Hstep.
Qed.

(** The current step never goes back: whatever the message, the context
    object the state machine was given stands, after the call, at the
    step it stood at or at a later one in the order initial,
    collecting_name, collecting_mobile, collecting_details,
    collecting_info, processing. *)
Theorem registration_step_never_goes_back (user_message : string)
    (extracted_info : extracted) (s : session) (context : nat)
    (c : UserContext) :
  heap s !! context = Some c ->
  exists resp s' c',
    handle_smart_registration api user_message context extracted_info s
    = Some (resp, s')
    /\ heap s' !! context = Some c'
    /\ (step_rank (current_step c) <= step_rank (current_step c'))%nat.
Proof.
  intros Hc.
  destruct (smart_registration_outcome False user_message extracted_info s
              context c Hc) as (resp & s' & Hrun & (c' & Hc' & Hrank) & _);
    try done.
  by exists resp, s', c'.
Qed.

Lemma conversation_outcome (turns : list (string * extracted)) :
  forall (s : session) (c : UserContext),
    heap s !! user_context s = Some c ->
    slots_ready c = true ->
    Forall (fun req => complete_request req = true) (api_calls s) ->
    exists resps s',
      run_conversation api turns s = Some (resps, s')
      /\ length resps = length turns
      /\ Forall (fun req => complete_request req = true) (api_calls s').
Proof.
  induction turns as [|[user_message extracted_info] turns IH];
    intros s c Hc Hready Hcalls.
  - exists [], s. by repeat split.
  - cbn [run_conversation].
    destruct (smart_registration_outcome True user_message extracted_info s
                (user_context s) c Hc) as (resp & s1 & Hrun & _ & Hout);
      try done.
    destruct (Hout I) as (Hsent & c1 & Hc1 & Hready1).
    rewrite Hrun.
    assert (Hcalls1 : Forall (fun req => complete_request req = true)
                        (api_calls s1)).
    { destruct Hsent as [->|(req & -> & Hreq)]; [exact Hcalls|].
      apply Forall_app. split; [exact Hcalls|by constructor]. }
    destruct (IH s1 c1 Hc1 Hready1 Hcalls1) as (resps & s' & Hrest & Hlen & H).
    rewrite Hrest. exists (resp :: resps), s'.
    split; [reflexivity|]. split; [cbn; by rewrite Hlen|exact H].
Qed.

(** No incomplete submission: in any conversation from a new session,
    whatever the messages and whatever was extracted from them, every
    turn gets a reply and every request sent to the registration
    endpoint has a name, a mobile and details that are not empty. *)
Theorem conversation_requests_complete (turns : list (string * extracted)) :
  exists resps s,
    run_conversation api turns new_session = Some (resps, s)
    /\ length resps = length turns
    /\ Forall (fun req => complete_request req = true) (api_calls s).
Proof.
  apply (conversation_outcome turns new_session UserContext_new).
  - reflexivity.
  - reflexivity.
  - constructor.
Qed.

End Conversations.

Section ConversationRuns.
Import App.

Lemma registration_step_never_goes_back_witness :
  exists resp s' c',
    handle_smart_registration accepting_api "John Smith" 0
      (extract_information "John Smith")
      (mkSession {[ 0%nat := mkUserContext None None None collecting_name ]}
         0 true [])
    = Some (resp, s')
    /\ heap s' !! 0%nat = Some c'
    /\ (step_rank collecting_name <= step_rank (current_step c'))%nat.
Proof.
  apply (registration_step_never_goes_back accepting_api "John Smith"
           (extract_information "John Smith")
           (mkSession
              {[ 0%nat := mkUserContext None None None collecting_name ]}
              0 true [])
           0 (mkUserContext None None None collecting_name)).
  vm_compute. reflexivity.
Defined.

(** A conversation in four turns: the request, the name, the mobile and
    the details; one complete request is sent at the end. *)
Example conversation_in_four_turns :
  let turns :=
    map (fun m => (m, extract_information m))
      ["I want to register a complaint"; "John Smith"; "9876543210";
       "The printer jams often"] in
  (api_calls <$> (snd <$> run_conversation accepting_api turns new_session))
  = Some [mkRequest (Some "John Smith") (Some "9876543210")
            (Some "The printer jams often") "Other"].
Proof. vm_compute. reflexivity. Qed.

End ConversationRuns.

Section DominantMode.
Import App.

(** The dominant sentiment is a mode of the history: with a history that
    is not empty, [get_contextual_insights] returns a label that occurs
    in the history and that no label outnumbers; with an empty history
    it returns "neutral". *)
Theorem dominant_sentiment_is_mode
    (set_iteration : list string -> list string) (m : memory) :
  is_set_of (sentiment_history m) (set_iteration (sentiment_history m))
  = true ->
  exists i,
    get_contextual_insights set_iteration m = Some (i, m)
    /\ match sentiment_history m with
       | [] => dominant_sentiment i = "neutral"
       | _ =>
           In (dominant_sentiment i) (sentiment_history m)
           /\ forall label,
                (count label (sentiment_history m)
                 <= count (dominant_sentiment i) (sentiment_history m))%nat
       end.
Proof.
  intros Hset. unfold get_contextual_insights.
  destruct (sentiment_history m) as [|h t] eqn:E.
  - cbn [dominant_of]. eexists. split; reflexivity.
  - destruct (dominant_is_mode set_iteration (h :: t) ltac:(done) Hset)
      as (d & Hd & Hin & Hmax).
    rewrite Hd. eexists. split; [reflexivity|]. cbn [dominant_sentiment].
    split; [exact Hin|]. intros label.
    destruct (mem label (h :: t)) eqn:Hmem; [by apply Hmax, mem_In|].
    assert (Hl : ~ In label (h :: t)).
    { intros H. apply mem_In in H. congruence. }
    assert (Hzero : count label (h :: t) = 0%nat).
    { unfold count. clear -Hl. induction (h :: t) as [|y l IH];
        [reflexivity|].
      rewrite filter_cons. destruct (decide _) as [Hy|Hy].
      - exfalso. apply Hl. left. by apply String.eqb_eq.
      - apply IH. intros H. apply Hl. by right. }
    lia.
Qed.

Lemma dominant_sentiment_is_mode_witness :
  let m := mkMemory None None None [] [] false
             ["neutral"; "urgent"; "negative"; "urgent"] [] in
  exists i,
    get_contextual_insights first_occurrences m = Some (i, m)
    /\ (In (dominant_sentiment i) (sentiment_history m)
        /\ forall label,
             (count label (sentiment_history m)
              <= count (dominant_sentiment i) (sentiment_history m))%nat).
Proof.
  apply (dominant_sentiment_is_mode first_occurrences
           (mkMemory None None None [] [] false
              ["neutral"; "urgent"; "negative"; "urgent"] [])).
  vm_compute. reflexivity.
Defined.

End DominantMode.

(** ** The mobile validator *)

Section MobileValidator.
Import Re App.

Lemma lstrip_chars_head (l : list ascii) (c : ascii) (t : list ascii) :
  lstrip_chars l = c :: t -> is_space c = false.
Proof.
  induction l as [|a l IH]; cbn [lstrip_chars]; [discriminate|].
  destruct (is_space a) eqn:Ha; [exact IH|]. by intros [= <- _].
Qed.

(** Trimmed text does not end in white space. *)
Lemma strip_chars_last (l : list ascii) (z : ascii) :
  last (strip_chars l) = Some z -> is_space z = false.
Proof.
  unfold strip_chars.
  destruct (lstrip_chars (rev (lstrip_chars l))) as [|c t] eqn:E;
    [discriminate|].
  cbn [rev]. rewrite last_snoc. intros [= <-].
  by apply (lstrip_chars_head _ _ _ E).
Qed.

Lemma digit_not_plus (d : ascii) :
  between 49 57 d = true -> Ascii.eqb d "+" = false /\ is_digit d = true.
Proof.
  destruct d as [[] [] [] [] [] [] [] []]; vm_compute; intros H;
    (discriminate H || auto).
Qed.

Lemma mobile_pattern_sound (p : option ascii) (text : list ascii)
    (m : rmatch) :
  match_here mobile_pattern p text = Some m ->
  exists sign d ds tail,
    text = sign ++ d :: ds ++ tail
    /\ (sign = [] \/ sign = ["+"%char])
    /\ between 49 57 d = true /\ forallb is_digit ds = true
    /\ (9 <= length ds <= 14)%nat
    /\ (tail = [] \/ tail = ["010"%char]).
Proof.
  intros H. apply match_here_sound in H as (st' & Hs & _).
  unfold mobile_pattern, opt, rep, chr, digit in Hs. cbn [cat] in Hs.
  inversion Hs as [| |r1 r2 st0 st1 st2 Hbol Hbody| | | | | | | |]; subst.
  inversion Hbol; subst. clear Hs Hbol.
  apply steps_cat_rep_cls in Hbody as (sign & sa & E1 & Hsign & Hn1 & Hbody).
  apply steps_cat_cls in Hbody as (d & l1 & E2 & Hd & Hbody).
  apply steps_cat_rep_cls in Hbody as (ds & sb & E3 & Hds & Hn2 & Hbody).
  inversion Hbody as [| | | | | | | | |st Heol|]; subst.
  cbn [rest] in *.
  exists sign, d, ds, (rest st'). split; [by rewrite E1, E2, E3|].
  split; [|split; [exact Hd|split; [exact Hds|split; [exact Hn2|]]]].
  - destruct sign as [|c [|c' sign]]; [by left| |cbn in Hn1; lia].
    right. cbn [forallb] in Hsign. rewrite andb_true_r in Hsign.
    apply Ascii.eqb_eq in Hsign. by subst.
  - unfold at_eol in Heol. destruct (rest st') as [|c [|c' t]];
      [by left| |discriminate].
    right. apply Ascii.eqb_eq in Heol. by subst.
Qed.

Lemma mobile_pattern_complete (sign ds : list ascii)
    (d : ascii) :
  (sign = [] \/ sign = ["+"%char]) ->
  between 49 57 d = true -> forallb is_digit ds = true ->
  (9 <= length ds <= 14)%nat ->
  is_Some (match_here mobile_pattern None (sign ++ d :: ds)).
Proof.
  intros Hsign Hd Hds Hn.
  destruct (steps_rep_cls_run (Ascii.eqb "+") sign 0 (Some 1) None
              (d :: ds) None) as [p1 H1].
  { destruct Hsign as [->| ->]; reflexivity. }
  { lia. }
  { intros h [= <-]. destruct Hsign as [->| ->]; cbn; lia. }
  destruct (steps_rep_cls_run is_digit ds 9 (Some 14) (Some d) [] None)
    as [p2 H2]; [exact Hds|lia|intros h [= <-]; lia|].
  rewrite app_nil_r in H2.
  eapply match_here_complete.
  unfold mobile_pattern, opt, rep, chr, digit. cbn [cat].
  eapply steps_cat; [by apply steps_bol|].
  eapply steps_cat; [exact H1|].
  eapply steps_cat;
    [by apply (steps_cls (between 49 57) d ds
                 (MState p1 (d :: ds) None))|].
  eapply steps_cat; [exact H2|]. by apply steps_eol.
Qed.

(** [validate_mobile] accepts exactly the strings that, once trimmed,
    are an optional [+], a digit from 1 to 9 and 9 to 14 more digits. *)
Theorem validate_mobile_shape (mobile : string) :
  validate_mobile mobile = mobile_shape (chars (strip mobile)).
Proof.
  unfold validate_mobile, re_match.
  set (text := chars (strip mobile)).
  destruct (mobile_shape text) eqn:Hshape.
  - apply bool_decide_eq_true. unfold mobile_shape in Hshape.
    assert (Hcase : exists sign d ds,
              text = sign ++ d :: ds
              /\ (sign = [] \/ sign = ["+"%char])
              /\ between 49 57 d = true /\ forallb is_digit ds = true
              /\ (9 <= length ds <= 14)%nat).
    { assert (Hdig : forall digits,
                match digits with
                | d :: ds =>
                    between 49 57 d && forallb is_digit ds
                    && (9 <=? length ds)%nat && (length ds <=? 14)%nat
                | [] => false
                end = true ->
                exists d ds, digits = d :: ds /\ between 49 57 d = true
                  /\ forallb is_digit ds = true
                  /\ (9 <= length ds <= 14)%nat).
      { intros [|d ds] H; [discriminate|].
        apply andb_true_iff in H as [H Hhi].
        apply andb_true_iff in H as [H Hlo].
        apply andb_true_iff in H as [Hd Hds].
        apply Nat.leb_le in Hlo, Hhi. by exists d, ds. }
      destruct text as [|c t]; [discriminate|].
      destruct (Ascii.eqb c "+") eqn:Hc.
      - apply Ascii.eqb_eq in Hc. subst c.
        destruct (Hdig _ Hshape) as (d & ds & -> & Hd & Hds & Hn).
        exists ["+"%char], d, ds.
        split; [reflexivity|]. split; [by right|done].
      - destruct (Hdig (c :: t) Hshape) as (d & ds & E & Hd & Hds & Hn).
        exists [], d, ds.
        split; [exact E|]. split; [by left|done]. }
    destruct Hcase as (sign & d & ds & Htext & Hsign & Hd & Hds & Hn).
    rewrite Htext. by apply mobile_pattern_complete.
  - apply bool_decide_eq_false. intros [m Hm].
    apply mobile_pattern_sound in Hm
      as (sign & d & ds & tail & Htext & Hsign & Hd & Hds & Hn & Htail).
    assert (Hnil : tail = []).
    { destruct Htail as [->| ->]; [reflexivity|]. exfalso.
      assert (Hlast : last text = Some "010"%char).
      { rewrite Htext.
        change (sign ++ d :: ds ++ ["010"%char])
          with (sign ++ (d :: ds) ++ ["010"%char]).
        by rewrite !last_app. }
      unfold text, strip in Hlast. rewrite chars_of_chars in Hlast.
      apply strip_chars_last in Hlast. discriminate Hlast. }
    subst tail. rewrite app_nil_r in Htext.
    assert (Htrue : mobile_shape text = true); [|congruence].
    rewrite Htext. unfold mobile_shape.
    destruct (digit_not_plus d Hd) as [Hplus _].
    destruct Hn as [Hlo Hhi].
    apply Nat.leb_le in Hlo, Hhi.
    destruct Hsign as [->| ->]; cbn [app].
    + by rewrite Hplus, Hd, Hds, Hlo, Hhi.
    + change (Ascii.eqb "+" "+") with true. cbn iota.
      by rewrite Hd, Hds, Hlo, Hhi.
Qed.



Lemma len_chars (s : string) : length (chars s) = len s.
Proof.
  unfold chars, len. induction s as [|c s IH]; cbn; congruence.
Qed.



Lemma validate_mobile_shape_examples :
  validate_mobile " +919876543210 " = true
  /\ validate_mobile "0123456789" = false
  /\ validate_mobile "98765 43210" = false
  /\ validate_mobile "1234567890123456" = false.
Proof. vm_compute. auto. Qed.

End MobileValidator.

(** ** The contextual response is that of the best match *)

Section ContextualResponse.
Import RAGSystem.

Variable similarity : string -> list Q.
Variable argsort : list Q -> list nat.

Lemma nodupb_inv (l : list nat) : nodupb l = true -> List.NoDup l.
Proof.
  induction l as [|x tl IH]; intros H; [constructor|].
  cbn [nodupb] in H. apply andb_true_iff in H as [Hx Htl].
  constructor; [|by apply IH].
  intros Hin. apply negb_true_iff in Hx.
  assert (existsb (Nat.eqb x) tl = true); [|congruence].
  apply existsb_exists. exists x. split; [exact Hin|apply Nat.eqb_refl].
Qed.

(** An argsort lists every index. *)
Lemma argsort_lists_all (similarities : list Q) (order : list nat) (i : nat) :
  is_argsort similarities order = true ->
  (i < length similarities)%nat -> In i order.
Proof.
  unfold is_argsort. intros H Hi.
  apply andb_true_iff in H as [H _].
  apply andb_true_iff in H as [H Hnodup].
  apply andb_true_iff in H as [Hlen Hvalid].
  apply Nat.eqb_eq in Hlen. apply nodupb_inv in Hnodup.
  rewrite forallb_forall in Hvalid.
  apply (NoDup_length_incl (l := order) (l' := seq 0 (length similarities))).
  - exact Hnodup.
  - rewrite length_seq. lia.
  - intros j Hj. apply in_seq. apply Hvalid, Nat.ltb_lt in Hj. lia.
  - apply in_seq. lia.
Qed.

(** Indices at or below the threshold give no entry. *)
Lemma relevant_entries_below (similarities : list Q) (top_indices : list nat) :
  Forall (fun i => (i < length similarities)%nat
                   /\ gtb (score_at similarities i) similarity_threshold
                      = false) top_indices ->
  relevant_entries similarities top_indices = Some [].
Proof.
  induction 1 as [|i tl [Hi Hlow] _ IH]; [reflexivity|].
  cbn [relevant_entries].
  by rewrite (lookup_score_at _ _ Hi), Hlow.
Qed.

Lemma gtb_le_false (a b c : Q) :
  (a <= b)%Q -> gtb b c = false -> gtb a c = false.
Proof.
  unfold gtb. intros Hab H. apply negb_false_iff in H.
  apply negb_false_iff. apply Qle_bool_iff in H. apply Qle_bool_iff.
  by apply (Qle_trans _ b).
Qed.

(** [get_contextual_response] gives the default answer, of category
    Other, exactly when no similarity is above 0.3; otherwise it answers
    from a knowledge-base entry whose similarity no other exceeds. *)
Theorem get_contextual_response_best (complaint_details : string) :
  length (similarity complaint_details) = length knowledge_base ->
  is_argsort (similarity complaint_details)
    (argsort (similarity complaint_details)) = true ->
  exists r,
    get_contextual_response similarity argsort complaint_details = Some r
    /\ if forallb (fun s => Qle_bool s similarity_threshold)
            (similarity complaint_details)
       then r = default_response
       else exists i e s,
              knowledge_base !! i = Some e
              /\ similarity complaint_details !! i = Some s
              /\ r = mkContextual (response e) (category e)
                       (typical_resolution_time e) (follow_up_questions e)
                       (Some s)
              /\ gtb s similarity_threshold = true
              /\ Forall (fun s' => (s' <= s)%Q)
                   (similarity complaint_details).
Proof.
  intros Hlen Hsort.
  unfold get_contextual_response, find_relevant_context.
  set (sims := similarity complaint_details) in *.
  set (order := argsort sims) in *.
  pose proof (argsort_lists_all sims order) as Hall.
  specialize (fun i => Hall i Hsort).
  unfold is_argsort in Hsort.
  apply andb_true_iff in Hsort as [Hsort Hasc].
  apply andb_true_iff in Hsort as [Hsort _].
  apply andb_true_iff in Hsort as [Hlen' Hvalid].
  apply Nat.eqb_eq in Hlen'.
  assert (Hvalid' : Forall (fun i => (i < length sims)%nat) order).
  { apply List.Forall_forall. intros i Hi.
    rewrite forallb_forall in Hvalid. by apply Nat.ltb_lt, Hvalid. }
  pose proof (argsort_earlier sims order Hvalid' Hasc) as Hearlier.
  apply strongly_sorted_rev in Hearlier.
  assert (Hslice : slice_from (Z.opp 3) order = drop 3 order).
  { unfold slice_from. rewrite Hlen', Hlen. reflexivity. }
  rewrite Hslice.
  assert (Hrev : rev order = rev (drop 3 order) ++ rev (take 3 order)).
  { rewrite <- rev_app_distr. by rewrite take_drop. }
  assert (Htop : length (rev (drop 3 order)) = 3%nat).
  { rewrite length_rev, length_drop, Hlen', Hlen. reflexivity. }
  destruct (rev (drop 3 order)) as [|i tl] eqn:Etop; [discriminate Htop|].
  rewrite Hrev in Hearlier. cbn [app] in Hearlier.
  apply StronglySorted_inv in Hearlier as [Htl Hi].
  rewrite List.Forall_forall in Hi.
  assert (Hin : forall j, In j order <-> j = i \/ In j (tl ++ rev (take 3 order))).
  { intros j. rewrite (in_rev order), Hrev. cbn [app In]. intuition. }
  rewrite List.Forall_forall in Hvalid'.
  assert (Hi_valid : (i < length sims)%nat).
  { apply Hvalid', Hin. by left. }
  assert (Hmax : forall j, (j < length sims)%nat ->
             (score_at sims j <= score_at sims i)%Q).
  { intros j Hj. apply Hall, Hin in Hj as [->|Hj]; [apply Qle_refl|].
    by apply Hi. }
  assert (Htl_valid : Forall (fun j => (j < length sims)%nat) tl).
  { apply List.Forall_forall. intros j Hj. apply Hvalid', Hin.
    right. apply in_or_app. by left. }
  assert (Hmax_all : Forall (fun s' => (s' <= score_at sims i)%Q) sims).
  { apply Forall_lookup. intros j s' Hj.
    pose proof (lookup_lt_Some _ _ _ Hj) as Hlt.
    rewrite (lookup_score_at _ _ Hlt) in Hj. injection Hj as <-.
    by apply Hmax. }
  cbn [relevant_entries]. rewrite (lookup_score_at _ _ Hi_valid).
  destruct (gtb (score_at sims i) similarity_threshold) eqn:Ehigh.
  - destruct (knowledge_base !! i) as [e|] eqn:Ee;
      [|apply lookup_ge_None in Ee; lia].
    assert (Htl_sorted :
              StronglySorted
                (fun a b => (score_at sims b <= score_at sims a)%Q) tl).
    { revert Htl. clear. generalize (rev (take 3 order)).
      induction tl as [|a tl IH]; intros l H; [constructor|].
      cbn [app] in H. apply StronglySorted_inv in H as [H Ha].
      constructor; [by apply (IH l)|].
      apply Forall_app in Ha as [Ha _]. exact Ha. }
    destruct (relevant_entries_ordered sims tl ltac:(lia) Htl_valid
                Htl_sorted) as (r' & -> & _).
    eexists. split; [reflexivity|]. cbn [entry similarity_score].
    destruct (forallb _ sims) eqn:Eall.
    + rewrite forallb_forall in Eall.
      assert (Hle : Qle_bool (score_at sims i) similarity_threshold = true).
      { apply Eall. apply list_elem_of_In.
        apply (list_elem_of_lookup_2 _ i). by apply lookup_score_at. }
      unfold gtb in Ehigh. rewrite Hle in Ehigh. discriminate Ehigh.
    + exists i, e, (score_at sims i).
      split; [exact Ee|]. split; [by apply lookup_score_at|].
      split; [reflexivity|]. split; [exact Ehigh|exact Hmax_all].
  - rewrite (relevant_entries_below sims tl).
    + eexists. split; [reflexivity|].
      destruct (forallb _ sims) eqn:Eall; [reflexivity|].
      assert (forallb (fun s => Qle_bool s similarity_threshold) sims = true);
        [|congruence].
      apply forallb_forall. intros s' Hs'.
      rewrite List.Forall_forall in Hmax_all. specialize (Hmax_all s' Hs').
      unfold gtb in Ehigh. apply negb_false_iff in Ehigh.
      apply Qle_bool_iff in Ehigh. apply Qle_bool_iff.
      by apply (Qle_trans _ (score_at sims i)).
    + apply List.Forall_forall. intros j Hj.
      rewrite List.Forall_forall in Htl_valid.
      split; [by apply Htl_valid|].
      apply (gtb_le_false _ (score_at sims i)); [|exact Ehigh].
      apply Hmax. by apply Htl_valid.
Qed.

End ContextualResponse.

Section ContextualResponseRuns.
Import RAGSystem.

Lemma get_contextual_response_best_witness :
  let similarity := fun _ : string => [0.1; 0.5; 0.9; 0.2; 0.31; 0.3]%Q in
  exists r,
    get_contextual_response similarity insertion_argsort "wifi is slow"
    = Some r
    /\ if forallb (fun s => Qle_bool s similarity_threshold)
            (similarity "wifi is slow")
       then r = default_response
       else exists i e s,
              knowledge_base !! i = Some e
              /\ similarity "wifi is slow" !! i = Some s
              /\ r = mkContextual (response e) (category e)
                       (typical_resolution_time e) (follow_up_questions e)
                       (Some s)
              /\ gtb s similarity_threshold = true
              /\ Forall (fun s' => (s' <= s)%Q) (similarity "wifi is slow").
Proof.
  apply (get_contextual_response_best
           (fun _ => [0.1; 0.5; 0.9; 0.2; 0.31; 0.3]%Q) insertion_argsort
           "wifi is slow").
  - reflexivity.
  - vm_compute. reflexivity.
Defined.

End ContextualResponseRuns.

(** ** The similar complaints are the best five above the threshold *)

Section SimilarComplaints.
Import Database RAGSystem.

Variable complaint_similarity : string -> list string -> list Q.

Let by_score (a b : similar_complaint) : Prop :=
  (sc_similarity_score b <= sc_similarity_score a)%Q.

(** The loop keeps the complaints whose similarity is above the
    threshold, each with its similarity. *)
Lemma similar_above_spec (complaints : list (string * complaint_row))
    (similarities : list Q) (i : nat) :
  (i + length similarities <= length complaints)%nat ->
  exists l,
    similar_above complaints i similarities = Some l
    /\ forall s,
         In s l <->
         exists j c similarity,
           similarities !! j = Some similarity
           /\ complaints !! (i + j)%nat = Some c
           /\ gtb similarity complaint_threshold = true
           /\ s = similar_entry c similarity.
Proof.
  revert i. induction similarities as [|x tl IH]; intros i Hlen.
  - exists []. split; [reflexivity|]. intros s. split; [intros []|].
    intros (j & c & y & Hj & _). discriminate Hj.
  - cbn [length] in Hlen.
    destruct (IH (S i) ltac:(lia)) as (l & Hl & Hspec).
    cbn [similar_above]. rewrite Hl.
    destruct (complaints !! i) as [c0|] eqn:Ei;
      [|apply lookup_ge_None in Ei; lia].
    destruct (gtb x complaint_threshold) eqn:Ex.
    + eexists. split; [reflexivity|]. intros s. cbn [In]. rewrite Hspec.
      split.
      * intros [<-|(j & c & y & Hj & Hc & Hy & ->)].
        -- exists 0%nat, c0, x.
           rewrite Nat.add_0_r. by repeat split.
        -- exists (S j), c, y. rewrite Nat.add_succ_r. by repeat split.
      * intros ([|j] & c & y & Hj & Hc & Hy & ->).
        -- left. rewrite Nat.add_0_r, Ei in Hc.
           injection Hj as <-. injection Hc as <-. reflexivity.
        -- right. exists j, c, y. rewrite Nat.add_succ_r in Hc.
           by repeat split.
    + exists l. split; [reflexivity|]. intros s. rewrite Hspec. split.
      * intros (j & c & y & Hj & Hc & Hy & ->).
        exists (S j), c, y. rewrite Nat.add_succ_r. by repeat split.
      * intros ([|j] & c & y & Hj & Hc & Hy & ->).
        -- injection Hj as <-. congruence.
        -- exists j, c, y. rewrite Nat.add_succ_r in Hc. by repeat split.
Qed.

Lemma insert_by_score_perm (x : similar_complaint)
    (sorted : list similar_complaint) :
  Permutation (insert_by_score x sorted) (x :: sorted).
Proof.
  induction sorted as [|y tl IH]; cbn [insert_by_score]; [reflexivity|].
  destruct (Qle_bool _ _); [|reflexivity].
  rewrite IH. apply perm_swap.
Qed.

Lemma insert_by_score_sorted (x : similar_complaint)
    (sorted : list similar_complaint) :
  StronglySorted by_score sorted ->
  StronglySorted by_score (insert_by_score x sorted).
Proof.
  induction 1 as [|y tl Htl IH Hy]; cbn [insert_by_score].
  - repeat constructor.
  - destruct (Qle_bool (sc_similarity_score x) (sc_similarity_score y))
      eqn:E.
    + constructor; [exact IH|].
      rewrite (insert_by_score_perm x tl). constructor; [|exact Hy].
      by apply Qle_bool_iff.
    + assert (Hxy : by_score x y).
      { unfold by_score. apply Qlt_le_weak, Qnot_le_lt. intros H.
        apply Qle_bool_iff in H. congruence. }
      constructor; [by constructor|].
      constructor; [exact Hxy|].
      apply (Forall_impl _ _ _ Hy). intros z Hz. unfold by_score in *.
      by apply (Qle_trans _ (sc_similarity_score y)).
Qed.

Lemma sort_by_score_sorted (l : list similar_complaint) :
  StronglySorted by_score (sort_by_score l)
  /\ Permutation (sort_by_score l) l.
Proof.
  unfold sort_by_score.
  assert (H : forall acc,
             StronglySorted by_score acc ->
             let r := fold_left (fun acc x => insert_by_score x acc) l acc in
             StronglySorted by_score r /\ Permutation r (l ++ acc)).
  { induction l as [|x l IH]; intros acc Hacc; cbn [fold_left].
    - split; [exact Hacc|reflexivity].
    - destruct (IH _ (insert_by_score_sorted x acc Hacc)) as [Hs Hp].
      split; [exact Hs|].
      rewrite Hp, insert_by_score_perm. cbn [app].
      symmetry. apply Permutation_middle. }
  destruct (H [] ltac:(constructor)) as [Hs Hp].
  rewrite app_nil_r in Hp. by split.
Qed.

Lemma strongly_sorted_app {A : Type} (R : A -> A -> Prop) (l1 l2 : list A) :
  StronglySorted R (l1 ++ l2) ->
  StronglySorted R l1 /\ forall a b, In a l1 -> In b l2 -> R a b.
Proof.
  induction l1 as [|x l1 IH]; cbn [app]; intros H.
  - split; [constructor|]. intros a b [].
  - apply StronglySorted_inv in H as [H Hx].
    destruct (IH H) as [Hl1 Hcross].
    apply Forall_app in Hx as [Hx1 Hx2].
    split; [by constructor|].
    intros a b [<-|Ha] Hb; [|by apply Hcross].
    rewrite List.Forall_forall in Hx2. by apply Hx2.
Qed.

(** [get_similar_complaints] returns at most five complaints, in
    non-increasing order of similarity, each a fetched complaint with a
    similarity above 0.4; a fetched complaint above 0.4 that is left out
    is left out of a full list of five, none of which is less similar. *)
Theorem get_similar_complaints_top (complaint_details : string)
    (complaints : list (string * complaint_row)) :
  let similarities :=
    complaint_similarity complaint_details
      (map (fun c => c_complaint_details (snd c)) complaints) in
  let r :=
    get_similar_complaints complaint_similarity complaint_details
      complaints in
  length similarities = length complaints ->
  (length r <= 5)%nat
  /\ descending (map sc_similarity_score r) = true
  /\ (forall s, In s r ->
        exists i c,
          complaints !! i = Some c
          /\ similarities !! i = Some (sc_similarity_score s)
          /\ gtb (sc_similarity_score s) complaint_threshold = true
          /\ s = similar_entry c (sc_similarity_score s))
  /\ (forall i c similarity,
        complaints !! i = Some c ->
        similarities !! i = Some similarity ->
        gtb similarity complaint_threshold = true ->
        In (similar_entry c similarity) r
        \/ (length r = 5%nat
            /\ forall s, In s r ->
                 (similarity <= sc_similarity_score s)%Q)).
Proof.
  intros similarities r Hlen. subst r similarities.
  unfold get_similar_complaints.
  destruct complaints as [|c0 rest].
  { split; [cbn; lia|]. split; [reflexivity|].
    split; [intros s []|]. intros i c y Hc. discriminate Hc. }
  remember (c0 :: rest) as complaints eqn:Ecs. clear Ecs c0 rest.
  set (similarities :=
         complaint_similarity complaint_details
           (map (fun c => c_complaint_details (snd c)) complaints)) in *.
  destruct (similar_above_spec complaints similarities 0 ltac:(lia))
    as (l & -> & Hspec).
  destruct (sort_by_score_sorted l) as [Hsorted Hperm].
  set (sorted := sort_by_score l) in *.
  rewrite <- (take_drop 5 sorted) in Hsorted.
  apply strongly_sorted_app in Hsorted as [Htake Hcross].
  assert (Hin : forall s, In s sorted <-> In s l).
  { intros s. split; apply Permutation_in; [exact Hperm|by symmetry]. }
  split; [rewrite length_take; lia|].
  split.
  { apply sorted_descending.
    clear -Htake. induction Htake as [|a tl _ IH Ha]; [constructor|].
    cbn [map]. constructor; [exact IH|].
    rewrite List.Forall_forall in Ha. apply List.Forall_forall.
    intros q Hq. apply in_map_iff in Hq as (b & <- & Hb). by apply Ha. }
  split.
  - intros s Hs.
    assert (Hs' : In s l).
    { apply Hin. rewrite <- (take_drop 5 sorted). apply in_or_app.
      by left. }
    apply Hspec in Hs' as (j & c & y & Hj & Hc & Hy & ->).
    exists j, c. cbn [similar_entry sc_similarity_score]. by repeat split.
  - intros i c y Hc Hy Habove.
    assert (Hs : In (similar_entry c y) sorted).
    { apply Hin, Hspec. exists i, c, y. by repeat split. }
    rewrite <- (take_drop 5 sorted) in Hs.
    apply in_app_or in Hs as [Hs|Hs]; [by left|right].
    split.
    + rewrite length_take. destruct (drop 5 sorted) eqn:Ed; [destruct Hs|].
      assert (length (drop 5 sorted) <> 0)%nat by (rewrite Ed; discriminate).
      rewrite length_drop in H. lia.
    + intros s Hs'. apply (Hcross s _ Hs' Hs).
Qed.

End SimilarComplaints.

Section SimilarComplaintsRuns.
Import Database RAGSystem.

Lemma get_similar_complaints_top_witness :
  let complaint_similarity := fun (_ : string) (texts : list string) =>
    map (fun text => if String.eqb text "wifi is down" then 0.9 else 0.1)%Q
      texts in
  let complaints :=
    [("CMP0000000A",
      mkComplaint "Asha Rao" "9876543210" "wifi is down" "Network"
        "Registered" 1 1);
     ("CMP0000000B",
      mkComplaint "Ravi Kumar" "9876543211" "wrong invoice" "Billing"
        "Registered" 2 2)] in
  let r :=
    get_similar_complaints complaint_similarity "no wifi" complaints in
  (length r <= 5)%nat
  /\ descending (map sc_similarity_score r) = true.
Proof.
  intros complaint_similarity complaints r.
  destruct (get_similar_complaints_top complaint_similarity "no wifi"
              complaints) as (Hlen & Hdesc & _).
  - reflexivity.
  - split; [exact Hlen|exact Hdesc].
Defined.

End SimilarComplaintsRuns.

(** ** What the conversation memory keeps *)

Section MemoryRuns.
Import App.

Lemma memory_after_snoc (interactions : list interaction) (a : interaction) :
  memory_after (interactions ++ [a])
  = remember (memory_after interactions) a.
Proof. unfold memory_after. by rewrite fold_left_app. Qed.

Lemma slice_from_last {A : Type} (n : nat) (l : list A) :
  slice_from (- Z.of_nat (S n)) l = drop (length l - S n) l.
Proof.
  unfold slice_from.
  destruct (- Z.of_nat (S n) <? 0)%Z eqn:E; [|apply Z.ltb_ge in E; lia].
  f_equal. lia.
Qed.

(** The context stack holds the last five interactions, oldest first,
    while the histories of intents and sentiments hold one entry for
    every interaction. *)
Theorem context_stack_keeps_last_five (interactions : list interaction) :
  let m := memory_after interactions in
  context_stack m = slice_from (-5) (map turn_of interactions)
  /\ length (context_stack m) = Nat.min 5 (length interactions)
  /\ previous_intents m
     = map (fun a => analyze_intent (a_user_message a)) interactions
  /\ sentiment_history m
     = map (fun a => analyze_sentiment (a_user_message a)) interactions
  /\ current_intent m = last (previous_intents m).
Proof.
  cbn zeta.
  assert (Hstack : context_stack (memory_after interactions)
                   = slice_from (-5) (map turn_of interactions)).
  { induction interactions as [|a interactions IH] using rev_ind;
      [reflexivity|].
    rewrite memory_after_snoc, map_app. cbn [map].
    unfold remember, update_memory. cbn [context_stack].
    fold (turn_of a). rewrite IH.
    change (-5)%Z with (- Z.of_nat 5)%Z. rewrite !slice_from_last.
    set (l := map turn_of interactions).
    rewrite !length_app, length_drop. cbn [length].
    destruct (5 <? length l - (length l - 5) + 1)%nat eqn:E.
    - apply Nat.ltb_lt in E.
      rewrite drop_app_le by (rewrite length_drop; lia).
      rewrite drop_drop.
      rewrite (drop_app_le l) by lia. do 2 f_equal. lia.
    - apply Nat.ltb_ge in E.
      rewrite (drop_app_le l) by lia. do 2 f_equal. lia. }
  split; [exact Hstack|].
  split.
  { rewrite Hstack. change (-5)%Z with (- Z.of_nat 5)%Z.
    rewrite slice_from_last, length_drop, length_map. lia. }
  assert (Hintents : previous_intents (memory_after interactions)
                     = map (fun a => analyze_intent (a_user_message a))
                         interactions).
  { clear Hstack.
    induction interactions as [|a interactions IH] using rev_ind;
      [reflexivity|].
    rewrite memory_after_snoc, map_app. cbn [map].
    unfold remember, update_memory. cbn [previous_intents]. by rewrite IH. }
  split; [exact Hintents|].
  split.
  - clear Hstack Hintents.
    induction interactions as [|a interactions IH] using rev_ind;
      [reflexivity|].
    rewrite memory_after_snoc, map_app. cbn [map].
    unfold remember, update_memory. cbn [sentiment_history]. by rewrite IH.
  - clear Hstack Hintents.
    destruct interactions as [|a interactions _] using rev_ind;
      [reflexivity|].
    rewrite memory_after_snoc.
    unfold remember, update_memory. cbn [current_intent previous_intents].
    by rewrite last_snoc.
Qed.

(** The first name and the first mobile that an extraction gives are
    kept in the profile for the rest of the conversation. *)
Theorem profile_keeps_first_values (interactions : list interaction) :
  let m := memory_after interactions in
  let first_of (field : extracted -> option string) :=
    default None
      (List.find truthy (map (fun a => field (a_extracted_info a))
                           interactions)) in
  profile_name m = first_of x_name /\ profile_mobile m = first_of x_mobile.
Proof.
  cbn zeta.
  assert (H : forall m0,
    let m := fold_left remember interactions m0 in
    let first_of (field : extracted -> option string) (start : option string)
      := if truthy start then start
         else default start
                (List.find truthy (map (fun a => field (a_extracted_info a))
                                     interactions)) in
    profile_name m = first_of x_name (profile_name m0)
    /\ profile_mobile m = first_of x_mobile (profile_mobile m0)).
  { induction interactions as [|a interactions IH]; intros m0; cbn zeta.
    - cbn [fold_left map List.find default].
      split; by destruct (truthy _).
    - cbn [fold_left map List.find].
      destruct (IH (remember m0 a)) as [Hn Hm]. cbn zeta in Hn, Hm.
      rewrite Hn, Hm. unfold remember, update_memory.
      cbn [profile_name profile_mobile].
      split.
      + destruct (truthy (profile_name m0)) eqn:E0;
          rewrite ?andb_false_r, ?andb_true_r; cbn [negb].
        * by rewrite E0.
        * destruct (truthy (x_name (a_extracted_info a))) eqn:Ea;
            [by rewrite Ea|].
          by rewrite E0.
      + destruct (truthy (profile_mobile m0)) eqn:E0;
          rewrite ?andb_false_r, ?andb_true_r; cbn [negb].
        * by rewrite E0.
        * destruct (truthy (x_mobile (a_extracted_info a))) eqn:Ea;
            [by rewrite Ea|].
          by rewrite E0. }
  apply (H initial_memory).
Qed.

Lemma update_smart_context_distinct (message : string)
    (categories : list string) :
  let named := fun c => In c (map fst tech_categories) in
  List.NoDup categories /\ Forall named categories ->
  List.NoDup (update_smart_context message categories)
  /\ Forall named (update_smart_context message categories).
Proof.
  cbn zeta. unfold update_smart_context.
  generalize (lower message) as message_lower. intros message_lower.
  assert (H : forall ps acc,
    incl (map fst ps) (map fst tech_categories) ->
    List.NoDup acc /\ Forall (fun c => In c (map fst tech_categories)) acc ->
    let r := fold_left (fun categories p =>
               if any_in (snd p) message_lower
               then if mem (fst p) categories then categories
                    else categories ++ [fst p]
               else categories) ps acc in
    List.NoDup r /\ Forall (fun c => In c (map fst tech_categories)) r).
  { induction ps as [|p ps IH]; intros acc Hps Hacc; [exact Hacc|].
    cbn [fold_left]. apply IH.
    - intros c Hc. apply Hps. by right.
    - destruct (any_in (snd p) message_lower); [|exact Hacc].
      destruct (mem (fst p) acc) eqn:Emem; [exact Hacc|].
      destruct Hacc as [Hnodup Hnamed]. split.
      + apply NoDup_ListNoDup, NoDup_app. split; [by apply NoDup_ListNoDup|].
        split; [|apply NoDup_singleton].
        intros c Hc Hc'. apply list_elem_of_singleton in Hc'. subst c.
        apply list_elem_of_In, mem_In in Hc. congruence.
      + apply Forall_app. split; [exact Hnamed|].
        constructor; [|constructor]. apply Hps. by left. }
  intros Hacc. apply (H tech_categories categories); [|exact Hacc].
  intros c Hc. exact Hc.
Qed.

(** The technical focus names each category at most once, and only the
    five categories of [tech_categories]. *)
Theorem complaint_categories_distinct (interactions : list interaction) :
  List.NoDup (complaint_categories (memory_after interactions))
  /\ Forall (fun c => In c ["hardware"; "software"; "network"; "billing";
                            "service"])
       (complaint_categories (memory_after interactions)).
Proof.
  induction interactions as [|a interactions IH] using rev_ind.
  - split; constructor.
  - rewrite memory_after_snoc. unfold remember, update_memory.
    cbn [complaint_categories].
    by apply (update_smart_context_distinct (a_user_message a)).
Qed.

End MemoryRuns.

(** ** The endpoints of the API server *)

Section ApiEndpoints.
Import Models Database.

Variable similarity : string -> list Q.
Variable argsort : list Q -> list nat.

(** With one similarity for each entry of the knowledge base and an
    argsort, the retriever raises nothing. *)
Lemma relevant_entries_returns (similarities : list Q)
    (top_indices : list nat) :
  (length similarities <= length RAGSystem.knowledge_base)%nat ->
  Forall (fun i => (i < length similarities)%nat) top_indices ->
  is_Some (RAGSystem.relevant_entries similarities top_indices).
Proof.
  intros Hlen. induction 1 as [|i tl Hi _ IH]; [by eexists|].
  cbn [RAGSystem.relevant_entries].
  rewrite (lookup_score_at _ _ Hi).
  destruct (RAGSystem.gtb _ _); [|exact IH].
  destruct (RAGSystem.knowledge_base !! i) eqn:E;
    [|apply lookup_ge_None in E; lia].
  destruct IH as [r ->]. by eexists.
Qed.

Lemma get_contextual_response_returns (complaint_details : string) :
  length (similarity complaint_details)
  = length RAGSystem.knowledge_base ->
  RAGSystem.is_argsort (similarity complaint_details)
    (argsort (similarity complaint_details)) = true ->
  is_Some
    (RAGSystem.get_contextual_response similarity argsort complaint_details).
Proof.
  intros Hlen Hsort.
  unfold RAGSystem.get_contextual_response, RAGSystem.find_relevant_context.
  destruct (relevant_entries_returns (similarity complaint_details)
              (rev (slice_from (Z.opp 3)
                      (argsort (similarity complaint_details)))))
    as [r ->].
  - lia.
  - unfold RAGSystem.is_argsort in Hsort.
    apply andb_true_iff in Hsort as [Hsort _].
    apply andb_true_iff in Hsort as [Hsort _].
    apply andb_true_iff in Hsort as [_ Hvalid].
    rewrite forallb_forall in Hvalid.
    apply List.Forall_forall. intros i Hi. apply in_rev in Hi.
    apply Nat.ltb_lt, Hvalid.
    unfold slice_from in Hi. apply list_elem_of_In in Hi.
    apply list_elem_of_In. eapply subseteq_drop, Hi.
  - destruct r; by eexists.
Qed.

Lemma lookup_found (d : db) (complaint_id : string)
    (complaint : complaint_response) :
  get_complaint_by_id d complaint_id = Found complaint ->
  exists row,
    complaints d !! complaint_id = Some row
    /\ status_of_value (c_status row) = Some (p_status complaint)
    /\ complaint
       = mkComplaintResponse complaint_id (c_name row) (c_mobile row)
           (c_complaint_details row) (c_category row) (p_status complaint)
           (c_created_at row) (c_updated_at row).
Proof.
  unfold get_complaint_by_id. intros H.
  destruct (complaints d !! complaint_id) as [row|]; [|discriminate H].
  destruct (status_of_value (c_status row)) as [status|] eqn:E;
    [|discriminate H].
  injection H as <-. exists row. by repeat split.
Qed.

Lemma lookup_updated (d : db) (complaint_id : string) (row : complaint_row)
    (status : ComplaintStatus) (notes : option string) (now : Z) :
  complaints d !! complaint_id = Some row ->
  get_complaint_by_id
    (snd (Database.update_complaint_status d complaint_id status notes now))
    complaint_id
  = Found (mkComplaintResponse complaint_id (c_name row) (c_mobile row)
             (c_complaint_details row) (c_category row) status
             (c_created_at row) now).
Proof.
  intros Hrow. unfold Database.update_complaint_status. rewrite Hrow.
  unfold get_complaint_by_id. cbn [snd complaints].
  rewrite lookup_insert_eq. cbn [with_status c_status].
  by rewrite status_of_value_status.
Qed.

Lemma registered_is_found (d d' : db) (complaint : complaint_request)
    (complaint_id : string) (now : Z) (f : fetched) :
  Database.register_complaint d complaint complaint_id now = Some (f, d') ->
  exists category,
    q_category complaint = Some category
    /\ f = Found (mkComplaintResponse complaint_id (q_name complaint)
                    (q_mobile complaint) (q_complaint_details complaint)
                    (category_value category) REGISTERED now now)
    /\ get_complaint_by_id d' complaint_id = f.
Proof.
  unfold Database.register_complaint. intros H.
  destruct (q_category complaint) as [category|]; [|discriminate H].
  destruct (complaints d !! complaint_id); [discriminate H|].
  injection H as <- <-. exists category. split; [reflexivity|].
  unfold get_complaint_by_id. cbn [complaints].
  rewrite lookup_insert_eq. split; reflexivity.
Qed.

(** Whatever a writing endpoint is asked, when it answers with an error
    the database is as it was before the call. *)
Theorem api_error_keeps_database (d : db) :
  (forall complaint hex now,
     ApiServer.kept_on_error d
       (ApiServer.register_complaint similarity argsort d complaint hex now))
  /\ (forall complaint_id status notes now,
        ApiServer.kept_on_error d
          (ApiServer.update_complaint_status d complaint_id status notes
             now))
  /\ (forall complaint_id now,
        ApiServer.kept_on_error d
          (ApiServer.simulate_status_update similarity argsort d
             complaint_id now))
  /\ (forall complaint_id new_status now,
        ApiServer.kept_on_error d
          (ApiServer.update_complaint_status_admin d complaint_id new_status
             now))
  /\ (forall complaint_id,
        ApiServer.kept_on_error d
          (ApiServer.delete_complaint_admin d complaint_id)).
Proof.
  unfold ApiServer.kept_on_error.
  split; [|split; [|split; [|split]]].
  - intros complaint hex now. unfold ApiServer.register_complaint.
    destruct (RAGSystem.get_contextual_response _ _ _); [|reflexivity].
    destruct (Database.register_complaint _ _ _ _) as [[f d']|] eqn:E;
      [|reflexivity].
    apply registered_is_found in E as (category & _ & -> & _). exact I.
  - intros complaint_id status notes now.
    unfold ApiServer.update_complaint_status,
      Database.update_complaint_status.
    by destruct (complaints d !! complaint_id).
  - intros complaint_id now. unfold ApiServer.simulate_status_update.
    destruct (get_complaint_by_id d complaint_id); try reflexivity.
    by destruct (negb _).
  - intros complaint_id new_status now.
    unfold ApiServer.update_complaint_status_admin.
    destruct new_status as [|value|[]]; try reflexivity.
    destruct (PyStr.len value =? 0)%nat; [reflexivity|].
    destruct (status_of_value value); [|reflexivity].
    by destruct (get_complaint_by_id d complaint_id).
  - intros complaint_id. unfold ApiServer.delete_complaint_admin.
    destruct (get_complaint_by_id d complaint_id) as [complaint| |] eqn:E;
      try reflexivity.
    apply lookup_found in E as (row & Hrow & _).
    unfold Database.delete_complaint.
    by rewrite bool_decide_true by (by eexists).
Qed.

Lemma simulate_step (d : db) (complaint_id : string) (now : Z)
    (complaint : complaint_response) :
  get_complaint_by_id d complaint_id = Found complaint ->
  exists complaint',
    get_complaint_by_id
      (snd (ApiServer.simulate_status_update similarity argsort d
              complaint_id now)) complaint_id
    = Found complaint'
    /\ p_status complaint'
       = ApiServer.status_progression (p_status complaint).
Proof.
  intros Hfound. unfold ApiServer.simulate_status_update. rewrite Hfound.
  destruct (lookup_found _ _ _ Hfound) as (row & Hrow & _ & _).
  destruct (p_status complaint) eqn:Es;
    cbn [ApiServer.status_progression status_value String.eqb Ascii.eqb
         Bool.eqb negb snd];
    first [ rewrite (lookup_updated _ _ _ _ _ _ Hrow);
            eexists; split; reflexivity
          | exists complaint; split; [exact Hfound|by rewrite Es] ].
Qed.

Lemma simulate_repeatedly_status (nows : list Z) (d : db)
    (complaint_id : string) (complaint : complaint_response) :
  get_complaint_by_id d complaint_id = Found complaint ->
  exists complaint',
    get_complaint_by_id
      (ApiServer.simulate_repeatedly similarity argsort d complaint_id nows)
      complaint_id
    = Found complaint'
    /\ p_status complaint'
       = Nat.iter (length nows) ApiServer.status_progression
           (p_status complaint).
Proof.
  revert d complaint. induction nows as [|now nows IH] using rev_ind;
    intros d complaint Hfound.
  - by exists complaint.
  - unfold ApiServer.simulate_repeatedly. rewrite fold_left_app.
    cbn [fold_left]. fold (ApiServer.simulate_repeatedly similarity argsort
                             d complaint_id nows).
    destruct (IH d complaint Hfound) as (c1 & Hc1 & Hs1).
    destruct (simulate_step _ _ now _ Hc1) as (c2 & Hc2 & Hs2).
    exists c2. split; [exact Hc2|].
    rewrite Hs2, Hs1, length_app, Nat.add_comm. reflexivity.
Qed.

Lemma status_progression_settles (n : nat) (status : ComplaintStatus) :
  (3 <= n)%nat ->
  Nat.iter n ApiServer.status_progression status
  = match status with
    | REGISTERED | IN_PROGRESS | UNDER_REVIEW => RESOLVED
    | _ => status
    end.
Proof.
  intros Hn. replace n with ((n - 3) + 3)%nat by lia.
  generalize (n - 3)%nat as k. clear. intros k.
  induction k as [|k IH]; [by destruct status|].
  cbn [Nat.add Nat.iter nat_rect] in *. unfold Nat.iter in *.
  cbn [nat_rect]. rewrite IH. by destruct status.
Qed.

(** Simulated updates take a complaint from Registered through In
    Progress and Under Review to Resolved and stop there: after three
    calls or more the status is settled, and a further call answers that
    no change is needed and leaves the database as it is. *)
Theorem simulate_status_update_settles (d : db) (complaint_id : string)
    (complaint : complaint_response) (nows : list Z) :
  get_complaint_by_id d complaint_id = Found complaint ->
  (3 <= length nows)%nat ->
  let d' :=
    ApiServer.simulate_repeatedly similarity argsort d complaint_id nows in
  exists complaint',
    get_complaint_by_id d' complaint_id = Found complaint'
    /\ p_status complaint'
       = match p_status complaint with
         | REGISTERED | IN_PROGRESS | UNDER_REVIEW => RESOLVED
         | _ => p_status complaint
         end
    /\ forall now,
         ApiServer.simulate_status_update similarity argsort d' complaint_id
           now
         = (ApiServer.Ok
              (ApiServer.StatusKept complaint_id
                 (status_value (p_status complaint'))
                 "No status change needed"), d').
Proof.
  intros Hfound Hn d'. subst d'.
  destruct (simulate_repeatedly_status nows d complaint_id complaint Hfound)
    as (c' & Hc' & Hs').
  rewrite (status_progression_settles _ _ Hn) in Hs'.
  exists c'. split; [exact Hc'|]. split; [exact Hs'|].
  intros now. unfold ApiServer.simulate_status_update.
  rewrite Hc', Hs'. by destruct (p_status complaint).
Qed.

(** The admin endpoint stores a status only when it is given the value
    of a [ComplaintStatus] for a complaint that is there, and then a
    lookup shows that status; a missing, empty or unknown status is
    answered with 400, before the complaint is looked for. *)
Theorem admin_update_validates_status (d : db) (complaint_id : string)
    (new_status : ApiServer.status_field) (now : Z) :
  let valid :=
    match new_status with
    | ApiServer.Text value => status_of_value value
    | _ => None
    end in
  match ApiServer.update_complaint_status_admin d complaint_id new_status
          now with
  | (ApiServer.Ok body, d') =>
      exists status before,
        valid = Some status
        /\ get_complaint_by_id d complaint_id = Found before
        /\ ApiServer.u_new_status body = status_value status
        /\ get_complaint_by_id d' complaint_id
           = Found (mkComplaintResponse complaint_id (p_name before)
                      (p_mobile before) (p_complaint_details before)
                      (p_category before) status (p_created_at before) now)
        /\ history_of d' complaint_id
           = history_of d complaint_id
             ++ [mkHistory complaint_id
                   (Some (status_value (p_status before)))
                   (status_value status) (Some "Updated by admin") now]
  | (ApiServer.HTTPException status_code _, _) =>
      status_code = 400%nat <-> valid = None
  end.
Proof.
  cbn zeta. unfold ApiServer.update_complaint_status_admin.
  destruct new_status as [|value|[]]; try done.
  destruct (PyStr.len value =? 0)%nat eqn:Elen.
  { split; [|done]. intros _.
    destruct value; [reflexivity|discriminate Elen]. }
  destruct (status_of_value value) as [status|] eqn:Evalid; [|done].
  destruct (get_complaint_by_id d complaint_id) as [before| |] eqn:Efound;
    [|split; discriminate..].
  destruct (lookup_found _ _ _ Efound) as (row & Hrow & Hstatus & Hbefore).
  exists status, before. split; [reflexivity|]. split; [reflexivity|].
  cbn [ApiServer.u_new_status]. split.
  { unfold status_of_value in Evalid.
    apply List.find_some in Evalid as [_ E].
    apply String.eqb_eq in E. by symmetry. }
  split.
  - rewrite (lookup_updated _ _ _ _ _ _ Hrow), Hbefore. reflexivity.
  - unfold Database.update_complaint_status. rewrite Hrow. cbn [snd].
    rewrite history_of_snoc. cbn [h_complaint_id].
    rewrite decide_True by reflexivity.
    do 3 f_equal. unfold status_of_value in Hstatus.
    apply List.find_some in Hstatus as [_ E].
    apply String.eqb_eq in E. by rewrite E.
Qed.

(** A complaint sent to the registration endpoint without a category is
    stored under the category that [categorize_complaint] gives its
    details; with the retriever at work and a fresh identifier the
    endpoint answers with the stored complaint, which the status
    endpoint then returns. *)
Theorem api_register_categorizes (d : db) (complaint : complaint_request)
    (hex : string) (now : Z) :
  length (similarity (q_complaint_details complaint))
  = length RAGSystem.knowledge_base ->
  RAGSystem.is_argsort (similarity (q_complaint_details complaint))
    (argsort (similarity (q_complaint_details complaint))) = true ->
  complaints d !! generate_complaint_id hex = None ->
  let category :=
    match q_category complaint with
    | Some category => category
    | None => LLMHandler.categorize_complaint (q_complaint_details complaint)
    end in
  let stored :=
    mkComplaintResponse (generate_complaint_id hex) (q_name complaint)
      (q_mobile complaint) (q_complaint_details complaint)
      (category_value category) REGISTERED now now in
  exists d',
    ApiServer.register_complaint similarity argsort d complaint hex now
    = (ApiServer.Ok (Some stored), d')
    /\ ApiServer.get_complaint_status d' (generate_complaint_id hex)
       = ApiServer.Ok stored.
Proof.
  intros Hlen Hsort Hfresh. cbn zeta.
  unfold ApiServer.register_complaint.
  destruct (get_contextual_response_returns
              (q_complaint_details complaint) Hlen Hsort) as [ctx ->].
  set (complaint' := match q_category complaint with
                     | Some _ => complaint
                     | None => _
                     end).
  destruct (Database.register_complaint d complaint'
              (generate_complaint_id hex) now) as [[f d']|] eqn:E.
  - apply registered_is_found in E as (category & Hcat & -> & Hget).
    exists d'. unfold ApiServer.get_complaint_status. rewrite Hget.
    subst complaint'.
    destruct (q_category complaint) as [c|] eqn:Ec.
    + rewrite Ec in Hcat. injection Hcat as <-. by split.
    + cbn in Hcat. injection Hcat as <-. by split.
  - exfalso. unfold Database.register_complaint in E.
    rewrite Hfresh in E.
    subst complaint'.
    destruct (q_category complaint) eqn:Ec; cbn [q_category] in E;
      [rewrite Ec in E|]; discriminate E.
Qed.

End ApiEndpoints.

Section ApiRuns.
Import Models Database.

Lemma simulate_status_update_settles_witness :
  let similarity := fun _ : string => [0.9; 0.1; 0.1; 0.1; 0.1; 0.1]%Q in
  let d := run_operations
             [Register (mkComplaintRequest "John Smith" "9876543210"
                          "My laptop screen is broken" (Some HARDWARE))
                "CMP9B41CA0F" 100] in
  exists complaint',
    get_complaint_by_id
      (ApiServer.simulate_repeatedly similarity RAGSystem.insertion_argsort
         d "CMP9B41CA0F" [200; 300; 400; 500]%Z) "CMP9B41CA0F"
    = Found complaint'
    /\ p_status complaint' = RESOLVED.
Proof.
  intros similarity d.
  destruct (simulate_status_update_settles similarity
              RAGSystem.insertion_argsort d "CMP9B41CA0F"
              (mkComplaintResponse "CMP9B41CA0F" "John Smith" "9876543210"
                 "My laptop screen is broken" "Hardware" REGISTERED 100 100)
              [200; 300; 400; 500]%Z)
    as (complaint' & Hfound & Hstatus & _).
  - vm_compute. reflexivity.
  - cbn [length]. lia.
  - exists complaint'. split; [exact Hfound|exact Hstatus].
Defined.

Lemma api_register_categorizes_witness :
  let similarity := fun _ : string => [0.1; 0.2; 0.8; 0.1; 0.1; 0.1]%Q in
  exists d',
    ApiServer.register_complaint similarity RAGSystem.insertion_argsort
      empty_db
      (mkComplaintRequest "Asha Rao" "9876543210" "the wifi is down" None)
      "0a1b2c3d4e5f60718293a4b5c6d7e8f9" 100
    = (ApiServer.Ok
         (Some (mkComplaintResponse "CMP0A1B2C3D" "Asha Rao" "9876543210"
                  "the wifi is down" "Network" REGISTERED 100 100)), d')
    /\ ApiServer.get_complaint_status d' "CMP0A1B2C3D"
       = ApiServer.Ok
           (mkComplaintResponse "CMP0A1B2C3D" "Asha Rao" "9876543210"
              "the wifi is down" "Network" REGISTERED 100 100).
Proof.
  apply (api_register_categorizes
           (fun _ => [0.1; 0.2; 0.8; 0.1; 0.1; 0.1]%Q)
           RAGSystem.insertion_argsort empty_db
           (mkComplaintRequest "Asha Rao" "9876543210" "the wifi is down"
              None)
           "0a1b2c3d4e5f60718293a4b5c6d7e8f9" 100).
  - reflexivity.
  - vm_compute. reflexivity.
  - vm_compute. reflexivity.
Defined.

End ApiRuns.

(** ** Identifiers that the database issues are found by the extractors *)

Section IssuedIdentifiers.
Import PyStr Re Models Database App.

(** A greedy repetition of a class over a text that is all of the class,
    and within the bounds, takes the whole text when what follows
    accepts that. *)
Lemma rep_cls_greedy {R : Type} (p : ascii -> bool)
    (k : mstate -> option R) (x : R) (g : option (list ascii))
    (ds : list ascii) :
  forall fuel lo hi prev_char,
    forallb p ds = true ->
    (length ds < fuel)%nat -> (lo <= length ds)%nat ->
    (length ds <= hi)%nat ->
    k (MState (match last ds with Some c => Some c | None => prev_char end)
         [] g) = Some x ->
    rep_loop (fun st' k' => exec (Cls p) st' k') k fuel lo (Some hi)
      (MState prev_char ds g) = Some x.
Proof.
  induction ds as [|c ds IH]; intros fuel lo hi prev_char Hp Hfuel Hlo Hhi Hk.
  - destruct fuel as [|fuel]; [cbn in Hfuel; lia|].
    cbn [length] in Hlo. assert (lo = 0%nat) as -> by lia.
    cbn [rep_loop Nat.eqb exec rest last] in *.
    by destruct hi.
  - destruct fuel as [|fuel]; [cbn in Hfuel; lia|].
    cbn [length] in *. destruct hi as [|hi]; [lia|].
    cbn [forallb] in Hp. apply andb_true_iff in Hp as [Hc Hds].
    set (body := fun (st' : mstate) (k' : mstate -> option R) =>
                   exec (Cls p) st' k') in *.
    assert (Hbody : forall st' k',
              rest st' = c :: ds ->
              body st' k' = k' (MState (Some c) ds (grp1 st'))).
    { intros st' k' Hrest. unfold body. cbn [exec]. by rewrite Hrest, Hc. }
    assert (Hlt : (length ds <? S (length ds))%nat = true)
      by (apply Nat.ltb_lt; lia).
    cbn [rep_loop]. rewrite Hbody by reflexivity.
    cbn [rest grp1 length fmap option_fmap option_map Nat.pred].
    rewrite Hlt.
    rewrite (IH fuel (Nat.pred lo) hi (Some c)); try done; try lia.
    rewrite last_cons in Hk. by destruct (last ds).
Qed.

Lemma alnum_icase_upper_digit (c : ascii) :
  is_alnum c = true ->
  upper_digit (lower_char c) || upper_digit (upper_char c) = true.
Proof.
  destruct c as [[] [] [] [] [] [] [] []]; vm_compute; intros H;
    (discriminate H || reflexivity).
Qed.

Lemma id_match_here (p : option ascii) (ds : list ascii) :
  match p with Some c => is_word c | None => false end = false ->
  length ds = 8%nat ->
  forallb is_alnum ds = true ->
  let text := ("C" :: "M" :: "P" :: ds)%char in
  exists st,
    match_here (icase standard_id_pattern) p text
    = Some (RMatch (of_chars text) (Some (of_chars text)) st).
Proof.
  intros Hp Hlen Hds text. subst text.
  unfold match_here, standard_id_pattern.
  cbn [icase cat lit lit_chars chars list_ascii_of_string rep chr].
  cbn [exec word_before word_after prev rest grp1].
  unfold word_before at 1. cbn [prev]. rewrite Hp.
  change (is_word "C"%char) with true. cbn [xorb].
  change (("C" =? lower_char "C")%char || ("C" =? upper_char "C")%char)
    with true.
  change (("M" =? lower_char "M")%char || ("M" =? upper_char "M")%char)
    with true.
  change (("P" =? lower_char "P")%char || ("P" =? upper_char "P")%char)
    with true.
  cbv iota.
  destruct (last ds) as [z|] eqn:Ez;
    [|apply last_None in Ez; subst ds; discriminate Hlen].
  assert (Hz : is_word z = true).
  { unfold is_word. by rewrite (forallb_last is_alnum ds z Hds Ez). }
  eexists.
  apply (rep_cls_greedy
           (fun c => upper_digit (lower_char c) || upper_digit (upper_char c))).
  - apply forallb_forall. intros c Hc. apply alnum_icase_upper_digit.
    rewrite forallb_forall in Hds. by apply Hds.
  - lia.
  - lia.
  - lia.
  - rewrite Ez. cbn [word_before word_after prev rest grp1].
    rewrite Hz. cbn [xorb fmap option_fmap option_map].
    unfold consumed. cbn [rest length Nat.sub].
    rewrite Hlen. cbn [take Nat.add].
    do 8 (destruct ds as [|? ds]; [discriminate Hlen|]).
    destruct ds; [|discriminate Hlen]. reflexivity.
Qed.

Lemma details_id_match_here (p : option ascii) (ds : list ascii) :
  length ds = 8%nat ->
  forallb upper_digit ds = true ->
  let text := ("C" :: "M" :: "P" :: ds)%char in
  exists m,
    match_here details_id_pattern p text = Some m
    /\ group0 m = of_chars text.
Proof.
  intros Hlen Hds text. subst text.
  unfold match_here, details_id_pattern.
  cbn [cat lit lit_chars chars list_ascii_of_string exactly chr].
  cbn [exec prev rest grp1].
  change ("C" =? "C")%char with true. change ("M" =? "M")%char with true.
  change ("P" =? "P")%char with true. cbv iota.
  eexists. split.
  - apply (rep_cls_greedy upper_digit);
      [exact Hds|cbn [rest]; lia|lia|lia|reflexivity].
  - cbn [group0]. unfold consumed. cbn [rest length Nat.sub].
    rewrite Hlen. cbn [take Nat.add].
    do 8 (destruct ds as [|? ds]; [discriminate Hlen|]).
    destruct ds; [|discriminate Hlen]. reflexivity.
Qed.

Lemma search_from_skip (r : regex) (p : option ascii) (c : ascii)
    (l : list ascii) :
  match_here r p (c :: l) = None ->
  search_from r p (c :: l) = search_from r (Some c) l.
Proof. intros H. cbn [search_from]. by rewrite H. Qed.

Lemma search_from_here (r : regex) (p : option ascii) (l : list ascii)
    (m : rmatch) :
  match_here r p l = Some m -> search_from r p l = Some m.
Proof. intros H. destruct l; cbn [search_from]; by rewrite H. Qed.

Lemma upper_char_facts (c : ascii) :
  is_alnum c = true ->
  is_alnum (upper_char c) = true
  /\ upper_digit (upper_char c) = true
  /\ upper_char (upper_char c) = upper_char c.
Proof.
  destruct c as [[] [] [] [] [] [] [] []]; vm_compute; intros H;
    (discriminate H || auto).
Qed.

Lemma chars_append (s1 s2 : string) :
  chars (s1 ++ s2) = chars s1 ++ chars s2.
Proof.
  unfold chars. induction s1 as [|c s1 IH]; [reflexivity|].
  change (String c s1 ++ s2)%string with (String c (s1 ++ s2)%string).
  cbn [list_ascii_of_string app]. f_equal. exact IH.
Qed.

Lemma of_chars_inj_chars (s : string) : of_chars (chars s) = s.
Proof. apply string_of_list_ascii_of_string. Qed.

(** The identifier that the database issues, as characters. *)
Lemma generated_id_chars (hex : string) :
  (8 <= len hex)%nat ->
  forallb is_alnum (take 8 (chars hex)) = true ->
  exists ds,
    chars (generate_complaint_id hex) = ("C" :: "M" :: "P" :: ds)%char
    /\ length ds = 8%nat
    /\ forallb is_alnum ds = true
    /\ forallb upper_digit ds = true
    /\ map upper_char ds = ds.
Proof.
  intros Hlen Halnum. exists (map upper_char (take 8 (chars hex))).
  split.
  { unfold generate_complaint_id, upper, prefix.
    rewrite chars_append. by rewrite !chars_of_chars. }
  split.
  { rewrite length_map, length_take. rewrite len_chars. lia. }
  rewrite forallb_forall in Halnum.
  split; [|split].
  - apply forallb_forall. intros c Hc.
    apply in_map_iff in Hc as (h & <- & Hh).
    by apply upper_char_facts, Halnum.
  - apply forallb_forall. intros c Hc.
    apply in_map_iff in Hc as (h & <- & Hh).
    by apply upper_char_facts, Halnum.
  - rewrite map_map. apply map_ext_in. intros h Hh.
    by apply upper_char_facts, Halnum.
Qed.

(** An identifier that the database issues is found again by the
    extractors, alone and in the request that the registration reply
    suggests for a status check. *)
Theorem issued_identifier_is_extracted (hex : string) :
  (8 <= len hex)%nat ->
  forallb is_alnum (take 8 (chars hex)) = true ->
  let complaint_id := generate_complaint_id hex in
  x_complaint_id (extract_information complaint_id) = Some complaint_id
  /\ x_complaint_id (extract_information ("Check status " ++ complaint_id))
     = Some complaint_id
  /\ x_complaint_id (extract_basic_info ("Check status " ++ complaint_id))
     = Some complaint_id
  /\ x_complaint_id (extract_user_details ("Check status " ++ complaint_id))
     = Some complaint_id.
Proof.
  intros Hlen Halnum complaint_id.
  destruct (generated_id_chars hex Hlen Halnum)
    as (ds & Hchars & Hds_len & Hds_alnum & Hds_upper & Hds_fixed).
  fold complaint_id in Hchars.
  assert (Hupper : upper (of_chars ("C" :: "M" :: "P" :: ds)%char)
                   = complaint_id).
  { unfold upper. rewrite chars_of_chars. cbn [map].
    change (upper_char "C") with "C"%char.
    change (upper_char "M") with "M"%char.
    change (upper_char "P") with "P"%char.
    by rewrite Hds_fixed, <- Hchars, of_chars_inj_chars. }
  split.
  { unfold extract_information. cbn [x_complaint_id].
    unfold extract_complaint_id, complaint_id_patterns. cbn [first_some].
    fold standard_id_pattern. unfold re_search. rewrite Hchars.
    destruct (id_match_here None ds eq_refl Hds_len Hds_alnum) as [st Hm].
    rewrite (search_from_here _ _ _ _ Hm). cbn [group1 default from_option id].
    by rewrite Hupper. }
  assert (Hsearch : exists st,
            re_search (icase standard_id_pattern)
              ("Check status " ++ complaint_id)
            = Some (RMatch (of_chars ("C" :: "M" :: "P" :: ds)%char)
                      (Some (of_chars ("C" :: "M" :: "P" :: ds)%char)) st)).
  { unfold re_search. rewrite chars_append, Hchars.
    cbn [chars list_ascii_of_string app].
    do 13 (rewrite search_from_skip by reflexivity).
    destruct (id_match_here (Some " "%char) ds eq_refl Hds_len Hds_alnum)
      as [st Hm].
    exists st. by apply search_from_here. }
  destruct Hsearch as [st Hsearch].
  split; [|split].
  - unfold extract_information. cbn [x_complaint_id].
    unfold extract_complaint_id, complaint_id_patterns. cbn [first_some].
    fold standard_id_pattern. rewrite Hsearch. cbn [group1 default from_option id].
    by rewrite Hupper.
  - unfold extract_basic_info. cbn [x_complaint_id].
    fold standard_id_pattern. rewrite Hsearch. cbn [group1 default from_option id].
    by rewrite Hupper.
  - unfold extract_user_details. cbn [x_complaint_id].
    unfold re_search, upper. rewrite chars_append, Hchars.
    rewrite chars_of_chars. cbn [chars list_ascii_of_string app map].
    rewrite Hds_fixed.
    do 13 (rewrite search_from_skip by reflexivity).
    destruct (details_id_match_here (Some (upper_char " ")) ds Hds_len
                Hds_upper) as (m & Hm & Hgroup).
    change (upper_char "C") with "C"%char.
    change (upper_char "M") with "M"%char.
    change (upper_char "P") with "P"%char.
    rewrite (search_from_here _ _ _ _ Hm). cbn [fmap option_fmap option_map].
    rewrite Hgroup, <- Hchars. by rewrite of_chars_inj_chars.
Qed.

Lemma issued_identifier_is_extracted_witness :
  x_complaint_id (extract_information "Check status CMP0A1B2C3D")
  = Some "CMP0A1B2C3D"
  /\ x_complaint_id (extract_user_details "Check status CMP0A1B2C3D")
     = Some "CMP0A1B2C3D".
Proof.
  destruct (issued_identifier_is_extracted
              "0a1b2c3d4e5f60718293a4b5c6d7e8f9")
    as (_ & Hinformation & _ & Hdetails).
  - vm_compute. lia.
  - vm_compute. reflexivity.
  - split; [exact Hinformation|exact Hdetails].
Defined.

End IssuedIdentifiers.

(** ** The search for the complaints of a mobile number *)

Section MobileSearchFacts.
Import Models Database.

Variable newest_first :
  list (string * complaint_row) -> list (string * complaint_row).

Lemma response_of_row_id (r : string * complaint_row)
    (c : complaint_response) :
  response_of_row r = Some c -> p_complaint_id c = fst r.
Proof.
  unfold response_of_row. destruct (status_of_value _); [|discriminate].
  by intros [= <-].
Qed.

(** The loop never appends an identifier that is already there. *)
Lemma append_rows_distinct (rows : list (string * complaint_row)) :
  forall complaints found_ids,
    List.NoDup (map p_complaint_id complaints) ->
    (forall c, In c complaints -> In (p_complaint_id c) found_ids) ->
    let '(complaints', found_ids', _) :=
      append_rows rows complaints found_ids in
    List.NoDup (map p_complaint_id complaints')
    /\ (forall c, In c complaints' -> In (p_complaint_id c) found_ids').
Proof.
  induction rows as [|r rows IH]; intros complaints found_ids Hnodup Hfound;
    cbn [append_rows]; [by split|].
  destruct (PyStr.mem (fst r) found_ids) eqn:Emem; [by apply IH|].
  destruct (response_of_row r) as [c|] eqn:Er; [|by split].
  apply IH.
  - rewrite map_app. cbn [map].
    apply NoDup_ListNoDup, NoDup_app.
    split; [by apply NoDup_ListNoDup|].
    split; [|apply NoDup_singleton].
    intros complaint_id Hin Hnew. apply list_elem_of_singleton in Hnew.
    subst complaint_id. apply list_elem_of_In, in_map_iff in Hin
      as (c' & Hid & Hc').
    apply Hfound in Hc'. rewrite Hid, (response_of_row_id _ _ Er) in Hc'.
    apply mem_In in Hc'. congruence.
  - intros c' Hc'. apply in_app_or in Hc' as [Hc'|[<-|[]]];
      apply in_or_app.
    + left. by apply Hfound.
    + right. left. symmetry. by apply response_of_row_id.
Qed.

(** No complaint is listed twice, whatever the rows that the queries
    fetch and whatever their order. *)
Theorem complaints_by_mobile_distinct (d : db) (mobile : string) :
  List.NoDup
    (map p_complaint_id (get_complaints_by_mobile newest_first d mobile)).
Proof.
  unfold get_complaints_by_mobile. cbv zeta.
  match goal with
  | |- context [append_rows ?rows [] []] =>
      pose proof (append_rows_distinct rows [] [] ltac:(constructor)
                    ltac:(intros c [])) as H1;
      destruct (append_rows rows [] []) as [[complaints1 found1] completed]
  end.
  destruct H1 as [Hnodup1 Hfound1].
  destruct (completed && negb (length complaints1 =? 0)%nat);
    [exact Hnodup1|].
  match goal with
  | |- context [append_rows ?rows complaints1 found1] =>
      pose proof (append_rows_distinct rows complaints1 found1 Hnodup1
                    Hfound1) as H2;
      destruct (append_rows rows complaints1 found1)
        as [[complaints2 found2] completed2]
  end.
  destruct H2 as [Hnodup2 Hfound2].
  destruct (max_like_pattern_length <? _)%Z; [exact Hnodup2|].
  match goal with
  | |- context [append_rows ?rows complaints2 found2] =>
      pose proof (append_rows_distinct rows complaints2 found2 Hnodup2
                    Hfound2) as H3;
      destruct (append_rows rows complaints2 found2)
        as [[complaints3 found3] completed3]
  end.
  by destruct H3.
Qed.

(** With rows of distinct identifiers and valid statuses the loop comes
    to its end, and appends the rows whose identifiers are new. *)
Lemma append_rows_members (rows : list (string * complaint_row)) :
  forall complaints found_ids,
    List.NoDup (map fst rows) ->
    Forall (fun r => is_Some (response_of_row r)) rows ->
    exists complaints' found_ids',
      append_rows rows complaints found_ids
      = (complaints', found_ids', true)
      /\ (forall c,
            In c complaints' <->
            In c complaints
            \/ exists r, In r rows /\ ~ In (fst r) found_ids
                         /\ response_of_row r = Some c)
      /\ (forall complaint_id,
            In complaint_id found_ids' <->
            In complaint_id found_ids \/ In complaint_id (map fst rows)).
Proof.
  induction rows as [|r rows IH]; intros complaints found_ids Hnodup Hvalid.
  - exists complaints, found_ids. split; [reflexivity|].
    split; [intros c|intros complaint_id]; cbn [map In].
    + split; [by left|]. intros [H|(r & [] & _)]. exact H.
    + tauto.
  - cbn [map] in Hnodup. apply List.NoDup_cons_iff in Hnodup as [Hr Hnodup].
    apply Forall_cons_1 in Hvalid as [[c0 Hc0] Hvalid].
    cbn [append_rows].
    destruct (PyStr.mem (fst r) found_ids) eqn:Emem.
    + apply mem_In in Emem.
      destruct (IH complaints found_ids Hnodup Hvalid)
        as (complaints' & found_ids' & -> & Hin & Hids).
      exists complaints', found_ids'. split; [reflexivity|].
      split.
      * intros c. rewrite Hin. split.
        -- intros [H|(r' & Hr' & Hnew & Hc)]; [by left|].
           right. exists r'. split; [by right|]. by split.
        -- intros [H|(r' & [<-|Hr'] & Hnew & Hc)]; [by left|done|].
           right. by exists r'.
      * intros complaint_id. rewrite Hids. cbn [map In].
        split; [tauto|]. intros [H|[<-|H]]; tauto.
    + rewrite Hc0.
      destruct (IH (complaints ++ [c0]) (found_ids ++ [fst r]) Hnodup Hvalid)
        as (complaints' & found_ids' & -> & Hin & Hids).
      exists complaints', found_ids'. split; [reflexivity|].
      assert (Hnew : ~ In (fst r) found_ids).
      { intros H. apply mem_In in H. congruence. }
      split.
      * intros c. rewrite Hin, in_app_iff. cbn [In]. split.
        -- intros [[H|[<-|[]]]|(r' & Hr' & Hnew' & Hc)].
           ++ by left.
           ++ right. exists r. split; [by left|]. by split.
           ++ right. exists r'. split; [by right|].
              split; [|exact Hc]. intros H. apply Hnew'.
              apply in_or_app. by left.
        -- intros [H|(r' & [<-|Hr'] & Hnew' & Hc)].
           ++ left. by left.
           ++ left. right. left. congruence.
           ++ right. exists r'. split; [exact Hr'|].
              split; [|exact Hc]. intros H.
              apply in_app_or in H as [H|[H|[]]]; [done|].
              apply Hr. rewrite H. by apply in_map.
      * intros complaint_id. rewrite Hids, in_app_iff. cbn [map In].
        tauto.
Qed.

Hypothesis newest_first_permutes :
  forall rows, Permutation (newest_first rows) rows.

Lemma select_where_rows (d : db) (condition : complaint_row -> bool)
    (r : string * complaint_row) :
  In r (select_where newest_first d condition) <->
  complaints d !! fst r = Some (snd r) /\ condition (snd r) = true.
Proof.
  unfold select_where. split.
  - intros H. apply (Permutation_in _ (newest_first_permutes _)) in H.
    apply list_elem_of_In, list_elem_of_filter in H as [Hc H].
    destruct r as [complaint_id row].
    apply elem_of_map_to_list in H. by split.
  - intros [H Hc].
    apply (Permutation_in _ (Permutation_sym (newest_first_permutes _))).
    apply list_elem_of_In, list_elem_of_filter. split; [exact Hc|].
    destruct r as [complaint_id row]. by apply elem_of_map_to_list.
Qed.

Lemma select_where_distinct (d : db) (condition : complaint_row -> bool) :
  List.NoDup (map fst (select_where newest_first d condition)).
Proof.
  unfold select_where.
  apply (Permutation_NoDup
           (Permutation_map fst
              (Permutation_sym (newest_first_permutes _)))).
  apply NoDup_ListNoDup.
  generalize (NoDup_fst_map_to_list (complaints d)).
  generalize (map_to_list (complaints d)). intros l.
  induction l as [|r l IH]; intros Hl; [constructor|].
  apply NoDup_cons in Hl as [Hr Hl].
  destruct (decide (condition (snd r) = true)) as [Hc|Hc].
  - rewrite filter_cons_True by exact Hc. cbn [fmap list_fmap].
    apply NoDup_cons. split; [|by apply IH].
    intros Hin. apply Hr. apply list_elem_of_fmap in Hin as (r' & -> & Hr').
    apply list_elem_of_filter in Hr' as [_ Hr'].
    apply list_elem_of_fmap. by exists r'.
  - rewrite filter_cons_False by exact Hc. by apply IH.
Qed.

Lemma select_where_valid (d : db) (condition : complaint_row -> bool) :
  statuses_valid d = true ->
  Forall (fun r => is_Some (response_of_row r))
    (select_where newest_first d condition).
Proof.
  intros Hvalid. apply List.Forall_forall. intros r Hr.
  apply select_where_rows in Hr as [Hr _].
  unfold statuses_valid in Hvalid. rewrite forallb_forall in Hvalid.
  eapply bool_decide_eq_true_1. apply Hvalid, list_elem_of_In.
  destruct r as [complaint_id row]. by apply elem_of_map_to_list.
Qed.

Lemma stored_response (d : db) (c : complaint_response) :
  get_complaint_by_id d (p_complaint_id c) = Found c <->
  exists r,
    complaints d !! fst r = Some (snd r) /\ response_of_row r = Some c.
Proof.
  unfold get_complaint_by_id, response_of_row. split.
  - destruct (complaints d !! p_complaint_id c) as [row|] eqn:Hrow;
      [|discriminate].
    intros H. exists (p_complaint_id c, row). cbn [fst snd].
    split; [exact Hrow|].
    destruct (status_of_value (c_status row)); [|discriminate H].
    by injection H as ->.
  - intros ([complaint_id row] & Hrow & H). cbn [fst snd] in *.
    destruct (status_of_value (c_status row)) eqn:Es; [|discriminate H].
    injection H as <-. cbn [p_complaint_id]. by rewrite Hrow, Es.
Qed.

Lemma response_of_row_mobile (r : string * complaint_row)
    (c : complaint_response) :
  response_of_row r = Some c -> p_mobile c = c_mobile (snd r).
Proof.
  unfold response_of_row. destruct (status_of_value _); [|discriminate].
  by intros [= <-].
Qed.

(** When some complaint has exactly the cleaned number as its mobile,
    the search returns the complaints with exactly that mobile, and no
    others. *)
Theorem exact_mobile_matches_only (d : db) (mobile : string) :
  statuses_valid d = true ->
  let clean_mobile := Re.sub_class_empty search_separator mobile in
  (exists complaint_id row,
     complaints d !! complaint_id = Some row
     /\ c_mobile row = clean_mobile) ->
  forall c,
    In c (get_complaints_by_mobile newest_first d mobile) <->
    get_complaint_by_id d (p_complaint_id c) = Found c
    /\ p_mobile c = clean_mobile.
Proof.
  intros Hvalid clean_mobile (complaint_id & row & Hrow & Hmobile) c.
  unfold get_complaints_by_mobile. cbv zeta. fold clean_mobile.
  set (exact := fun row : complaint_row =>
                  String.eqb (c_mobile row) clean_mobile).
  destruct (append_rows_members (select_where newest_first d exact) [] []
              (select_where_distinct d exact)
              (select_where_valid d exact Hvalid))
    as (complaints1 & found1 & -> & Hin & _).
  assert (Hmembers : forall c',
            In c' complaints1 <->
            get_complaint_by_id d (p_complaint_id c') = Found c'
            /\ p_mobile c' = clean_mobile).
  { intros c'. rewrite Hin, stored_response. split.
    - intros [[]|(r & Hr & _ & Hc)].
      apply select_where_rows in Hr as [Hr Hexact].
      split; [by exists r|].
      rewrite (response_of_row_mobile _ _ Hc). by apply String.eqb_eq.
    - intros [(r & Hr & Hc) Hm]. right. exists r.
      split; [|split; [intros []|exact Hc]].
      apply select_where_rows. split; [exact Hr|].
      apply String.eqb_eq. by rewrite <- (response_of_row_mobile _ _ Hc). }
  assert (Hsome : (length complaints1 =? 0)%nat = false).
  { assert (Hrow' : is_Some (response_of_row (complaint_id, row))).
    { unfold statuses_valid in Hvalid. rewrite forallb_forall in Hvalid.
      eapply bool_decide_eq_true_1. apply Hvalid, list_elem_of_In.
      by apply elem_of_map_to_list. }
    destruct Hrow' as [c0 Hc0].
    assert (In c0 complaints1).
    { apply Hmembers. split.
      - apply stored_response. by exists (complaint_id, row).
      - by rewrite (response_of_row_mobile _ _ Hc0). }
    destruct complaints1; [done|reflexivity]. }
  rewrite Hsome. cbn [andb negb]. apply Hmembers.
Qed.

Lemma like_any (text : list ascii) : like ["%"; "%"]%char text = true.
Proof.
  assert (H : like ["%"]%char text = true).
  { induction text as [|c text IH]; [reflexivity|exact IH]. }
  destruct text; cbn [like Ascii.eqb Bool.eqb] in *; by rewrite H.
Qed.

(** Without an exact match the search returns the complaints whose
    mobile ends as the cleaned number does or matches it as a LIKE
    pattern. So a number that is empty once cleaned brings up every
    complaint. *)
Theorem inexact_mobile_matches (d : db) (mobile : string) :
  statuses_valid d = true ->
  let clean_mobile := Re.sub_class_empty search_separator mobile in
  let tail :=
    if (10 <=? PyStr.len clean_mobile)%nat then last_chars 10 clean_mobile
    else clean_mobile in
  let pattern := PyStr.chars ("%" ++ clean_mobile ++ "%") in
  (forall complaint_id row,
     complaints d !! complaint_id = Some row ->
     c_mobile row <> clean_mobile) ->
  (forall c,
     In c (get_complaints_by_mobile newest_first d mobile) <->
     get_complaint_by_id d (p_complaint_id c) = Found c
     /\ (last_chars 10 (p_mobile c) = tail
         \/ ((Z.of_nat (length pattern) <= max_like_pattern_length)%Z
             /\ like pattern (PyStr.chars (p_mobile c)) = true)))
  /\ (clean_mobile = "" ->
      forall c,
        get_complaint_by_id d (p_complaint_id c) = Found c ->
        In c (get_complaints_by_mobile newest_first d mobile)).
Proof.
  intros Hvalid clean_mobile tail pattern Hnone.
  assert (Hmembers : forall c,
     In c (get_complaints_by_mobile newest_first d mobile) <->
     get_complaint_by_id d (p_complaint_id c) = Found c
     /\ (last_chars 10 (p_mobile c) = tail
         \/ ((Z.of_nat (length pattern) <= max_like_pattern_length)%Z
             /\ like pattern (PyStr.chars (p_mobile c)) = true))).
  { intros c. unfold get_complaints_by_mobile. cbv zeta.
    fold clean_mobile. fold tail. fold pattern.
    set (exact := fun row : complaint_row =>
                    String.eqb (c_mobile row) clean_mobile).
    set (ends := fun row : complaint_row =>
                   String.eqb (last_chars 10 (c_mobile row)) tail).
    set (contains := fun row : complaint_row =>
                       like pattern (PyStr.chars (c_mobile row))).
    destruct (append_rows_members (select_where newest_first d exact) [] []
                (select_where_distinct d exact)
                (select_where_valid d exact Hvalid))
      as (complaints1 & found1 & -> & Hin1 & Hids1).
    assert (Hempty : forall r, ~ In r (select_where newest_first d exact)).
    { intros r Hr. apply select_where_rows in Hr as [Hr Hexact].
      apply String.eqb_eq in Hexact. by apply (Hnone _ _ Hr). }
    assert (complaints1 = []) as ->.
    { destruct complaints1 as [|c1 l]; [reflexivity|]. exfalso.
      destruct (proj1 (Hin1 c1) ltac:(by left)) as [[]|(r & Hr & _)].
      by apply (Hempty r). }
    assert (Hfound1 : forall complaint_id, ~ In complaint_id found1).
    { intros complaint_id H. apply Hids1 in H as [[]|H].
      apply in_map_iff in H as (r & _ & Hr). by apply (Hempty r). }
    cbn [length Nat.eqb negb andb].
    destruct (append_rows_members (select_where newest_first d ends) []
                found1 (select_where_distinct d ends)
                (select_where_valid d ends Hvalid))
      as (complaints2 & found2 & -> & Hin2 & Hids2).
    assert (Hmembers2 : forall c',
              In c' complaints2 <->
              get_complaint_by_id d (p_complaint_id c') = Found c'
              /\ last_chars 10 (p_mobile c') = tail).
    { intros c'. rewrite Hin2, stored_response. split.
      - intros [[]|(r & Hr & _ & Hc)].
        apply select_where_rows in Hr as [Hr Hends].
        split; [by exists r|].
        rewrite (response_of_row_mobile _ _ Hc). by apply String.eqb_eq.
      - intros [(r & Hr & Hc) Hm]. right. exists r.
        split; [|split; [apply Hfound1|exact Hc]].
        apply select_where_rows. split; [exact Hr|].
        apply String.eqb_eq.
        by rewrite <- (response_of_row_mobile _ _ Hc). }
    destruct (max_like_pattern_length <? Z.of_nat (length pattern))%Z
      eqn:Elong.
    { apply Z.ltb_lt in Elong. rewrite Hmembers2. split.
      - intros [Hs He]. split; [exact Hs|by left].
      - intros [Hs [He|[Hshort _]]]; [by split|lia]. }
    apply Z.ltb_ge in Elong.
    destruct (append_rows_members (select_where newest_first d contains)
                complaints2 found2 (select_where_distinct d contains)
                (select_where_valid d contains Hvalid))
      as (complaints3 & found3 & -> & Hin3 & _).
    rewrite Hin3, Hmembers2. split.
    - intros [[Hs He]|(r & Hr & _ & Hc)]; [split; [exact Hs|by left]|].
      apply select_where_rows in Hr as [Hr Hlike].
      split; [apply stored_response; by exists r|].
      right. split; [exact Elong|].
      by rewrite (response_of_row_mobile _ _ Hc).
    - intros [Hs [He|[_ Hlike]]]; [left; by split|].
      destruct (decide (last_chars 10 (p_mobile c) = tail)) as [He|He];
        [left; by split|].
      pose proof Hs as Hs'. apply stored_response in Hs' as (r & Hr & Hc).
      right. exists r. split; [|split; [|exact Hc]].
      + apply select_where_rows. split; [exact Hr|].
        unfold contains. by rewrite <- (response_of_row_mobile _ _ Hc).
      + intros Hfound. apply Hids2 in Hfound as [Hfound|Hfound];
          [by apply (Hfound1 (fst r))|].
        apply in_map_iff in Hfound as (r' & Hid & Hr').
        apply select_where_rows in Hr' as [Hr' Hends].
        assert (r' = r) as ->.
        { destruct r as [i row], r' as [i' row']. cbn [fst snd] in *.
          subst i'. rewrite Hr in Hr'. by injection Hr' as ->. }
        apply He. rewrite (response_of_row_mobile _ _ Hc).
        by apply String.eqb_eq. }
  split; [exact Hmembers|].
  intros Hclean c Hc. apply Hmembers. split; [exact Hc|].
  right. subst pattern. rewrite Hclean. split; [by vm_compute|].
  apply like_any.
Qed.

End MobileSearchFacts.

Section MobileSearchRuns.
Import Models Database.

Lemma exact_mobile_matches_only_witness :
  let d := run_operations
             [Register (mkComplaintRequest "John Smith" "9876543210"
                          "My laptop screen is broken" (Some HARDWARE))
                "CMP9B41CA0F" 100] in
  In (mkComplaintResponse "CMP9B41CA0F" "John Smith" "9876543210"
        "My laptop screen is broken" "Hardware" REGISTERED 100 100)
    (get_complaints_by_mobile (fun rows => rows) d "98765-43210").
Proof.
  intros d.
  apply (exact_mobile_matches_only (fun rows => rows)
           (fun rows => Permutation_refl rows) d "98765-43210").
  - vm_compute. reflexivity.
  - exists "CMP9B41CA0F",
      (mkComplaint "John Smith" "9876543210" "My laptop screen is broken"
         "Hardware" "Registered" 100 100).
    split; vm_compute; reflexivity.
  - split; vm_compute; reflexivity.
Defined.

Lemma inexact_mobile_matches_witness :
  let d := run_operations
             [Register (mkComplaintRequest "John Smith" "9876543210"
                          "My laptop screen is broken" (Some HARDWARE))
                "CMP9B41CA0F" 100] in
  In (mkComplaintResponse "CMP9B41CA0F" "John Smith" "9876543210"
        "My laptop screen is broken" "Hardware" REGISTERED 100 100)
    (get_complaints_by_mobile (fun rows => rows) d "( )").
Proof.
  intros d.
  apply (inexact_mobile_matches (fun rows => rows)
           (fun rows => Permutation_refl rows) d "( )").
  - vm_compute. reflexivity.
  - intros complaint_id row Hrow.
    change (complaints d)
      with ({[ "CMP9B41CA0F" :=
                 mkComplaint "John Smith" "9876543210"
                   "My laptop screen is broken" "Hardware" "Registered"
                   100 100 ]} : gmap string complaint_row) in Hrow.
    apply lookup_singleton_Some in Hrow as [_ <-]. discriminate.
  - vm_compute. reflexivity.
  - vm_compute. reflexivity.
Defined.

End MobileSearchRuns.

(** ** Extracted names and [validate_name] *)

Section NameValidity.
Import PyStr Re App.

Lemma alpha_facts (c : ascii) :
  is_alpha c = true ->
  is_space c = false /\ is_alpha (upper_char c) = true
  /\ is_alpha (lower_char c) = true.
Proof.
  destruct c as [[] [] [] [] [] [] [] []]; vm_compute; intros H;
    (discriminate H || auto).
Qed.

Lemma lower_char_upper_char (c : ascii) :
  lower_char (upper_char c) = lower_char c
  /\ lower_char (lower_char c) = lower_char c.
Proof. destruct c as [[] [] [] [] [] [] [] []]; by vm_compute. Qed.

(** A word of two letters or more, and its capitalised form. *)
Lemma word_shape (w : string) :
  (2 <=? len w)%nat = true -> isalpha w = true ->
  exists a b t,
    chars w = a :: b :: t /\ is_alpha a = true
    /\ forallb is_alpha (b :: t) = true.
Proof.
  intros Hlen Halpha. apply Nat.leb_le in Hlen. rewrite <- len_chars in Hlen.
  unfold isalpha in Halpha. apply andb_true_iff in Halpha as [_ Halpha].
  destruct (chars w) as [|a [|b t]]; cbn [length] in Hlen; try lia.
  cbn [forallb] in Halpha. apply andb_true_iff in Halpha as [Ha Ht].
  by exists a, b, t.
Qed.

Lemma chars_capitalize (w : string) (a : ascii) (t : list ascii) :
  chars w = a :: t ->
  chars (capitalize w) = upper_char a :: map lower_char t.
Proof.
  intros Hw. unfold capitalize. rewrite Hw. apply chars_of_chars.
Qed.

Lemma lower_capitalize (w : string) : lower (capitalize w) = lower w.
Proof.
  unfold lower. f_equal. unfold capitalize.
  destruct (chars w) as [|a t]; [reflexivity|].
  rewrite chars_of_chars. cbn [map].
  rewrite (proj1 (lower_char_upper_char a)). f_equal.
  rewrite map_map. apply map_ext. intros c.
  apply lower_char_upper_char.
Qed.

Let good_word (w : string) : Prop :=
  (2 <=? len w)%nat = true /\ isalpha w = true.

Lemma capitalized_word_ends (w : string) :
  good_word w ->
  exists a z,
    head (chars (capitalize w)) = Some a /\ is_alpha a = true
    /\ last (chars (capitalize w)) = Some z /\ is_alpha z = true
    /\ ~ In " "%char (chars (capitalize w)).
Proof.
  intros [Hlen Halpha].
  destruct (word_shape w Hlen Halpha) as (a & b & t & Hw & Ha & Ht).
  rewrite (chars_capitalize w a (b :: t) Hw).
  assert (Hlower : forallb is_alpha (map lower_char (b :: t)) = true).
  { rewrite forallb_forall in Ht. apply forallb_forall.
    intros c Hc. apply in_map_iff in Hc as (c' & <- & Hc').
    by apply alpha_facts, Ht. }
  destruct (last (map lower_char (b :: t))) as [z|] eqn:Ez;
    [|apply last_None in Ez; discriminate Ez].
  exists (upper_char a), z.
  split; [reflexivity|]. split; [by apply alpha_facts|].
  split; [by rewrite last_cons, Ez|].
  split; [apply (forallb_last _ _ _ Hlower Ez)|].
  intros [Hin|Hin].
  - apply alpha_facts in Ha as (_ & Ha & _). rewrite Hin in Ha.
    discriminate Ha.
  - rewrite forallb_forall in Hlower. apply Hlower in Hin.
    discriminate Hin.
Qed.

Lemma chars_join_cons (w w' : string) (ws : list string) :
  chars (join " " (w :: w' :: ws))
  = chars w ++ " "%char :: chars (join " " (w' :: ws)).
Proof.
  cbn [join]. rewrite !chars_append. reflexivity.
Qed.

(** A name put together from capitalised words begins and ends with a
    letter. *)
Lemma capitalized_name_ends (ws : list string) :
  ws <> [] -> Forall good_word ws ->
  exists a z,
    head (chars (capitalize_words ws)) = Some a /\ is_alpha a = true
    /\ last (chars (capitalize_words ws)) = Some z /\ is_alpha z = true.
Proof.
  unfold capitalize_words.
  induction ws as [|w [|w' ws] IH]; intros Hne Hws; [done|..].
  - apply Forall_inv in Hws.
    destruct (capitalized_word_ends w Hws) as (a & z & ? & ? & ? & ? & _).
    by exists a, z.
  - apply Forall_cons_1 in Hws as [Hw Hws].
    destruct (capitalized_word_ends w Hw) as (a & _ & Ha & Hal & _).
    destruct (IH ltac:(done) Hws) as (_ & z & _ & _ & Hz & Hzl).
    exists a, z. cbn [map] in *. rewrite chars_join_cons.
    split.
    { destruct (chars (capitalize w)); [discriminate Ha|exact Ha]. }
    split; [exact Hal|]. split; [|exact Hzl].
    rewrite last_app. cbn [last] in *. rewrite last_cons. by rewrite Hz.
Qed.

(** The lower case of the name is that of its only word, or has a blank
    in it. *)
Lemma capitalized_name_lower (ws : list string) :
  ws <> [] ->
  (exists w, ws = [w] /\ lower (capitalize_words ws) = lower w)
  \/ In " "%char (chars (lower (capitalize_words ws))).
Proof.
  unfold capitalize_words. destruct ws as [|w [|w' ws]]; intros Hne; [done|..].
  - left. exists w. split; [reflexivity|]. cbn [map join].
    apply lower_capitalize.
  - right. cbn [map]. unfold lower. rewrite chars_of_chars, chars_join_cons.
    rewrite map_app. apply in_or_app. right. by left.
Qed.

Lemma rejected_names_facts (x : string) :
  mem x ["help"; "what"; "yes"; "no"; "ok"] = true ->
  ~ In " "%char (chars x)
  /\ mem x non_names = true /\ mem x non_name_phrases = true.
Proof.
  unfold mem at 1. intros H. apply existsb_exists in H as (y & Hy & E).
  apply String.eqb_eq in E. subst y.
  cbn [In] in Hy.
  destruct Hy as [<-|[<-|[<-|[<-|[<-|[]]]]]];
    (split; [|by vm_compute]);
    cbn; intuition discriminate.
Qed.

(** A name of good words, none of them rejected when it stands alone, is
    accepted by [validate_name] exactly when it has at most fifty
    characters. *)
Lemma capitalized_name_validity (ws : list string) :
  ws <> [] -> Forall good_word ws ->
  (forall w, ws = [w] ->
     mem (lower w) ["help"; "what"; "yes"; "no"; "ok"] = false) ->
  validate_name (capitalize_words ws) = (len (capitalize_words ws) <=? 50)%nat.
Proof.
  intros Hne Hws Hsingle.
  destruct (capitalized_name_ends ws Hne Hws) as (a & z & Ha & Hal & Hz & Hzl).
  set (name := capitalize_words ws) in *.
  unfold validate_name.
  assert (Hstrip : strip name = name).
  { unfold strip.
    rewrite (strip_chars_id (chars name) a z Ha
               (proj1 (alpha_facts a Hal)) Hz (proj1 (alpha_facts z Hzl))).
    apply of_chars_inj_chars. }
  rewrite Hstrip.
  assert (Hlen : (2 <= len name)%nat).
  { rewrite <- len_chars. subst name. clear -Hne Hws.
    destruct ws as [|w ws]; [done|].
    apply Forall_cons_1 in Hws as [[Hlen Halpha] _].
    destruct (word_shape w Hlen Halpha) as (a' & b & t & Hw & _).
    unfold capitalize_words. cbn [map].
    destruct (map capitalize ws) as [|w' ws'].
    - cbn [join]. rewrite (chars_capitalize w a' (b :: t) Hw).
      cbn [length map]. lia.
    - rewrite chars_join_cons, length_app.
      rewrite (chars_capitalize w a' (b :: t) Hw). cbn [length map]. lia. }
  destruct (len name <? 2)%nat eqn:E2; [apply Nat.ltb_lt in E2; lia|].
  cbn [orb].
  destruct (50 <? len name)%nat eqn:E50.
  { apply Nat.ltb_lt in E50. symmetry. apply Nat.leb_gt. lia. }
  apply Nat.ltb_ge in E50.
  assert (Halpha : existsb is_alpha (chars name) = true).
  { destruct (chars name) as [|c l]; [discriminate Ha|].
    cbn in Ha. injection Ha as ->. cbn [existsb]. by rewrite Hal. }
  rewrite Halpha. cbn [negb].
  destruct (mem (lower name) ["help"; "what"; "yes"; "no"; "ok"]) eqn:Emem.
  - exfalso. destruct (rejected_names_facts _ Emem) as (Hblank & _).
    destruct (capitalized_name_lower ws Hne) as [(w & Hw & Hlower)|Hin].
    + fold name in Hlower. rewrite Hlower in Emem.
      by rewrite (Hsingle w Hw) in Emem.
    + by apply Hblank.
  - symmetry. by apply Nat.leb_le.
Qed.

Lemma split_aux_nonempty (l cur : list ascii) :
  cur <> [] -> split_ws_aux cur l <> [].
Proof.
  revert cur. induction l as [|c l IH]; intros cur Hcur;
    cbn [split_ws_aux].
  - by destruct cur.
  - destruct (is_space c); [by destruct cur|]. by apply IH.
Qed.

Lemma split_aux_nil (l : list ascii) :
  split_ws_aux [] l = [] -> forallb is_space l = true.
Proof.
  induction l as [|c l IH]; [reflexivity|]. cbn [split_ws_aux forallb].
  destruct (is_space c); [exact IH|].
  intros H. by apply split_aux_nonempty in H.
Qed.

(** Text of one word that neither begins nor ends with white space is
    that word. *)
Lemma split_aux_single (w : string) (l : list ascii) :
  forall cur,
    split_ws_aux cur l = [w] ->
    (cur = [] -> exists a, head l = Some a /\ is_space a = false) ->
    (forall z, last l = Some z -> is_space z = false) ->
    chars w = rev cur ++ l.
Proof.
  induction l as [|c l IH]; intros cur Hsplit Hhead Hlast;
    cbn [split_ws_aux] in Hsplit.
  - destruct cur as [|c' cur]; [discriminate Hsplit|].
    injection Hsplit as <-. by rewrite chars_of_chars, app_nil_r.
  - destruct (is_space c) eqn:Ec.
    + destruct cur as [|c' cur].
      * destruct (Hhead eq_refl) as (a & [= <-] & Ha). congruence.
      * injection Hsplit as <- Hrest. apply split_aux_nil in Hrest.
        exfalso. destruct (last (c :: l)) as [z|] eqn:Ez;
          [|by apply last_None in Ez].
        specialize (Hlast z eq_refl).
        assert (Hz : is_space z = true); [|congruence].
        apply (forallb_last is_space (c :: l)); [|exact Ez].
        cbn [forallb]. by rewrite Ec, Hrest.
    + rewrite (IH (c :: cur) Hsplit).
      * cbn [rev]. by rewrite <- app_assoc.
      * discriminate.
      * intros z Hz. apply Hlast. rewrite last_cons. by rewrite Hz.
Qed.

Lemma lstrip_chars_suffix (l : list ascii) :
  exists pre, l = pre ++ lstrip_chars l.
Proof.
  induction l as [|c l [pre IH]]; [by exists []|]. cbn [lstrip_chars].
  destruct (is_space c); [|by exists []].
  exists (c :: pre). cbn [app]. by rewrite <- IH.
Qed.

(** Trimmed text does not begin with white space. *)
Lemma strip_chars_head (l : list ascii) (a : ascii) :
  head (strip_chars l) = Some a -> is_space a = false.
Proof.
  unfold strip_chars. set (l1 := lstrip_chars l).
  destruct (lstrip_chars_suffix (rev l1)) as [pre Hpre].
  set (l2 := lstrip_chars (rev l1)) in *.
  intros Ha. apply (f_equal (@rev ascii)) in Hpre.
  rewrite rev_involutive, rev_app_distr in Hpre.
  destruct (rev l2) as [|c t]; [discriminate Ha|].
  cbn in Ha. injection Ha as ->. cbn [app] in Hpre.
  by apply (lstrip_chars_head l a (t ++ rev pre)).
Qed.

Lemma forallb_Forall_good (ws : list string) :
  forallb (fun word => (2 <=? len word)%nat) ws = true ->
  forallb isalpha ws = true ->
  Forall (fun w => (2 <=? len w)%nat = true /\ isalpha w = true) ws.
Proof.
  rewrite !forallb_forall. intros H2 Ha.
  apply List.Forall_forall. intros w Hw. split; [by apply H2|by apply Ha].
Qed.

(** A name that [extract_information] finds is accepted by
    [validate_name] exactly when it has at most fifty characters; the
    patterns admit names of up to four words of twenty letters. *)
Theorem extracted_name_validity (user_message name : string) :
  x_name (extract_information user_message) = Some name ->
  validate_name name = (len name <=? 50)%nat.
Proof.
  unfold extract_information. cbn [x_name].
  destruct (pattern_name user_message) as [n|] eqn:Epattern.
  - intros [= ->]. unfold pattern_name in Epattern.
    apply first_some_In in Epattern as (pattern & _ & Hf).
    destruct (re_search (icase pattern) user_message) as [m|];
      [|discriminate Hf].
    set (ws := split (strip (default "" (group1 m)))) in *.
    destruct (_ && _) eqn:Econd in Hf; [|discriminate Hf].
    injection Hf as <-.
    apply andb_true_iff in Econd as [Econd Hnon].
    apply andb_true_iff in Econd as [Econd Hwords].
    apply andb_true_iff in Econd as [Hone _].
    apply Nat.leb_le in Hone.
    apply capitalized_name_validity.
    + intros E. rewrite E in Hone. cbn in Hone. lia.
    + rewrite forallb_forall in Hwords. apply List.Forall_forall.
      intros w Hw. apply Hwords in Hw.
      apply andb_true_iff in Hw as [Hw Halpha].
      apply andb_true_iff in Hw as [Hlen _]. by split.
    + intros w Hw. rewrite Hw in Hnon. cbn [existsb] in Hnon.
      rewrite orb_false_r in Hnon. apply negb_true_iff in Hnon.
      destruct (mem (lower w) ["help"; "what"; "yes"; "no"; "ok"]) eqn:E;
        [|reflexivity].
      apply rejected_names_facts in E as (_ & E & _). congruence.
  - unfold whole_message_name.
    set (original := strip user_message).
    set (ws := split original).
    destruct (_ && _) eqn:Ecand; [|discriminate].
    destruct (forallb _ ws && forallb isalpha ws) eqn:Ewords; [|discriminate].
    destruct (negb _) eqn:Edeny; [|discriminate].
    intros [= <-].
    apply andb_true_iff in Ecand as [_ Hmatch].
    apply bool_decide_eq_true_1 in Hmatch.
    apply andb_true_iff in Ewords as [Hlens Halphas].
    apply negb_true_iff in Edeny.
    assert (Horiginal : chars original = strip_chars (chars user_message)).
    { unfold original, strip. apply chars_of_chars. }
    assert (Hne : ws <> []).
    { intros E. unfold ws, split in E. apply split_aux_nil in E.
      destruct (chars original) as [|c l] eqn:Ec.
      - unfold re_match in Hmatch. rewrite Ec in Hmatch.
        vm_compute in Hmatch. by destruct Hmatch.
      - assert (is_space c = false)
          by (apply (strip_chars_head (chars user_message));
              by rewrite <- Horiginal).
        cbn [forallb] in E. apply andb_true_iff in E as [E _]. congruence. }
    apply capitalized_name_validity; [exact Hne| |].
    + by apply forallb_Forall_good.
    + intros w Hw.
      assert (Hchars : chars w = chars original).
      { apply (split_aux_single w (chars original) []); [exact Hw|..].
        - intros _. destruct (chars original) as [|c l] eqn:Ec.
          + unfold ws, split in Hw. rewrite Ec in Hw. discriminate Hw.
          + exists c. split; [reflexivity|].
            apply (strip_chars_head (chars user_message)).
            by rewrite <- Horiginal.
        - intros z Hz. rewrite Horiginal in Hz.
          by apply (strip_chars_last (chars user_message)). }
      assert (w = original) as ->.
      { rewrite <- (of_chars_inj_chars w), Hchars.
        apply of_chars_inj_chars. }
      destruct (mem (lower original) ["help"; "what"; "yes"; "no"; "ok"])
        eqn:E; [|reflexivity].
      apply rejected_names_facts in E as (_ & _ & E). congruence.
Qed.

Lemma extracted_name_validity_witness :
  validate_name "Asha Rao" = true
  /\ validate_name
       "Abcdefghijklmnopqrst Bbcdefghijklmnopqrst Cbcdefghijklmnopqrst"
     = false.
Proof.
  split.
  - apply (extracted_name_validity "my name is asha rao" "Asha Rao").
    vm_compute. reflexivity.
  - apply (extracted_name_validity
             "abcdefghijklmnopqrst bbcdefghijklmnopqrst cbcdefghijklmnopqrst"
             "Abcdefghijklmnopqrst Bbcdefghijklmnopqrst Cbcdefghijklmnopqrst").
    vm_compute. reflexivity.
Defined.

End NameValidity.
